(** * Extraction and scoring pipeline of the eBay auction bot

    A shallow embedding of [scraper.py] (price, duration, brand and listing
    parsers, the search and the detail page), [config.py] (the [Config]
    dataclass), [filters.py] ([AuctionFilter] and its statistics) and the
    search conversation of [main.py], together with the properties the
    specification states about them and further properties of the code.

    Modelling conventions.
    - A Python [str] is a [string]; case folding and digit tests are the
      ASCII ones, other bytes are carried unchanged.
    - A Python number ([int] or [float]) is the exact rational it denotes
      ([Qc]); IEEE rounding, overflow, infinities and NaN are outside the
      model.
    - An auction is the [dict] the code passes around: a finite map from
      string keys to dynamically typed values ([pyval]). The filter writes to
      the dicts it is given, so its auctions live in a heap and a list of
      auctions is a list of addresses, which may name one auction twice.
    - Exceptions are values of [result]; [try ... except] is a match on it.
    - Log emission has no effect on any value and is left out. *)

From Stdlib Require Import QArith Qcanon Ascii Lqa.
From stdpp Require Import base numbers strings pretty list gmap sorting.

Local Open Scope string_scope.
Local Open Scope list_scope.
Local Open Scope Z_scope.

(** ** Exceptions *)

Inductive exn : Type :=
| AttributeError (name : string)
| TypeError
| ValueError
| ZeroDivisionError
| LibraryError (msg : string).

Inductive result (A : Type) : Type :=
| Ok (a : A)
| Raise (e : exn).
Arguments Ok {A} a.
Arguments Raise {A} e.

#[global] Instance exn_eq_dec : EqDecision exn.
Proof. solve_decision. Defined.

#[global] Instance result_eq_dec {A : Type} `{EqDecision A} : EqDecision (result A).
Proof. solve_decision. Defined.

Definition bind {A B : Type} (m : result A) (k : A → result B) : result B :=
  match m with
  | Ok a => k a
  | Raise e => Raise e
  end.

Notation "'let*' x ':=' m 'in' k" := (bind m (fun x => k))
  (at level 10, x name, m at level 100, k at level 200).
Notation "'let*' ' pat ':=' m 'in' k" :=
  (bind m (fun x => match x with pat => k end))
  (at level 10, pat pattern, m at level 100, k at level 200).

(** [try: m except: h] *)
Definition try_except {A : Type} (m : result A) (h : exn → A) : A :=
  match m with
  | Ok a => a
  | Raise e => h e
  end.

(** ** Strings *)

Module Str.

Definition is_digit (c : ascii) : bool :=
  let n := N_of_ascii c in ((48 <=? n) && (n <=? 57))%N.

Definition is_upper (c : ascii) : bool :=
  let n := N_of_ascii c in ((65 <=? n) && (n <=? 90))%N.

Definition lower_ascii (c : ascii) : ascii :=
  if is_upper c then ascii_of_N (N_of_ascii c + 32) else c.

(** [s.lower()] *)
Fixpoint lower (s : string) : string :=
  match s with
  | "" => ""
  | String c s' => String (lower_ascii c) (lower s')
  end.

(** [sub in s] for two strings *)
Fixpoint contains (sub s : string) : bool :=
  String.prefix sub s ||
  match s with
  | "" => false
  | String _ s' => contains sub s'
  end.

(** [s.isdigit()] : non-empty and digits only *)
Fixpoint all_digits (s : string) : bool :=
  match s with
  | "" => true
  | String c s' => is_digit c && all_digits s'
  end.

Definition isdigit (s : string) : bool :=
  match s with
  | "" => false
  | _ => all_digits s
  end.

(** [re.sub('[^...]', '', s)] : keep the characters of the class *)
Fixpoint keep (p : ascii → bool) (s : string) : string :=
  match s with
  | "" => ""
  | String c s' => if p c then String c (keep p s') else keep p s'
  end.

Fixpoint take_while (p : ascii → bool) (s : string) : string :=
  match s with
  | "" => ""
  | String c s' => if p c then String c (take_while p s') else ""
  end.

Fixpoint drop (n : nat) (s : string) : string :=
  match n, s with
  | O, _ => s
  | S n', String _ s' => drop n' s'
  | S _, "" => ""
  end.

Definition digit_val (c : ascii) : Z := Z.of_N (N_of_ascii c) - 48.

(** value of a digit string read in base ten, most significant first *)
Fixpoint decimal_acc (acc : Z) (s : string) : Z :=
  match s with
  | "" => acc
  | String c s' => decimal_acc (10 * acc + digit_val c) s'
  end.

Definition decimal (s : string) : Z := decimal_acc 0 s.

End Str.

(** [int(s)] on the text a [\d+] group can hold. *)
Definition py_int (s : string) : result Z :=
  if Str.isdigit s then Ok (Str.decimal s) else Raise ValueError.

(** ** Regular expressions

    Every pattern of the scraper has the shape [pre(C{n,})suf]: a literal, one
    group that repeats a character class greedily at least [n] times, and a
    literal. [re_group] matches that shape at the head of the text the way
    the backtracking matcher does (longest repetition first, giving
    characters back while the rest fails); [re_search] returns group 1 of
    the leftmost match. *)

Module Re.

Record pattern : Type := Pattern {
  pre : string;
  cls : ascii → bool;
  atleast : nat;
  suf : string
}.

Definition stop (n : nat) (suf s : string) : option string :=
  if (n =? 0)%nat && String.prefix suf s then Some "" else None.

Fixpoint re_group (cls : ascii → bool) (n : nat) (suf s : string)
  : option string :=
  match s with
  | String c s' =>
      if cls c then
        match re_group cls (Nat.pred n) suf s' with
        | Some g => Some (String c g)
        | None => stop n suf s
        end
      else stop n suf s
  | "" => stop n suf s
  end.

Fixpoint strip_prefix (p s : string) : option string :=
  match p, s with
  | "", _ => Some s
  | String a p', String b s' =>
      if Ascii.eqb a b then strip_prefix p' s' else None
  | String _ _, "" => None
  end.

Definition match_here (p : pattern) (s : string) : option string :=
  match strip_prefix (pre p) s with
  | Some rest => re_group (cls p) (atleast p) (suf p) rest
  | None => None
  end.

(** [m = re.search(p, s)]; the result is [m.group(1)] *)
Fixpoint re_search (p : pattern) (s : string) : option string :=
  match match_here p s with
  | Some g => Some g
  | None =>
      match s with
      | "" => None
      | String _ s' => re_search p s'
      end
  end.

End Re.

(** ** scraper.py : the three leaf parsers *)

(** [(\d+)d], [(\d+)h], [(\d+)m] *)
Definition unit_pattern (u : string) : Re.pattern :=
  Re.Pattern "" Str.is_digit 1 u.

Definition _parse_time_remaining_body (time_text : string) : result Qc :=
  let time_text := Str.lower time_text in
  let hours := 0%Qc in
  let* hours :=
    match Re.re_search (unit_pattern "d") time_text with
    | Some g => let* d := py_int g in Ok (hours + Qc_of_Z (d * 24))%Qc
    | None => Ok hours
    end in
  let* hours :=
    match Re.re_search (unit_pattern "h") time_text with
    | Some g => let* h := py_int g in Ok (hours + Qc_of_Z h)%Qc
    | None => Ok hours
    end in
  let* hours :=
    match Re.re_search (unit_pattern "m") time_text with
    | Some g => let* m := py_int g in Ok (hours + Qc_of_Z m / Qc_of_Z 60)%Qc
    | None => Ok hours
    end in
  Ok hours.

Definition _parse_time_remaining (time_text : string) : Qc :=
  try_except (_parse_time_remaining_body time_text) (fun _ => Qc_of_Z 999).

(** [float(s)] for the text [_parse_price] hands over, which holds digits and
    points only: an integer part, then optionally a point and a fraction, with
    one digit at least. Any other text is a [ValueError] here. *)
Definition py_float (s : string) : result Qc :=
  let ip := Str.take_while Str.is_digit s in
  match Str.drop (String.length ip) s with
  | "" =>
      if bool_decide (ip = "") then Raise ValueError
      else Ok (Qc_of_Z (Str.decimal ip))
  | String "." fp =>
      if Str.all_digits fp && negb (bool_decide (ip = "") && bool_decide (fp = ""))
      then Ok (Qc_of_Z (Str.decimal ip)
               + Qc_of_Z (Str.decimal fp) / Qc_of_Z (10 ^ Z.of_nat (String.length fp)))%Qc
      else Raise ValueError
  | String _ _ => Raise ValueError
  end.

(** the class [\d.,] of the price regex *)
Definition price_char (c : ascii) : bool :=
  Str.is_digit c || Ascii.eqb c "." || Ascii.eqb c ",".

Definition _parse_price (price_text : string) : option Qc :=
  try_except
    (let price_clean := Str.keep price_char price_text in
     let price_clean := Str.keep (fun c => negb (Ascii.eqb c ",")) price_clean in
     if bool_decide (price_clean = "") then Ok None
     else let* x := py_float price_clean in Ok (Some x))
    (fun _ => None).

Definition brands : list string :=
  [ "MacBook"; "ThinkPad"; "XPS"; "Surface"; "Alienware";
    "Dell"; "Lenovo"; "HP"; "ASUS"; "Acer"; "MSI";
    "Apple"; "Microsoft"; "Razer"; "Sony"; "Toshiba" ].

(** the loop [for brand in brands: if brand.lower() in title_lower: return brand],
    which [_extract_brand] and [_is_premium_brand] both run *)
Fixpoint first_occurring (title_lower : string) (bs : list string) : option string :=
  match bs with
  | [] => None
  | brand :: bs' =>
      if Str.contains (Str.lower brand) title_lower then Some brand
      else first_occurring title_lower bs'
  end.

Definition _extract_brand (title : string) : option string :=
  let title_lower := Str.lower title in
  first_occurring title_lower brands.

(** ** Auction records

    The values an auction [dict] holds in this code base: [None], text,
    numbers, the list of reasons, and the [datetime] stamp. *)

Inductive pyval : Type :=
| PNone
| PStr (s : string)
| PNum (q : Qc)
| PList (l : list string)
| PTime (t : Z).

#[global] Instance pyval_eq_dec : EqDecision pyval.
Proof. solve_decision. Defined.

Abbreviation Dict := (gmap string pyval).

(** [bool(v)] *)
Definition truthy (v : pyval) : bool :=
  match v with
  | PNone => false
  | PStr s => negb (bool_decide (s = ""))
  | PNum q => negb (bool_decide (q = 0%Qc))
  | PList l => negb (bool_decide (l = []))
  | PTime _ => true
  end.

(** [d.get(k, default)] *)
Definition dict_get (d : Dict) (k : string) (dflt : pyval) : pyval :=
  default dflt (d !! k).

(** a value used as a number, in arithmetic or in a comparison with a
    number: anything else is a [TypeError] *)
Definition as_num (v : pyval) : result Qc :=
  match v with
  | PNum q => Ok q
  | _ => Raise TypeError
  end.

(** [v.lower()] : only text has the method *)
Definition py_lower (v : pyval) : result string :=
  match v with
  | PStr s => Ok (Str.lower s)
  | _ => Raise (AttributeError "lower")
  end.

Fixpoint list_leb (a b : list string) : bool :=
  match a, b with
  | [], _ => true
  | _ :: _, [] => false
  | x :: a', y :: b' =>
      if bool_decide (x = y) then list_leb a' b' else String.ltb x y
  end.

(** [x <= y] between two values of a record *)
Definition py_le (x y : pyval) : result bool :=
  match x, y with
  | PNum a, PNum b => Ok (bool_decide (a ≤ b)%Qc)
  | PStr a, PStr b => Ok (String.leb a b)
  | PList a, PList b => Ok (list_leb a b)
  | PTime a, PTime b => Ok (a <=? b)%Z
  | _, _ => Raise TypeError
  end.

(** [needle in hay] for a text needle: substring of a text, member of a
    list, [TypeError] on a value that is no container *)
Definition py_in (needle : string) (hay : pyval) : result bool :=
  match hay with
  | PStr s => Ok (Str.contains needle s)
  | PList l => Ok (bool_decide (needle ∈ l))
  | _ => Raise TypeError
  end.

(** [v in l] for a list of text: equality with an entry, never an error *)
Definition in_list (v : pyval) (l : list string) : bool :=
  match v with
  | PStr s => bool_decide (s ∈ l)
  | _ => false
  end.

(** [min(x, y)] : the first argument unless the second is smaller *)
Definition py_min (x y : Qc) : Qc :=
  if bool_decide (y < x)%Qc then y else x.

(** [round(x, 2)] : nearest multiple of 1/100, an exact tie to the even one *)
Definition round_half_even (x : Qc) : Z :=
  let n := Qnum (this x) in
  let d := Z.pos (Qden (this x)) in
  let f := n / d in
  let r := 2 * (n mod d) in
  if r <? d then f
  else if d <? r then f + 1
  else if Z.even f then f else f + 1.

Definition round2 (x : Qc) : Qc :=
  (Qc_of_Z (round_half_even (x * Qc_of_Z 100)) / Qc_of_Z 100)%Qc.

(** ** config.py *)

Record Config : Type := {
  TELEGRAM_BOT_TOKEN : string;
  TELEGRAM_CHAT_ID : string;
  EBAY_SEARCH_URL : string;
  SEARCH_QUERY : string;
  CATEGORY_ID : string;
  REQUEST_DELAY : Qc;
  REQUEST_TIMEOUT : Z;
  HEADERS : list (string * string);
  (* The attributes [AuctionFilter] reads. The dataclass declares none of
     them; [None] is an attribute the object does not have, [Some] one that
     a configuration object supplies. *)
  MIN_PRICE : option Qc;
  MAX_PRICE : option Qc;
  PREMIUM_BRANDS : option (list string);
  MAX_TIME_REMAINING_HOURS : option Qc;
  MIN_BIDS : option Qc;
  EXCLUDE_KEYWORDS : option (list string);
  MIN_DISCOUNT_PERCENT : option Qc
}.

(** [obj.name] *)
Definition getattr {A : Type} (name : string) (field : option A) : result A :=
  match field with
  | Some v => Ok v
  | None => Raise (AttributeError name)
  end.

(** [Config()] : the dataclass with its declared defaults; the two tokens come
    from the environment. *)
Definition Config_default (token chat_id : string) : Config := {|
  TELEGRAM_BOT_TOKEN := token;
  TELEGRAM_CHAT_ID := chat_id;
  EBAY_SEARCH_URL := "https://www.ebay.com/sch/i.html";
  SEARCH_QUERY := "laptop";
  CATEGORY_ID := "0";
  REQUEST_DELAY := 1%Qc;
  REQUEST_TIMEOUT := 10;
  HEADERS :=
    [ ("User-Agent", "Mozilla/5.0 (Windows NT 10.0; Win64; x64) AppleWebKit/537.36 (KHTML, like Gecko) Chrome/91.0.4472.124 Safari/537.36");
      ("Accept", "text/html,application/xhtml+xml,application/xml;q=0.9,image/webp,*/*;q=0.8");
      ("Accept-Language", "en-US,en;q=0.5");
      ("Accept-Encoding", "gzip, deflate");
      ("Connection", "keep-alive");
      ("Upgrade-Insecure-Requests", "1") ];
  MIN_PRICE := None;
  MAX_PRICE := None;
  PREMIUM_BRANDS := None;
  MAX_TIME_REMAINING_HOURS := None;
  MIN_BIDS := None;
  EXCLUDE_KEYWORDS := None;
  MIN_DISCOUNT_PERCENT := None
|}.

(** The thresholds of a filtering policy, and a configuration that defines
    them all. *)
Record Policy : Type := {
  min_price : Qc;
  max_price : Qc;
  premium_brands : list string;
  max_time_remaining_hours : Qc;
  min_bids : Qc;
  exclude_keywords : list string;
  min_discount_percent : Qc
}.

Definition with_policy (c : Config) (p : Policy) : Config := {|
  TELEGRAM_BOT_TOKEN := TELEGRAM_BOT_TOKEN c;
  TELEGRAM_CHAT_ID := TELEGRAM_CHAT_ID c;
  EBAY_SEARCH_URL := EBAY_SEARCH_URL c;
  SEARCH_QUERY := SEARCH_QUERY c;
  CATEGORY_ID := CATEGORY_ID c;
  REQUEST_DELAY := REQUEST_DELAY c;
  REQUEST_TIMEOUT := REQUEST_TIMEOUT c;
  HEADERS := HEADERS c;
  MIN_PRICE := Some (min_price p);
  MAX_PRICE := Some (max_price p);
  PREMIUM_BRANDS := Some (premium_brands p);
  MAX_TIME_REMAINING_HOURS := Some (max_time_remaining_hours p);
  MIN_BIDS := Some (min_bids p);
  EXCLUDE_KEYWORDS := Some (exclude_keywords p);
  MIN_DISCOUNT_PERCENT := Some (min_discount_percent p)
|}.

(** ** Sorting

    [list.sort(key=..., reverse=True)] is a stable sort: the result is in
    descending key order and records with equal keys keep the order they had.
    The model is insertion from the right, which places a record in front of
    the records behind it whose key is not greater. *)

Section Sort.
Context {A : Type} (key : A → Qc).

Fixpoint insert_desc (x : A) (l : list A) : list A :=
  match l with
  | [] => [x]
  | y :: l' =>
      if bool_decide (key x < key y)%Qc then y :: insert_desc x l'
      else x :: y :: l'
  end.

Fixpoint sort_desc (l : list A) : list A :=
  match l with
  | [] => []
  | x :: l' => insert_desc x (sort_desc l')
  end.
End Sort.

(** ** filters.py : AuctionFilter

    A method of the filter receives a reference to an auction [dict] and may
    write to it. Its model takes the auction as it stands and returns the
    auction as the call leaves it together with the result or the exception:
    a write made before an exception stays. *)

Definition stateful (A : Type) : Type := Dict → Dict * result A.

Definition sret {A : Type} (a : A) : stateful A := fun d => (d, Ok a).

Definition sbind {A B : Type} (m : stateful A) (k : A → stateful B) : stateful B :=
  fun d =>
    match m d with
    | (d', Ok a) => k a d'
    | (d', Raise e) => (d', Raise e)
    end.

Notation "'do*' x ':=' m 'in' k" := (sbind m (fun x => k))
  (at level 10, x name, m at level 100, k at level 200).

(** a step that only reads the auction *)
Definition read {A : Type} (f : Dict → result A) : stateful A :=
  fun d => (d, f d).

(** [auction.get(k, default)] *)
Definition get_item (k : string) (dflt : pyval) : stateful pyval :=
  read (fun d => Ok (dict_get d k dflt)).

(** a step that does not touch the auction *)
Definition lift {A : Type} (r : result A) : stateful A := read (fun _ => r).

(** [auction[k] = v] *)
Definition set_item (k : string) (v : pyval) : stateful unit :=
  fun d => (<[k := v]> d, Ok tt).

Section AuctionFilter.

(** Text of a value inside an f-string: [repr] stands for Python's
    rendering of a value that is not text, [format_1f] for the
    [:.1f] format of a number. *)
Variable repr : pyval → string.
Variable format_1f : Qc → string.

Definition str_of (v : pyval) : string :=
  match v with
  | PStr s => s
  | _ => repr v
  end.

Definition _price_in_range (config : Config) (auction : Dict) : result bool :=
  let current_price := dict_get auction "current_price" (PNum 0) in
  let* lo := getattr "MIN_PRICE" (MIN_PRICE config) in
  let* c := as_num current_price in
  if bool_decide (lo ≤ c)%Qc then
    let* hi := getattr "MAX_PRICE" (MAX_PRICE config) in
    Ok (bool_decide (c ≤ hi)%Qc)
  else Ok false.

Definition _is_premium_brand (config : Config) : stateful bool :=
  do* title := read (fun auction => py_lower (dict_get auction "title" (PStr ""))) in
  do* brand := get_item "brand" PNone in
  if truthy brand then
    do* pbs := lift (getattr "PREMIUM_BRANDS" (PREMIUM_BRANDS config)) in
    sret (in_list brand pbs)
  else
    do* pbs := lift (getattr "PREMIUM_BRANDS" (PREMIUM_BRANDS config)) in
    match first_occurring title pbs with
    | Some premium_brand =>
        do* _ := set_item "brand" (PStr premium_brand) in
        sret true
    | None => sret false
    end.

Definition _time_remaining_valid (config : Config) (auction : Dict) : result bool :=
  let time_hours := dict_get auction "time_remaining_hours" (PNum (Qc_of_Z 999)) in
  let* t := as_num time_hours in
  if bool_decide (0 < t)%Qc then
    let* mx := getattr "MAX_TIME_REMAINING_HOURS" (MAX_TIME_REMAINING_HOURS config) in
    Ok (bool_decide (t ≤ mx)%Qc)
  else Ok false.

Definition _has_minimum_activity (config : Config) (auction : Dict) : result bool :=
  let bids := dict_get auction "bids" (PNum 0) in
  let* mb := getattr "MIN_BIDS" (MIN_BIDS config) in
  let* b := as_num bids in
  Ok (bool_decide (mb ≤ b)%Qc).

Definition _has_excluded_keywords (config : Config) (auction : Dict) : result bool :=
  let* title := py_lower (dict_get auction "title" (PStr "")) in
  let* kws := getattr "EXCLUDE_KEYWORDS" (EXCLUDE_KEYWORDS config) in
  Ok (existsb (fun keyword => Str.contains (Str.lower keyword) title) kws).

(** [any(pb in brand for pb in premium_brands)] *)
Fixpoint any_in (brand : pyval) (pbs : list string) : result bool :=
  match pbs with
  | [] => Ok false
  | pb :: pbs' =>
      let* b := py_in pb brand in
      if b then Ok true else any_in brand pbs'
  end.

Definition desirable_brands : list string :=
  [ "MacBook"; "ThinkPad"; "XPS"; "Surface" ].

Definition _alternative_value_check (config : Config) (auction : Dict) : result bool :=
  let current_price := dict_get auction "current_price" (PNum 0) in
  let bids := dict_get auction "bids" (PNum 0) in
  let brand := dict_get auction "brand" (PStr "") in
  let* hit := any_in brand desirable_brands in
  let* first :=
    (if hit then
       let* c := as_num current_price in
       if bool_decide (c ≤ Qc_of_Z 1500)%Qc then
         let* b := as_num bids in Ok (bool_decide (Qc_of_Z 5 ≤ b)%Qc)
       else Ok false
     else Ok false) in
  if first then Ok true
  else
    let* c := as_num current_price in
    if bool_decide (c ≤ Qc_of_Z 800)%Qc then
      let* mb := getattr "MIN_BIDS" (MIN_BIDS config) in
      let* b := as_num bids in
      Ok (bool_decide (mb ≤ b)%Qc)
    else Ok false.

(** [((original_price - current_price) / original_price) * 100] *)
Definition discount_of (original_price current_price : pyval) : result Qc :=
  let* o := as_num original_price in
  let* c := as_num current_price in
  let* q :=
    (if bool_decide (o = 0%Qc) then Raise ZeroDivisionError
     else Ok ((o - c) / o)%Qc) in
  Ok (q * Qc_of_Z 100)%Qc.

Definition _has_good_discount (config : Config) : stateful bool :=
  do* current_price := get_item "current_price" (PNum 0) in
  do* original_price := get_item "original_price" PNone in
  do* no_discount :=
    lift (if negb (truthy original_price) then Ok true
          else py_le original_price current_price) in
  if no_discount then read (_alternative_value_check config)
  else
    do* discount_percent := lift (discount_of original_price current_price) in
    do* _ := set_item "discount_percent" (PNum discount_percent) in
    do* md := lift (getattr "MIN_DISCOUNT_PERCENT" (MIN_DISCOUNT_PERCENT config)) in
    sret (bool_decide (md ≤ discount_percent)%Qc).

Definition _is_auction_interesting (config : Config) : stateful bool :=
  do* b := read (_price_in_range config) in
  if negb b then sret false else
  do* b := _is_premium_brand config in
  if negb b then sret false else
  do* b := read (_time_remaining_valid config) in
  if negb b then sret false else
  do* b := read (_has_minimum_activity config) in
  if negb b then sret false else
  do* b := read (_has_excluded_keywords config) in
  if b then sret false else
  do* b := _has_good_discount config in
  if negb b then sret false else
  sret true.

Definition premium_bonus : list (string * Qc) :=
  [ ("MacBook", Qc_of_Z 3); ("ThinkPad", Qc_of_Z 2); ("XPS", Qc_of_Z 2);
    ("Surface", Qc_of_Z 2); ("Alienware", Qc_of_Z 3) ].

(** [for premium, bonus in premium_bonus.items(): if premium in brand:
    score += bonus; break] *)
Fixpoint bonus_loop (brand : pyval) (table : list (string * Qc)) (score : Qc)
  : result Qc :=
  match table with
  | [] => Ok score
  | (premium, bonus) :: table' =>
      let* b := py_in premium brand in
      if b then Ok (score + bonus)%Qc else bonus_loop brand table' score
  end.

Definition _calculate_interest_score (auction : Dict) : result Qc :=
  let score := 0%Qc in
  let discount := dict_get auction "discount_percent" (PNum 0) in
  let* d := as_num discount in
  let score := if bool_decide (0 < d)%Qc then (score + d / Qc_of_Z 10)%Qc else score in
  let bids := dict_get auction "bids" (PNum 0) in
  let* b := as_num bids in
  let score := (score + py_min (b / Qc_of_Z 2) (Qc_of_Z 10))%Qc in
  let time_hours := dict_get auction "time_remaining_hours" (PNum (Qc_of_Z 999)) in
  let* t := as_num time_hours in
  let score :=
    if bool_decide (t ≤ 1)%Qc then (score + Qc_of_Z 5)%Qc
    else if bool_decide (t ≤ Qc_of_Z 2)%Qc then (score + Qc_of_Z 3)%Qc
    else if bool_decide (t ≤ Qc_of_Z 3)%Qc then (score + 1)%Qc
    else score in
  let brand := dict_get auction "brand" (PStr "") in
  let* score := bonus_loop brand premium_bonus score in
  let current_price := dict_get auction "current_price" (PNum 0) in
  let* c := as_num current_price in
  let score :=
    if bool_decide (c ≤ Qc_of_Z 500)%Qc then (score + Qc_of_Z 3)%Qc
    else if bool_decide (c ≤ Qc_of_Z 800)%Qc then (score + Qc_of_Z 2)%Qc
    else if bool_decide (c ≤ Qc_of_Z 1200)%Qc then (score + 1)%Qc
    else score in
  Ok (round2 score).

Definition _get_filter_reasons (config : Config) (auction : Dict)
  : result (list string) :=
  let reasons : list string := [] in
  let brand := dict_get auction "brand" PNone in
  let reasons :=
    if truthy brand then reasons ++ ["Marca premium: " +:+ str_of brand]
    else reasons in
  let discount := dict_get auction "discount_percent" PNone in
  let* reasons :=
    (if truthy discount then
       let* d := as_num discount in
       if bool_decide (0 < d)%Qc
       then Ok (reasons ++ ["Descuento: " +:+ format_1f d +:+ "%"])
       else Ok reasons
     else Ok reasons) in
  let bids := dict_get auction "bids" (PNum 0) in
  let* mb := getattr "MIN_BIDS" (MIN_BIDS config) in
  let* b := as_num bids in
  let reasons :=
    if bool_decide (mb ≤ b)%Qc
    then reasons ++ ["Actividad alta: " +:+ str_of bids +:+ " pujas"]
    else reasons in
  let time_hours := dict_get auction "time_remaining_hours" (PNum (Qc_of_Z 999)) in
  let* t := as_num time_hours in
  let reasons :=
    if bool_decide (t ≤ 1)%Qc then reasons ++ ["¡Termina pronto!"] else reasons in
  let current_price := dict_get auction "current_price" (PNum 0) in
  let* c := as_num current_price in
  let reasons :=
    if bool_decide (c ≤ Qc_of_Z 500)%Qc then reasons ++ ["Precio muy atractivo"]
    else reasons in
  Ok reasons.

(** The body of the [try] for one auction; the result says whether the
    auction is appended. *)
Definition evaluate (config : Config) : stateful bool :=
  do* b := _is_auction_interesting config in
  if b then
    do* reasons := read (_get_filter_reasons config) in
    do* _ := set_item "filter_reason" (PList reasons) in
    do* score := read _calculate_interest_score in
    do* _ := set_item "interest_score" (PNum score) in
    sret true
  else sret false.

(** The list the caller passes holds references. [heap] maps the address of
    each auction to its present content, and the loop writes back what
    [evaluate] leaves, whether the auction is kept, dropped or raised on. An
    address without an object refers to nothing and is passed over. *)
Fixpoint filter_loop (config : Config) (auctions : list nat)
  (heap : gmap nat Dict) (interesting_auctions : list nat)
  : gmap nat Dict * list nat :=
  match auctions with
  | [] => (heap, interesting_auctions)
  | auction :: rest =>
      match heap !! auction with
      | None => filter_loop config rest heap interesting_auctions
      | Some d =>
          let '(d', r) := evaluate config d in
          let heap := <[auction := d']> heap in
          let interesting_auctions :=
            match r with
            | Ok true => interesting_auctions ++ [auction]
            | Ok false => interesting_auctions
            | Raise e => interesting_auctions
            end in
          filter_loop config rest heap interesting_auctions
      end
  end.

(** the auction a reference stands for *)
Definition deref (heap : gmap nat Dict) (x : nat) : Dict :=
  default ∅ (heap !! x).

(** [x.get('interest_score', 0)] as a sort key. Every record the loop
    collects carries the number [evaluate] stored there. *)
Definition score_key (x : Dict) : Qc :=
  match dict_get x "interest_score" (PNum 0) with
  | PNum q => q
  | _ => 0%Qc
  end.

(** The heap as the call leaves it, and the list of references it returns. *)
Definition filter_interesting_auctions (config : Config)
  (heap : gmap nat Dict) (auctions : list nat) : gmap nat Dict * list nat :=
  let '(heap, interesting_auctions) := filter_loop config auctions heap [] in
  (heap, sort_desc (fun x => score_key (deref heap x)) interesting_auctions).

End AuctionFilter.

(** [AuctionFilter(config)] : [self.config = config or Config()] *)
Definition AuctionFilter_init (token chat_id : string) (config : option Config)
  : Config :=
  match config with
  | Some c => c
  | None => Config_default token chat_id
  end.

(** ** scraper.py : the listing extractor

    The markup library is outside the repository. It is taken as an
    interface: the lookups the extractor performs on a tag, each of which may
    raise. *)

Inductive selector : Type :=
| Tag (name : string)                                   (* find('a') *)
| TagClass (name class_ : string)                       (* find(name, class_=...) *)
| TagClassFn (name : string) (f : option string → bool) (* find(name, {'class': f}) *)
| TagHref (name : string)                               (* find(name, href=True) *)
| TagString (name : string) (f : option string → bool). (* find(name, string=f) *)

Class Soup (tag : Type) : Type := {
  find : tag → selector → result (option tag);
  (** [get_text(strip=True)] *)
  get_text : tag → result string;
  (** [tag.get(attr, default)] *)
  get : tag → string → string → result string
}.

(** [lambda x: x and sub in x] *)
Definition has (sub : string) (x : option string) : bool :=
  match x with
  | Some x => negb (bool_decide (x = "")) && Str.contains sub x
  | None => false
  end.

(** [a or b] on two lookups: the second runs only when the first found nothing *)
Definition or_find {tag : Type} (a b : result (option tag)) : result (option tag) :=
  let* x := a in
  match x with
  | Some t => Ok (Some t)
  | None => b
  end.

Definition not_in (chars : string) (c : ascii) : bool :=
  negb (Str.contains (String c "") chars).

Definition id_patterns : list Re.pattern :=
  [ Re.Pattern "/itm/" (not_in "/?&") 1 "";
    Re.Pattern "item=" Str.is_digit 1 "";
    Re.Pattern "/" Str.is_digit 12 "";
    Re.Pattern "hash=item" Str.is_digit 1 "" ].

Definition valid_id (item_id : string) : bool :=
  Str.isdigit item_id && (8 <=? String.length item_id)%nat.

Fixpoint first_valid_id (patterns : list Re.pattern) (url : string) : option string :=
  match patterns with
  | [] => None
  | pattern :: patterns' =>
      match Re.re_search pattern url with
      | Some item_id =>
          if valid_id item_id then Some item_id
          else first_valid_id patterns' url
      | None => first_valid_id patterns' url
      end
  end.

(** No step of the body raises on text, so the bare [except] is never taken. *)
Definition _extract_ebay_id (url : string) : option string :=
  if bool_decide (url = "") || negb (Str.contains "ebay.com" (Str.lower url))
  then None
  else first_valid_id id_patterns url.

Record bid_info : Type := BidInfo { bids : Z; bid_text : string }.

Definition invalid_titles : list string :=
  [ "shop on ebay"; "shop on ebayopens in a new window or tab";
    "save this search"; "get an alert with the newest ads";
    "sponsored"; "advertisement"; "" ].

Section Scraper.
Context {tag : Type} `{Soup tag}.

(** the clock reading [datetime.now()] stamps on a record *)
Variable now : Z.

Definition bid_elem_of (item_soup : tag) : result (option tag) :=
  or_find (find item_soup (TagClass "span" "s-item__bidCount"))
 (or_find (find item_soup (TagClassFn "span" (has "bid")))
          (find item_soup (TagString "span"
             (fun x => match x with
                       | Some x => negb (bool_decide (x = ""))
                                   && Str.contains "bid" (Str.lower x)
                       | None => false
                       end)))).

(** Its own [try ... except: pass] returns the dictionary as far as it was
    filled. *)
Definition _parse_bid_info (item_soup : tag) : bid_info :=
  let bid_info := BidInfo 0 "" in
  match bid_elem_of item_soup with
  | Raise _ => bid_info
  | Ok (Some bid_elem) =>
      match get_text bid_elem with
      | Raise _ => bid_info
      | Ok bid_text =>
          let bid_info := BidInfo 0 bid_text in
          match Re.re_search (Re.Pattern "" Str.is_digit 1 "") bid_text with
          | Some g =>
              match py_int g with
              | Ok n => BidInfo n bid_text
              | Raise _ => bid_info
              end
          | None => bid_info
          end
      end
  | Ok None => BidInfo 0 "Buy It Now"
  end.

Definition title_elem_of (item_soup : tag) : result (option tag) :=
  or_find (find item_soup (TagClass "h3" "s-item__title"))
 (or_find (find item_soup (TagClassFn "h3" (has "title")))
          (find item_soup (TagClassFn "a" (has "link")))).

Definition link_elem_of (title_elem item_soup : tag) : result (option tag) :=
  or_find (find title_elem (Tag "a"))
 (or_find (find item_soup (TagClass "a" "s-item__link"))
          (find item_soup (TagHref "a"))).

Definition price_elem_of (item_soup : tag) : result (option tag) :=
  or_find (find item_soup (TagClass "span" "s-item__price"))
 (or_find (find item_soup (TagClassFn "span" (has "price")))
          (find item_soup (TagString "span" (has "$")))).

Definition time_elem_of (item_soup : tag) : result (option tag) :=
  or_find (find item_soup (TagClass "span" "s-item__time-left"))
 (or_find (find item_soup (TagClassFn "span" (has "time")))
          (find item_soup (TagString "span"
             (fun x => match x with
                       | Some x => negb (bool_decide (x = ""))
                                   && (Str.contains "d" x || Str.contains "h" x
                                       || Str.contains "m" x)
                       | None => false
                       end)))).

Definition opt_pyval (o : option string) : pyval :=
  match o with
  | Some s => PStr s
  | None => PNone
  end.

(** the body of the [try] *)
Definition _parse_auction_item_body (item_soup : tag) : result (option Dict) :=
  let* title_elem := title_elem_of item_soup in
  match title_elem with
  | None => Ok None
  | Some title_elem =>
  let* title := get_text title_elem in
  if bool_decide (title = "")
     || existsb (fun invalid => Str.contains invalid (Str.lower title)) invalid_titles
  then Ok None else
  let* link_elem := link_elem_of title_elem item_soup in
  match link_elem with
  | None => Ok None
  | Some link_elem =>
  let* url := get link_elem "href" "" in
  match _extract_ebay_id url with
  | None => Ok None
  | Some ebay_id =>
  if bool_decide (ebay_id = "") then Ok None else
  let* price_elem := price_elem_of item_soup in
  match price_elem with
  | None => Ok None
  | Some price_elem =>
  let* price_text := get_text price_elem in
  match _parse_price price_text with
  | None => Ok None
  | Some current_price =>
  let bid_info := _parse_bid_info item_soup in
  let* time_elem := time_elem_of item_soup in
  let* time_remaining :=
    match time_elem with
    | Some time_elem => get_text time_elem
    | None => Ok "Unknown"
    end in
  let time_remaining :=
    if bool_decide (time_remaining = "Unknown") then "Buy It Now"
    else time_remaining in
  let* shipping_elem := find item_soup (TagClass "span" "s-item__shipping") in
  let* shipping_text :=
    match shipping_elem with
    | Some shipping_elem => get_text shipping_elem
    | None => Ok ""
    end in
  let auction_data : Dict :=
    list_to_map
      [ ("ebay_id", PStr ebay_id);
        ("title", PStr title);
        ("url", PStr url);
        ("current_price", PNum current_price);
        ("bids", PNum (Qc_of_Z (bids bid_info)));
        ("time_remaining", PStr time_remaining);
        ("time_remaining_hours", PNum (_parse_time_remaining time_remaining));
        ("shipping_text", PStr shipping_text);
        ("brand", opt_pyval (_extract_brand title));
        ("scraped_at", PTime now) ] in
  Ok (Some auction_data)
  end end end end end.

Definition _parse_auction_item (item_soup : tag) : option Dict :=
  try_except (_parse_auction_item_body item_soup) (fun _ => None).

(** the loop of [search_auctions] over the fragments of a page:
    [auction_data = self._parse_auction_item(item); if auction_data:
    auctions.append(auction_data)] *)
Fixpoint parse_items (auction_items : list tag) (auctions : list Dict) : list Dict :=
  match auction_items with
  | [] => auctions
  | item :: rest =>
      let auction_data := _parse_auction_item item in
      let auctions :=
        match auction_data with
        | Some d => if bool_decide (d = ∅) then auctions else auctions ++ [d]
        | None => auctions
        end in
      parse_items rest auctions
  end.

End Scraper.

(** A test double for the markup library: a fragment that holds at most a
    title, a link target and a price text, an element, and a fragment on which
    every lookup raises. *)
Inductive mock : Type :=
| MockItem (title href price : option string)
| MockElem (text : string) (href : option string)
| MockBroken.

Definition mock_find (t : mock) (sel : selector) : result (option mock) :=
  match t with
  | MockBroken => Raise (LibraryError "find")
  | MockElem _ _ => Ok None
  | MockItem title href price =>
      match sel with
      | TagClass name class_ =>
          if bool_decide (class_ = "s-item__title")
          then Ok ((fun s => MockElem s None) <$> title)
          else if bool_decide (class_ = "s-item__link")
          then Ok ((fun h => MockElem "" (Some h)) <$> href)
          else if bool_decide (class_ = "s-item__price")
          then Ok ((fun p => MockElem p None) <$> price)
          else Ok None
      | _ => Ok None
      end
  end.

#[global] Instance mock_soup : Soup mock := {|
  find := mock_find;
  get_text t := match t with MockElem s _ => Ok s | _ => Ok "" end;
  get t attr dflt :=
    match t with
    | MockElem _ (Some h) => if bool_decide (attr = "href") then Ok h else Ok dflt
    | _ => Ok dflt
    end
|}.

(** ** Words of the specification *)

(** [b] occurs in [title] when case is ignored *)
Definition occurs_in (b title : string) : Prop :=
  ∃ u v, Str.lower title = u +:+ Str.lower b +:+ v.

(** A decimal numeral and the number it denotes: digits, optionally a point
    and more digits, one digit at least. *)
Inductive decimal_numeral : string → Qc → Prop :=
| numeral_int (ip : string) :
    Str.isdigit ip = true →
    decimal_numeral ip (Qc_of_Z (Str.decimal ip))
| numeral_frac (ip fp : string) :
    Str.all_digits ip = true → Str.all_digits fp = true →
    ip ≠ "" ∨ fp ≠ "" →
    decimal_numeral (ip +:+ "." +:+ fp)
      (Qc_of_Z (Str.decimal ip)
       + Qc_of_Z (Str.decimal fp) / Qc_of_Z (10 ^ Z.of_nat (String.length fp)))%Qc.

(** a number written as a fraction of integers *)
Definition dec (n d : Z) : Qc := (Qc_of_Z n / Qc_of_Z d)%Qc.

(** split on the first decision the goal tests *)
Ltac goal_bool_decide :=
  match goal with
  | |- context [@bool_decide ?P ?d] => destruct (@bool_decide_reflect P d)
  end.

(** decide a closed statement by evaluation *)
Ltac by_decide :=
  match goal with
  | |- ?P => apply (bool_decide_eq_true_1 P); vm_compute; reflexivity
  end.

(** the count in front of a unit letter, zero when the unit is absent *)
Definition unit_count (u time_text : string) : Z :=
  match Re.re_search (unit_pattern u) (Str.lower time_text) with
  | Some g => Str.decimal g
  | None => 0
  end.

(** The record the loop of [filter_interesting_auctions] appends for an
    auction that reads [auction] when its turn comes, if it appends one. *)
Definition survivor (repr : pyval → string) (format_1f : Qc → string)
  (config : Config) (auction : Dict) : option Dict :=
  match evaluate repr format_1f config auction with
  | (r, Ok true) => Some r
  | (_, Ok false) => None
  | (_, Raise _) => None
  end.

(** what one turn of the loop leaves of an auction, kept or not *)
Definition visit (repr : pyval → string) (format_1f : Qc → string)
  (config : Config) (auction : Dict) : Dict :=
  (evaluate repr format_1f config auction).1.

(** the loop keeps the reference [x] of [heap] *)
Definition keeps (repr : pyval → string) (format_1f : Qc → string)
  (config : Config) (heap : gmap nat Dict) (x : nat) : Prop :=
  is_Some (heap !! x ≫= survivor repr format_1f config).

#[global] Instance keeps_dec (repr : pyval → string) (format_1f : Qc → string)
  (config : Config) (heap : gmap nat Dict) (x : nat) :
  Decision (keeps repr format_1f config heap x).
Proof. unfold keeps. apply _. Defined.

(** [heap] after one turn on each auction that [auctions] refers to *)
Definition visit_all (repr : pyval → string) (format_1f : Qc → string)
  (config : Config) (auctions : list nat) (heap : gmap nat Dict)
  : gmap nat Dict :=
  map_imap
    (fun x d => Some (if bool_decide (x ∈ auctions)
                      then visit repr format_1f config d else d))
    heap.

(** descending order of the sort key, for references into [heap] *)
Definition score_ge (heap : gmap nat Dict) (x y : nat) : Prop :=
  (score_key (deref heap y) ≤ score_key (deref heap x))%Qc.

(** [x] and [y] hold the same value under every key outside [W] *)
Definition same_off (W : list string) (x y : Dict) : Prop :=
  ∀ k, k ∉ W → x !! k = y !! k.

(** [m] writes under the keys of [W] only *)
Definition writes {A : Type} (W : list string) (m : stateful A) : Prop :=
  ∀ d, same_off W (m d).1 d.

(** Running [m] on the record it left, or on one that differs from that
    record under keys of [W] only, changes nothing and gives the result of
    the first run. *)
Definition settled {A : Type} (W : list string) (m : stateful A) : Prop :=
  ∀ d x, same_off W x (m d).1 → m x = (x, (m d).2).

(** A record on which every check of [_is_auction_interesting] succeeds
    without changing it, and which carries the reasons and the score computed
    from its own fields. *)
Record checked (repr : pyval → string) (format_1f : Qc → string)
  (config : Config) (r : Dict) : Prop := {
  checked_price : _price_in_range config r = Ok true;
  checked_brand : _is_premium_brand config r = (r, Ok true);
  checked_time : _time_remaining_valid config r = Ok true;
  checked_bids : _has_minimum_activity config r = Ok true;
  checked_keywords : _has_excluded_keywords config r = Ok false;
  checked_discount : _has_good_discount config r = (r, Ok true);
  checked_reasons :
    ∃ rs, _get_filter_reasons repr format_1f config r = Ok rs
          ∧ r !! "filter_reason" = Some (PList rs);
  checked_score :
    ∃ s, _calculate_interest_score r = Ok s
         ∧ r !! "interest_score" = Some (PNum s)
}.

(** the smaller of two numbers *)
Definition Qc_min (x y : Qc) : Qc := if bool_decide (x ≤ y)%Qc then x else y.

(** The alternative value heuristic: a highly desirable brand at a price of
    at most 1500 with 5 bids or more, or a price of at most 800 with the
    minimum number of bids. *)
Definition alternative_value (p : Policy) (c b : Qc) (brand : string) : Prop :=
  ((∃ pb, pb ∈ ["MacBook"; "ThinkPad"; "XPS"; "Surface"]
          ∧ Str.contains pb brand = true)
   ∧ (c ≤ Qc_of_Z 1500)%Qc ∧ (Qc_of_Z 5 ≤ b)%Qc)
  ∨ ((c ≤ Qc_of_Z 800)%Qc ∧ (min_bids p ≤ b)%Qc).

(** The discount check on a record with price [c], [b] bids and brand
    [brand]: a known original price above the price fixes the stored
    discount, which reaches the minimum; otherwise the alternative value
    heuristic holds. An original price is known when it is a number other
    than zero, which is how the code tests it. *)
Definition discount_or_value (p : Policy) (r : Dict) (c b : Qc) (brand : string)
  : Prop :=
  (∀ o, dict_get r "original_price" PNone = PNum o → o ≠ 0%Qc → (c < o)%Qc →
        r !! "discount_percent" = Some (PNum ((o - c) / o * Qc_of_Z 100))
        ∧ (min_discount_percent p ≤ (o - c) / o * Qc_of_Z 100)%Qc)
  ∧ ((¬ ∃ o, dict_get r "original_price" PNone = PNum o ∧ o ≠ 0%Qc ∧ (c < o)%Qc) →
     alternative_value p c b brand).

(** The scoring rule, factor by factor. *)
Definition discount_points (d : Qc) : Qc :=
  if bool_decide (0 < d)%Qc then (d / Qc_of_Z 10)%Qc else 0%Qc.

Definition bid_points (b : Qc) : Qc := Qc_min (b / Qc_of_Z 2) (Qc_of_Z 10).

Definition urgency_points (t : Qc) : Qc :=
  if bool_decide (t ≤ 1)%Qc then Qc_of_Z 5
  else if bool_decide (t ≤ Qc_of_Z 2)%Qc then Qc_of_Z 3
  else if bool_decide (t ≤ Qc_of_Z 3)%Qc then 1%Qc
  else 0%Qc.

Definition brand_points (brand : string) : Qc :=
  if Str.contains "MacBook" brand then Qc_of_Z 3
  else if Str.contains "ThinkPad" brand then Qc_of_Z 2
  else if Str.contains "XPS" brand then Qc_of_Z 2
  else if Str.contains "Surface" brand then Qc_of_Z 2
  else if Str.contains "Alienware" brand then Qc_of_Z 3
  else 0%Qc.

Definition price_points (c : Qc) : Qc :=
  if bool_decide (c ≤ Qc_of_Z 500)%Qc then Qc_of_Z 3
  else if bool_decide (c ≤ Qc_of_Z 800)%Qc then Qc_of_Z 2
  else if bool_decide (c ≤ Qc_of_Z 1200)%Qc then 1%Qc
  else 0%Qc.

(** what the loop of [search_auctions] keeps of one fragment *)
Definition kept {tag : Type} `{Soup tag} (now : Z) (item : tag) : option Dict :=
  match _parse_auction_item now item with
  | Some d => if bool_decide (d = ∅) then None else Some d
  | None => None
  end.

(** No pattern yields an all-digits identifier of eight characters or more
    from a URL that names the marketplace. *)
Definition no_valid_id (url : string) : Prop :=
  Str.contains "ebay.com" (Str.lower url) = false
  ∨ ∀ p g, p ∈ id_patterns → Re.re_search p url = Some g → valid_id g = false.

(** The fragments the specification says yield no record. *)
Inductive unextractable {tag : Type} `{Soup tag} (item : tag) : Prop :=
| no_title :
    title_elem_of item = Ok None → unextractable item
| denied_title (t : tag) (title : string) :
    title_elem_of item = Ok (Some t) → get_text t = Ok title →
    title = ""
    ∨ (∃ phrase,
         phrase ∈ ["shop on ebay"; "save this search"; "sponsored"; "advertisement"]
         ∧ Str.contains phrase (Str.lower title) = true) →
    unextractable item
| no_link (t : tag) :
    title_elem_of item = Ok (Some t) → link_elem_of t item = Ok None →
    unextractable item
| no_identifier (t l : tag) (url : string) :
    title_elem_of item = Ok (Some t) → link_elem_of t item = Ok (Some l) →
    get l "href" "" = Ok url → no_valid_id url →
    unextractable item
| no_price :
    price_elem_of item = Ok None → unextractable item
| unreadable_price (e : tag) (text : string) :
    price_elem_of item = Ok (Some e) → get_text e = Ok text →
    _parse_price text = None →
    unextractable item.

(** The predicate cascade on the record [r] the filter returns for an
    auction that read [a] when the call began: price within bounds; a premium
    brand, which is the brand [a] carried or, when it carried none, one that
    occurs in its title; remaining time in (0, max]; enough bids; no excluded
    keyword in the title; and the discount or value check. *)
Definition passes_cascade (repr : pyval → string) (format_1f : Qc → string)
  (base : Config) (p : Policy) (a r : Dict) : Prop :=
  ∃ c t b title brand,
    survivor repr format_1f (with_policy base p) a = Some r
    ∧ dict_get r "current_price" (PNum 0) = PNum c
    ∧ (min_price p ≤ c ≤ max_price p)%Qc
    ∧ r !! "brand" = Some (PStr brand)
    ∧ brand ∈ premium_brands p
    ∧ (truthy (dict_get a "brand" PNone) = true →
       a !! "brand" = Some (PStr brand))
    ∧ (truthy (dict_get a "brand" PNone) = false → occurs_in brand title)
    ∧ dict_get r "time_remaining_hours" (PNum (Qc_of_Z 999)) = PNum t
    ∧ (0 < t ≤ max_time_remaining_hours p)%Qc
    ∧ dict_get r "bids" (PNum 0) = PNum b
    ∧ (min_bids p ≤ b)%Qc
    ∧ dict_get r "title" (PStr "") = PStr title
    ∧ (∀ kw, kw ∈ exclude_keywords p → ¬ occurs_in kw title)
    ∧ discount_or_value p r c b brand.

(** The score a record carries is the rounded sum of the five factors of its
    own fields. *)
Definition scored_by_rule (r : Dict) : Prop :=
  ∃ d b t brand c,
    dict_get r "discount_percent" (PNum 0) = PNum d
    ∧ dict_get r "bids" (PNum 0) = PNum b
    ∧ dict_get r "time_remaining_hours" (PNum (Qc_of_Z 999)) = PNum t
    ∧ r !! "brand" = Some (PStr brand)
    ∧ dict_get r "current_price" (PNum 0) = PNum c
    ∧ r !! "interest_score"
      = Some (PNum (round2 (discount_points d + bid_points b + urgency_points t
                            + brand_points brand + price_points c)%Qc)).

(** ** Sample data

    The policy of the specification's end-to-end scenario, its two listings,
    a listing with an original price, a record whose price is text, and
    stand-ins for the two renderings. *)

Definition sample_policy : Policy := {|
  min_price := Qc_of_Z 100;
  max_price := Qc_of_Z 1500;
  premium_brands := ["MacBook"];
  max_time_remaining_hours := Qc_of_Z 48;
  min_bids := Qc_of_Z 3;
  exclude_keywords := [];
  min_discount_percent := Qc_of_Z 10
|}.

Definition sample_config : Config :=
  with_policy (Config_default "" "") sample_policy.

(** an integer shown in decimal, anything else as a question mark *)
Definition sample_repr (v : pyval) : string :=
  match v with
  | PNum q => if bool_decide (Qden (this q) = 1%positive)
              then pretty (Qnum (this q)) else "?"
  | _ => "?"
  end.

(** one decimal, for a number that is not negative *)
Definition sample_format_1f (q : Qc) : string :=
  let n := round_half_even (q * Qc_of_Z 10) in
  pretty (Z.div n 10) +:+ "." +:+ pretty (Z.modulo n 10).

Definition sample_macbook : Dict :=
  list_to_map
    [ ("ebay_id", PStr "123456789012");
      ("title", PStr "Apple MacBook Pro 16");
      ("current_price", PNum (Qc_of_Z 450));
      ("bids", PNum (Qc_of_Z 8));
      ("time_remaining_hours", PNum (dec 225 100));
      ("brand", PNone) ].

Definition sample_no_brand : Dict :=
  list_to_map
    [ ("ebay_id", PStr "223456789012");
      ("title", PStr "Gaming laptop");
      ("current_price", PNum (Qc_of_Z 2000));
      ("bids", PNum (Qc_of_Z 1));
      ("time_remaining_hours", PNum (Qc_of_Z 120));
      ("brand", PNone) ].

Definition sample_discounted : Dict :=
  list_to_map
    [ ("ebay_id", PStr "323456789012");
      ("title", PStr "MacBook Air 13");
      ("current_price", PNum (Qc_of_Z 450));
      ("original_price", PNum (Qc_of_Z 900));
      ("bids", PNum (Qc_of_Z 8));
      ("time_remaining_hours", PNum (dec 225 100));
      ("brand", PStr "MacBook") ].

Definition sample_malformed : Dict :=
  list_to_map
    [ ("ebay_id", PStr "423456789012");
      ("title", PStr "MacBook Pro 14");
      ("current_price", PStr "450") ].

(** what the filter makes of [sample_macbook] *)
Definition sample_survivor : Dict :=
  <["interest_score" := PNum (Qc_of_Z 11)]>
    (<["filter_reason" :=
         PList ["Marca premium: MacBook"; "Actividad alta: 8 pujas";
                "Precio muy atractivo"]]>
       (<["brand" := PStr "MacBook"]> sample_macbook)).

(** the four sample auctions, at the addresses 0 to 3 *)
Definition sample_heap : gmap nat Dict :=
  list_to_map
    [ (0%nat, sample_macbook); (1%nat, sample_no_brand);
      (2%nat, sample_discounted); (3%nat, sample_malformed) ].

(** a batch that lists the first auction twice *)
Definition sample_batch : list nat := [0; 1; 2; 3; 0]%nat.

(** three fragments for the test double: boilerplate, an identifier of three
    digits, and a listing with every field *)
Definition sample_boilerplate : mock :=
  MockItem (Some "Shop on eBay") (Some "https://www.ebay.com/itm/123456789012")
    (Some "$450.00").

Definition sample_short_id : mock :=
  MockItem (Some "Apple MacBook Pro 16") (Some "https://www.ebay.com/itm/123")
    (Some "$450.00").

Definition sample_listing : mock :=
  MockItem (Some "Apple MacBook Pro 16") (Some "https://www.ebay.com/itm/123456789012")
    (Some "$450.00").

(** what the filter makes of [sample_discounted] *)
Definition sample_discounted_survivor : Dict :=
  <["interest_score" := PNum (Qc_of_Z 16)]>
    (<["filter_reason" :=
         PList ["Marca premium: MacBook"; "Descuento: 50.0%";
                "Actividad alta: 8 pujas"; "Precio muy atractivo"]]>
       (<["discount_percent" := PNum (Qc_of_Z 50)]> sample_discounted)).

(** ** What the filter may touch *)

(** the keys a turn of the filter loop writes *)
Definition written_keys : list string :=
  [ "brand"; "discount_percent"; "filter_reason"; "interest_score" ].

(** [m] leaves a brand that is set as it is *)
Definition keeps_brand {A : Type} (m : stateful A) : Prop :=
  ∀ d, truthy (dict_get d "brand" PNone) = true → (m d).1 !! "brand" = d !! "brand".

(** What the call did to one auction: nothing outside the written keys, and
    nothing to a brand that was set. *)
Definition touched_only (a' a : Dict) : Prop :=
  same_off written_keys a' a
  ∧ (truthy (dict_get a "brand" PNone) = true → a' !! "brand" = a !! "brand").

(** a result that is a value, an [AttributeError] or a [TypeError] *)
Definition mild {A : Type} (r : result A) : Prop :=
  match r with
  | Ok _ => True
  | Raise e => e = TypeError ∨ ∃ name, e = AttributeError name
  end.

(** the facts about the leaves of a check: field reads and comparisons *)
Create HintDb mild discriminated.

(** Walk down a chain of binds and conditionals with the rule for a bind,
    closing each leaf from the hint database. *)
Ltac mild_step bind_rule :=
  repeat first
    [ solve [auto with mild nocore]
    | apply bind_rule; [|intros ?]
    | match goal with
      | |- mild (if ?b then _ else _) => destruct b
      | |- mild (Ok _) => exact I
      end ].

(** A record with the fields of a listing, each of the type the extractor
    gives it; the original price and the stored discount, which the
    extractor does not set, are numbers where they are present. *)
Definition listing_shaped (a : Dict) : Prop :=
  (∃ s, dict_get a "title" (PStr "") = PStr s)
  ∧ (∃ c, dict_get a "current_price" (PNum 0) = PNum c)
  ∧ (∃ b, dict_get a "bids" (PNum 0) = PNum b)
  ∧ (∃ t, dict_get a "time_remaining_hours" (PNum (Qc_of_Z 999)) = PNum t)
  ∧ (dict_get a "brand" PNone = PNone ∨ ∃ s, dict_get a "brand" PNone = PStr s)
  ∧ (dict_get a "original_price" PNone = PNone
     ∨ ∃ o, dict_get a "original_price" PNone = PNum o)
  ∧ (a !! "discount_percent" = None ∨ ∃ d, a !! "discount_percent" = Some (PNum d)).

(** a listing whose brand is text *)
Definition branded (a : Dict) : Prop :=
  listing_shaped a ∧ ∃ s, dict_get a "brand" PNone = PStr s.

(** From an auction that satisfies [P] the step [m] returns a value [v] and
    leaves an auction [d'] with [Q v d']. *)
Definition returns {A : Type} (P : Dict → Prop) (Q : A → Dict → Prop)
  (m : stateful A) : Prop :=
  ∀ d, P d → ∃ v, (m d).2 = Ok v ∧ Q v (m d).1.

(** ** filters.py : get_filter_stats

    The statistics come back as a [dict] with six fixed keys, two of them
    dicts themselves: [top_brands], whose keys are the brands met, in the
    order in which they were first met, and [price_distribution] with its
    four counters. *)

Record PriceDistribution : Type := {
  under_500 : Z;
  _500_1000 : Z;
  _1000_1500 : Z;
  over_1500 : Z
}.

Record Stats : Type := {
  total_auctions : Z;
  filtered_auctions : Z;
  filter_rate : Qc;
  avg_interest_score : Qc;
  top_brands : list (pyval * Z);
  price_distribution : PriceDistribution
}.

(** [sum(l)] : [0 + l[0] + l[1] + ...] *)
Fixpoint py_sum (acc : Qc) (l : list pyval) : result Qc :=
  match l with
  | [] => Ok acc
  | v :: l' => let* x := as_num v in py_sum (acc + x)%Qc l'
  end.

(** a value used as a key of a [dict]: a list cannot be one *)
Definition py_hash (v : pyval) : result unit :=
  match v with
  | PList _ => Raise TypeError
  | _ => Ok tt
  end.

(** [d[k] = d.get(k, 0) + 1] on a dict held in insertion order *)
Fixpoint dict_incr (k : pyval) (d : list (pyval * Z)) : list (pyval * Z) :=
  match d with
  | [] => [(k, 1)]
  | (k', n) :: d' =>
      if bool_decide (k' = k) then (k', n + 1) :: d'
      else (k', n) :: dict_incr k d'
  end.

Fixpoint brand_loop (auctions : list Dict) (top_brands : list (pyval * Z))
  : result (list (pyval * Z)) :=
  match auctions with
  | [] => Ok top_brands
  | auction :: rest =>
      let brand := dict_get auction "brand" (PStr "Unknown") in
      let* _ := py_hash brand in
      brand_loop rest (dict_incr brand top_brands)
  end.

Fixpoint price_loop (auctions : list Dict) (pd : PriceDistribution)
  : result PriceDistribution :=
  match auctions with
  | [] => Ok pd
  | auction :: rest =>
      let price := dict_get auction "current_price" (PNum 0) in
      let* price := as_num price in
      let pd :=
        if bool_decide (price < Qc_of_Z 500)%Qc then
          {| under_500 := under_500 pd + 1; _500_1000 := _500_1000 pd;
             _1000_1500 := _1000_1500 pd; over_1500 := over_1500 pd |}
        else if bool_decide (price < Qc_of_Z 1000)%Qc then
          {| under_500 := under_500 pd; _500_1000 := _500_1000 pd + 1;
             _1000_1500 := _1000_1500 pd; over_1500 := over_1500 pd |}
        else if bool_decide (price < Qc_of_Z 1500)%Qc then
          {| under_500 := under_500 pd; _500_1000 := _500_1000 pd;
             _1000_1500 := _1000_1500 pd + 1; over_1500 := over_1500 pd |}
        else
          {| under_500 := under_500 pd; _500_1000 := _500_1000 pd;
             _1000_1500 := _1000_1500 pd; over_1500 := over_1500 pd + 1 |} in
      price_loop rest pd
  end.

(** The method has no handler of its own: what a field of the wrong type
    raises reaches the caller. *)
Definition get_filter_stats (all_auctions filtered_auctions : list Dict)
  : result Stats :=
  let total := Z.of_nat (length all_auctions) in
  let filtered := Z.of_nat (length filtered_auctions) in
  let rate :=
    if bool_decide (0 < total)
    then round2 (Qc_of_Z filtered / Qc_of_Z total * Qc_of_Z 100)
    else 0%Qc in
  let no_brands : list (pyval * Z) := [] in
  let no_prices :=
    {| under_500 := 0; _500_1000 := 0; _1000_1500 := 0; over_1500 := 0 |} in
  if bool_decide (filtered_auctions = []) then
    Ok {| total_auctions := total; filtered_auctions := filtered;
          filter_rate := rate; avg_interest_score := 0%Qc;
          top_brands := no_brands; price_distribution := no_prices |}
  else
    let scores :=
      map (fun a => dict_get a "interest_score" (PNum 0)) filtered_auctions in
    let* total_score := py_sum 0 scores in
    let avg := round2 (total_score / Qc_of_Z (Z.of_nat (length scores))) in
    let* brands := brand_loop filtered_auctions no_brands in
    let* prices := price_loop filtered_auctions no_prices in
    Ok {| total_auctions := total; filtered_auctions := filtered;
          filter_rate := rate; avg_interest_score := avg;
          top_brands := brands; price_distribution := prices |}.

(** a record whose score and price are numbers, or absent, and whose brand
    can be the key of a dict *)
Definition countable_record (a : Dict) : Prop :=
  (∃ s, dict_get a "interest_score" (PNum 0) = PNum s)
  ∧ (∀ l, dict_get a "brand" (PStr "Unknown") ≠ PList l)
  ∧ (∃ c, dict_get a "current_price" (PNum 0) = PNum c).

(** the counters of a dict of counts, added up *)
Definition count_total (d : list (pyval * Z)) : Z :=
  foldr (fun kn acc => kn.2 + acc) 0 d.

Definition bucket_total (pd : PriceDistribution) : Z :=
  under_500 pd + _500_1000 pd + _1000_1500 pd + over_1500 pd.

(** ** scraper.py : the pages

    The HTTP session and the markup library as [search_auctions] and
    [get_auction_details] use them on a whole page. [fetch] stands for
    [session.get(url, timeout=...)], [raise_for_status()] and the parse of
    the response into a page; each operation may raise. The file of the page
    that [search_auctions] writes for inspection, inside a handler of its own,
    is no part of any value and is left out like the log. *)

Inductive selector_all : Type :=
| AllClass (name class_ : string)                       (* find_all(name, class_=...) *)
| AllClassFn (name : string) (f : option string → bool). (* find_all(name, {'class': f}) *)

Class Web (page tag : Type) : Type := {
  (** [urllib.parse.urlencode(params)] *)
  urlencode : list (string * string) → string;
  fetch : string → Z → result page;
  find_all : page → selector_all → result (list tag);
  (** [soup.select(css)] *)
  select : page → string → result (list tag);
  (** [soup.find(name, {'id': id})] *)
  find_id : page → string → string → result (option tag);
  (** [soup.find(name, class_=...)] *)
  find_class : page → string → string → result (option tag)
}.

(** [time.sleep(seconds)] returns nothing and refuses a negative length *)
Definition py_sleep (seconds : Qc) : result unit :=
  if bool_decide (seconds < 0)%Qc then Raise ValueError else Ok tt.

Section Pages.
Context {page tag : Type} `{Soup tag} `{Web page tag}.
Variable now : Z.

(** The fragments of a result page: the first selector, and while fewer than
    five fragments are in hand the next selector, whose result is taken when
    it is longer. *)
Definition choose_items (soup : page) : result (list tag) :=
  let* auction_items := find_all soup (AllClass "div" "s-item__wrapper clearfix") in
  let* auction_items :=
    (if (length auction_items <? 5)%nat then
       let* auction_items2 := find_all soup (AllClass "div" "s-item") in
       if (length auction_items <? length auction_items2)%nat
       then Ok auction_items2 else Ok auction_items
     else Ok auction_items) in
  let* auction_items :=
    (if (length auction_items <? 5)%nat then
       let* auction_items3 := find_all soup (AllClassFn "div" (has "s-item")) in
       if (length auction_items <? length auction_items3)%nat
       then Ok auction_items3 else Ok auction_items
     else Ok auction_items) in
  Ok auction_items.

(** the URL [search_auctions] requests *)
Definition search_url (config : Config) (search_query : option string) : string :=
  let query :=
    match search_query with
    | Some q => if bool_decide (q = "") then SEARCH_QUERY config else q
    | None => SEARCH_QUERY config
    end in
  let params :=
    [ ("_nkw", query); ("_sacat", CATEGORY_ID config); ("_pgn", "1") ] in
  EBAY_SEARCH_URL config +:+ "?" +:+ urlencode params.

(** The body of the [try], as far as it decides the list returned: the
    pause after the loop can raise, on a negative delay, but the handler
    returns the same list. *)
Definition search_auctions_body (config : Config) (search_query : option string)
  : result (list Dict) :=
  let auctions : list Dict := [] in
  let url := search_url config search_query in
  let* soup := fetch url (REQUEST_TIMEOUT config) in
  let* auction_items := choose_items soup in
  Ok (parse_items now auction_items auctions).

(** Both handlers log and fall through to [return auctions]; an exception
    can only come before the loop, when the list is still empty. *)
Definition search_auctions (config : Config) (search_query : option string)
  : list Dict :=
  try_except (search_auctions_body config search_query) (fun _ => []).

Definition price_selectors : list string :=
  [ ".u-flL.condText span"; ".notranslate"; ".vi-price .notranslate";
    ".u-flL span" ].

(** [for elem in elements: ...], left by [return price] *)
Fixpoint scan_elements (elements : list tag) : result (option Qc) :=
  match elements with
  | [] => Ok None
  | elem :: rest =>
      let* text := get_text elem in
      if Str.contains "$" text && Str.contains "was" (Str.lower text) then
        match _parse_price text with
        | Some price =>
            if negb (bool_decide (price = 0%Qc)) && bool_decide (0 < price)%Qc
            then Ok (Some price)
            else scan_elements rest
        | None => scan_elements rest
        end
      else scan_elements rest
  end.

(** [for selector in selectors: ...] *)
Fixpoint scan_selectors (soup : page) (selectors : list string)
  : result (option Qc) :=
  match selectors with
  | [] => Ok None
  | selector :: rest =>
      let* elements := select soup selector in
      let* found := scan_elements elements in
      match found with
      | Some price => Ok (Some price)
      | None => scan_selectors soup rest
      end
  end.

Definition _find_original_price (soup : page) : option Qc :=
  try_except (scan_selectors soup price_selectors) (fun _ => None).

Definition _find_condition (soup : page) : string :=
  try_except
    (let* condition_elem := find_id soup "div" "u_vi_condition" in
     match condition_elem with
     | Some condition_elem => get_text condition_elem
     | None => Ok "Unknown"
     end)
    (fun _ => "Unknown").

Definition _find_location (soup : page) : string :=
  try_except
    (let* location_elem := find_class soup "span" "vi-acc-del-range" in
     match location_elem with
     | Some location_elem => get_text location_elem
     | None => Ok "Unknown"
     end)
    (fun _ => "Unknown").

Definition opt_num (o : option Qc) : pyval :=
  match o with
  | Some q => PNum q
  | None => PNone
  end.

(** The handler returns the empty dict, also when it is the pause after the
    page was read that raised. *)
Definition get_auction_details (config : Config) (url : string) : Dict :=
  try_except
    (let* soup := fetch url (REQUEST_TIMEOUT config) in
     let original_price := _find_original_price soup in
     let details : Dict :=
       list_to_map
         [ ("original_price", opt_num original_price);
           ("condition", PStr (_find_condition soup));
           ("location", PStr (_find_location soup)) ] in
     let* _ := py_sleep (REQUEST_DELAY config) in
     Ok details)
    (fun _ => ∅).

End Pages.

(** A test double for a page: the fragments each of the three selectors of
    [search_auctions] finds, and the elements every CSS selector of a detail
    page finds; a URL that holds "down" cannot be fetched. *)
Record mock_page : Type := MockPage {
  page_wrappers : list mock;
  page_items : list mock;
  page_any : list mock;
  page_selected : list mock
}.

Definition sample_page : mock_page := {|
  page_wrappers := [MockItem (Some "Lenovo ThinkPad T480") None None];
  page_items := [MockItem (Some "Lenovo ThinkPad T480") None None;
            MockItem (Some "Dell XPS 13") None None];
  page_any := [MockItem (Some "Lenovo ThinkPad T480") None None;
                MockItem (Some "Dell XPS 13") None None];
  page_selected := [MockElem "Price: $10.00" None; MockElem "Was $1,299.00" None]
|}.

#[global] Instance mock_web : Web mock_page mock := {|
  urlencode params :=
    foldr (fun kv acc => kv.1 +:+ "=" +:+ kv.2 +:+ "&" +:+ acc) "" params;
  fetch url timeout :=
    if Str.contains "down" url then Raise (LibraryError "get")
    else Ok sample_page;
  find_all soup sel :=
    match sel with
    | AllClass _ class_ =>
        if bool_decide (class_ = "s-item") then Ok (page_items soup)
        else Ok (page_wrappers soup)
    | AllClassFn _ _ => Ok (page_any soup)
    end;
  select soup css := Ok (page_selected soup);
  find_id soup name id := Ok None;
  find_class soup name class_ := Ok None
|}.

(** ** main.py : what a search shows

    [handle_search_query] shows the ten auctions that end first:
    [sorted(auctions, key=lambda x: x.get('time_remaining_hours', 999))[:10]].
    [sorted] is stable and compares keys with [<] only. The model inserts
    from the right; the library's merge sort makes other comparisons, but on
    keys that can all be compared every stable sort returns the same list,
    and on keys that cannot, both raise [TypeError]. *)

Definition list_ltb (a b : list string) : bool := negb (list_leb b a).

(** [x < y] between two values of a record *)
Definition py_lt (x y : pyval) : result bool :=
  match x, y with
  | PNum a, PNum b => Ok (bool_decide (a < b)%Qc)
  | PStr a, PStr b => Ok (String.ltb a b)
  | PList a, PList b => Ok (list_ltb a b)
  | PTime a, PTime b => Ok (a <? b)%Z
  | _, _ => Raise TypeError
  end.

Section Sorted.
Context {A : Type} (key : A → pyval).

Fixpoint insert_asc (x : A) (l : list A) : result (list A) :=
  match l with
  | [] => Ok [x]
  | y :: l' =>
      let* before := py_lt (key y) (key x) in
      if before then let* l'' := insert_asc x l' in Ok (y :: l'')
      else Ok (x :: y :: l')
  end.

Fixpoint sorted (l : list A) : result (list A) :=
  match l with
  | [] => Ok []
  | x :: l' => let* s := sorted l' in insert_asc x s
  end.
End Sorted.

Definition time_key (x : Dict) : pyval :=
  dict_get x "time_remaining_hours" (PNum (Qc_of_Z 999)).

Definition top_10 (auctions : list Dict) : result (list Dict) :=
  let* auctions_sorted := sorted time_key auctions in
  Ok (take 10 auctions_sorted).

(** the hours a record gives as its sort key *)
Definition hours_left (x : Dict) : Qc :=
  match time_key x with
  | PNum q => q
  | _ => 0%Qc
  end.

(** a record whose sort key is a number *)
Definition timed (x : Dict) : Prop := ∃ q, time_key x = PNum q.

(** ** main.py : the search conversation

    The chat library is taken as an interface: sending a reply and editing a
    message that was sent, each on the state of the chat and each able to
    raise. A handler is a function of that state. [strip] stands for
    [str.strip()], [format_2f] for the [:,.2f] format of a number. *)

Inductive next_state : Type :=
| WAITING_SEARCH
| END.

Class Chat (St msg : Type) : Type := {
  (** [await update.message.reply_text(text, parse_mode=...,
      disable_web_page_preview=...)] *)
  reply_text : string → option string → bool → St → St * result msg;
  (** [await message.edit_text(text)] *)
  edit_text : msg → string → St → St * result unit
}.

Definition chat (St A : Type) : Type := St → St * result A.

Definition cret {St A : Type} (a : A) : chat St A := fun s => (s, Ok a).

Definition cbind {St A B : Type} (m : chat St A) (k : A → chat St B) : chat St B :=
  fun s =>
    match m s with
    | (s', Ok a) => k a s'
    | (s', Raise e) => (s', Raise e)
    end.

Notation "'io*' x ':=' m 'in' k" := (cbind m (fun x => k))
  (at level 10, x name, m at level 100, k at level 200).

(** a step that does not touch the chat *)
Definition clift {St A : Type} (r : result A) : chat St A := fun s => (s, r).

(** [try: m except Exception as e: h e] *)
Definition ctry {St A : Type} (m : chat St A) (h : exn → chat St A) : chat St A :=
  fun s =>
    match m s with
    | (s', Ok a) => (s', Ok a)
    | (s', Raise e) => h e s'
    end.

(** the line break of a Python literal *)
Definition nl : string := String "010" "".

(** [len(v)] *)
Definition py_len (v : pyval) : result nat :=
  match v with
  | PStr s => Ok (String.length s)
  | PList l => Ok (length l)
  | _ => Raise TypeError
  end.

(** [v[:60] + "..."], reached with a value that has a length *)
Definition cut_title (v : pyval) : result pyval :=
  match v with
  | PStr s => Ok (PStr (String.substring 0 60 s +:+ "..."))
  | _ => Raise TypeError
  end.

Section Bot.
Context {St msg page tag : Type} `{Chat St msg} `{Soup tag} `{Web page tag}.
Variable now : Z.
Variable strip : string → string.
Variable repr : pyval → string.
Variable format_2f : Qc → string.

(** [f"{v:,.2f}"] : a number is formatted; text knows no format code [f];
    a [datetime] takes the specification for a [strftime] pattern, which here
    has no directive; [None] and a list take no specification. *)
Definition format_money (v : pyval) : result string :=
  match v with
  | PNum q => Ok (format_2f q)
  | PStr _ => Raise ValueError
  | PTime _ => Ok ",.2f"
  | PNone => Raise TypeError
  | PList _ => Raise TypeError
  end.

Definition format_auction_message (auction : Dict) (position : nat)
  : result string :=
  let title := dict_get auction "title" (PStr "Sin título") in
  let* n := py_len title in
  let* title := (if (60 <? n)%nat then cut_title title else Ok title) in
  let current_price := dict_get auction "current_price" (PNum 0) in
  let bids := dict_get auction "bids" (PNum 0) in
  let time_remaining := dict_get auction "time_remaining" (PStr "N/A") in
  let url := dict_get auction "url" (PStr "") in
  let* price_text := format_money current_price in
  let message :=
    "*" +:+ pretty position +:+ ". " +:+ str_of repr title +:+ "*" +:+ nl +:+ nl +:+ "💰 *Precio actual:* $" +:+ price_text +:+ nl +:+ "🔨 *Pujas:* " +:+ str_of repr bids +:+ nl +:+ "⏰ *Termina en:* " +:+ str_of repr time_remaining +:+ nl in
  let brand := dict_get auction "brand" PNone in
  let message :=
    if truthy brand then message +:+ "🏢 *Marca:* " +:+ str_of repr brand +:+ nl
    else message in
  let message :=
    if truthy url then message +:+ nl +:+ "🔗 [Ver en eBay](" +:+ str_of repr url +:+ ")"
    else message in
  Ok message.

(** [for i, auction in enumerate(top_10, 1): ...] *)
Fixpoint send_auctions (shown : list Dict) (i : nat) : chat St unit :=
  match shown with
  | [] => cret tt
  | auction :: rest =>
      io* message := clift (format_auction_message auction i) in
      io* _ := reply_text message (Some "Markdown") true in
      send_auctions rest (S i)
  end.

Definition ask_text : string := "❌ Por favor escribe algo para buscar".

Definition searching_text (query : string) : string :=
  "🔍 Buscando '" +:+ query +:+ "' en eBay..." +:+ nl +:+ "⏳ Esto puede tomar unos segundos...".

Definition not_found_text (query : string) : string :=
  "😔 No encontré subastas activas para '" +:+ query +:+ "'" +:+ nl +:+ nl +:+ "💡 *Intentá con:*" +:+ nl +:+ "• Términos más generales" +:+ nl +:+ "• Menos palabras" +:+ nl +:+ "• Diferentes marcas" +:+ nl +:+ nl +:+ "Usá /buscar para intentar de nuevo".

Definition error_text (query : string) : string :=
  "❌ Error buscando '" +:+ query +:+ "'" +:+ nl +:+ nl +:+ "Puede ser que eBay esté bloqueando las consultas." +:+ nl +:+ "Intentá de nuevo en unos minutos." +:+ nl +:+ nl +:+ "Usá /buscar para reintentar".

Definition handle_search_query (config : Config) (text : string)
  : chat St next_state :=
  let query := strip text in
  if bool_decide (query = "") then
    io* _ := reply_text ask_text None false in
    cret WAITING_SEARCH
  else
    io* search_msg := reply_text (searching_text query) None false in
    io* _ :=
      ctry
        (let auctions := search_auctions now config (Some query) in
         if bool_decide (auctions = []) then
           io* _ := edit_text search_msg (not_found_text query) in
           cret tt
         else
           io* shown := clift (top_10 auctions) in
           io* _ := edit_text search_msg
                      ("✅ Encontré " +:+ pretty (length auctions) +:+ " subastas para '" +:+ query +:+ "'") in
           io* _ := send_auctions shown 1 in
           io* _ := reply_text
                      ("🎯 *Mostrando las " +:+ pretty (length shown) +:+ " subastas que terminan más pronto*" +:+ nl +:+ nl +:+ "Usá /buscar para hacer otra búsqueda")
                      None false in
           cret tt)
        (fun e =>
           io* _ := edit_text search_msg (error_text query) in
           cret tt) in
    cret END.

(** what is left of the handler when the search finds nothing *)
Definition report_nothing (text : string) : chat St next_state :=
  let query := strip text in
  if bool_decide (query = "") then
    io* _ := reply_text ask_text None false in
    cret WAITING_SEARCH
  else
    io* search_msg := reply_text (searching_text query) None false in
    io* _ :=
      ctry
        (io* _ := edit_text search_msg (not_found_text query) in cret tt)
        (fun e =>
           io* _ := edit_text search_msg (error_text query) in
           cret tt) in
    cret END.

End Bot.

#[global] Instance PriceDistribution_eq_dec : EqDecision PriceDistribution.
Proof. solve_decision. Defined.

#[global] Instance Stats_eq_dec : EqDecision Stats.
Proof. solve_decision. Defined.

(** ** More sample data *)

(** the statistics of the sample batch: four auctions, of which the two
    MacBooks under 500 are kept with the scores 16 and 11 *)
Definition sample_stats : Stats := {|
  total_auctions := 4;
  filtered_auctions := 2;
  filter_rate := Qc_of_Z 50;
  avg_interest_score := dec 135 10;
  top_brands := [(PStr "MacBook", 2)];
  price_distribution :=
    {| under_500 := 2; _500_1000 := 0; _1000_1500 := 0; over_1500 := 0 |}
|}.

(** a listing without a time element, as the extractor would fill it in *)
Definition sample_untimed : Dict :=
  <["time_remaining" := PStr "Buy It Now"]>
    (<["time_remaining_hours" := PNum (_parse_time_remaining "Buy It Now")]>
       sample_macbook).

(** [sample_macbook] with the brand the extractor reads off its title *)
Definition sample_extracted : Dict :=
  <["brand" := opt_pyval (_extract_brand "Apple MacBook Pro 16")]> sample_macbook.

(** the sample policy with an empty keyword among the excluded ones *)
Definition sample_policy_empty_keyword : Policy := {|
  min_price := Qc_of_Z 100;
  max_price := Qc_of_Z 1500;
  premium_brands := ["MacBook"];
  max_time_remaining_hours := Qc_of_Z 48;
  min_bids := Qc_of_Z 3;
  exclude_keywords := ["broken"; ""];
  min_discount_percent := Qc_of_Z 10
|}.

(** * Properties *)

(** ** Results *)

Lemma bind_Ok {A B} (m : result A) (k : A → result B) b :
  bind m k = Ok b ↔ ∃ a, m = Ok a ∧ k a = Ok b.
Proof.
  destruct m as [a|e]; simpl.
  - split; [eauto | intros (a' & [= <-] & H); exact H].
  - split; [discriminate | intros (a' & [=] & _)].
Qed.

Lemma bind_ok {A B : Type} (a : A) (k : A → result B) : bind (Ok a) k = k a.
Proof. reflexivity. Qed.

Lemma bind_raise {A B : Type} (e : exn) (k : A → result B) :
  bind (Raise e) k = Raise e.
Proof. reflexivity. Qed.

(** ** Strings and patterns *)

Lemma prefix_app (s t : string) :
  String.prefix s t = true ↔ ∃ v, t = s +:+ v.
Proof.
  revert t. induction s as [|a s IH]; intros t.
  - split; [intros _; by exists t | by destruct t].
  - destruct t as [|b t]; simpl.
    + split; [done | intros [v Hv]; discriminate].
    + destruct (Ascii.ascii_dec a b) as [->|Hne].
      * rewrite IH. split; intros [v Hv]; exists v; [by rewrite Hv | by injection Hv].
      * split; [done | intros [v Hv]; injection Hv; congruence].
Qed.

Lemma contains_app (s t : string) :
  Str.contains s t = true ↔ ∃ u v, t = u +:+ s +:+ v.
Proof.
  induction t as [|c t IH].
  - unfold Str.contains. rewrite orb_false_r, prefix_app. split.
    + intros [v Hv]. by exists "", v.
    + intros (u & v & Huv). destruct u; [by exists v | done].
  - change (Str.contains s (String c t)) with (String.prefix s (String c t) || Str.contains s t).
    rewrite orb_true_iff, prefix_app, IH. split.
    + intros [[v Hv]|(u & v & Huv)].
      * by exists "", v.
      * exists (String c u), v. simpl. by rewrite Huv.
    + intros (u & v & Huv). destruct u as [|c' u]; simpl in Huv.
      * left. by exists v.
      * right. exists u, v. by injection Huv.
Qed.

Lemma contains_empty (t : string) : Str.contains "" t = true.
Proof. destruct t; reflexivity. Qed.

Lemma first_occurring_spec (title_lower : string) (bs : list string) :
  match first_occurring title_lower bs with
  | Some b =>
      ∃ before after, bs = before ++ b :: after
        ∧ Str.contains (Str.lower b) title_lower = true
        ∧ ∀ b', b' ∈ before → Str.contains (Str.lower b') title_lower = false
  | None => ∀ b, b ∈ bs → Str.contains (Str.lower b) title_lower = false
  end.
Proof.
  induction bs as [|b bs IH]; simpl.
  - intros b Hb. by apply elem_of_nil in Hb.
  - destruct (Str.contains (Str.lower b) title_lower) eqn:Hb.
    + exists [], bs. split; [done|]. split; [done|].
      intros b' Hb'. by apply elem_of_nil in Hb'.
    + destruct (first_occurring title_lower bs) as [b0|].
      * destruct IH as (before & after & -> & Hocc & Hnot).
        exists (b :: before), after. split; [done|]. split; [done|].
        intros b' [->|Hb']%elem_of_cons; auto.
      * intros b' [->|Hb']%elem_of_cons; auto.
Qed.

Lemma first_occurring_elem (title_lower : string) (bs : list string) (b : string) :
  first_occurring title_lower bs = Some b →
  b ∈ bs ∧ Str.contains (Str.lower b) title_lower = true.
Proof.
  intros Hf. pose proof (first_occurring_spec title_lower bs) as Hs.
  rewrite Hf in Hs. destruct Hs as (before & after & -> & Hocc & _).
  split; [|done]. apply elem_of_app. right. apply elem_of_cons. by left.
Qed.

(** ** BrandDetector *)

Lemma isdigit_all_digits (s : string) :
  Str.isdigit s = true ↔ s ≠ "" ∧ Str.all_digits s = true.
Proof. destruct s; simpl; split; try done; by intros [? ?]. Qed.

Lemma str_app_cons (c : ascii) (a b : string) : String c a +:+ b = String c (a +:+ b).
Proof. reflexivity. Qed.

Lemma str_app_nil_l (b : string) : "" +:+ b = b.
Proof. reflexivity. Qed.

Lemma take_while_drop (p : ascii → bool) (s : string) :
  s = Str.take_while p s +:+ Str.drop (String.length (Str.take_while p s)) s.
Proof.
  induction s as [|c s IH]; simpl; [done|].
  destruct (p c); simpl; [rewrite str_app_cons; by f_equal | done].
Qed.

Lemma take_while_all_digits (s : string) :
  Str.all_digits (Str.take_while Str.is_digit s) = true.
Proof.
  induction s as [|c s IH]; simpl; [done|].
  destruct (Str.is_digit c) eqn:Hc; simpl; [by rewrite Hc | done].
Qed.

Lemma take_while_digits_app (ip rest : string) :
  Str.all_digits ip = true →
  match rest with "" => True | String c _ => Str.is_digit c = false end →
  Str.take_while Str.is_digit (ip +:+ rest) = ip
  ∧ Str.drop (String.length ip) (ip +:+ rest) = rest.
Proof.
  intros Hip Hrest. induction ip as [|c ip IH].
  - rewrite str_app_nil_l. split; [|done].
    destruct rest as [|c r]; simpl; [done | by rewrite Hrest].
  - simpl in Hip. apply andb_true_iff in Hip as [Hc Hip].
    rewrite str_app_cons. simpl. rewrite Hc.
    destruct (IH Hip) as [-> ->]. done.
Qed.

Lemma str_app_empty_r (s : string) : s +:+ "" = s.
Proof. induction s as [|c s IH]; [done|]. rewrite str_app_cons. by f_equal. Qed.

Lemma py_float_numeral (s : string) (q : Qc) :
  py_float s = Ok q ↔ decimal_numeral s q.
Proof.
  unfold py_float. split.
  - intros Hf. pose proof (take_while_drop Str.is_digit s) as Hs.
    pose proof (take_while_all_digits s) as Hip.
    destruct (Str.drop _ s) as [|c fp] eqn:Hrest.
    + rewrite str_app_empty_r in Hs. case_bool_decide as Hne; [done|].
      injection Hf as <-. rewrite Hs at 1. apply numeral_int.
      by apply isdigit_all_digits.
    + destruct (Ascii.ascii_dec c ".") as [->|Hc].
      * destruct (Str.all_digits fp) eqn:Hfp; simpl in Hf; [|done].
        destruct (negb _) eqn:Hboth; [|done].
        injection Hf as <-. rewrite Hs at 1. apply numeral_frac; [done..|].
        apply negb_true_iff, andb_false_iff in Hboth as [Hb|Hb];
          apply bool_decide_eq_false in Hb; auto.
      * destruct c as [[] [] [] [] [] [] [] []]; try done.
  - intros Hn. destruct Hn as [ip Hip|ip fp Hip Hfp Hne].
    + apply isdigit_all_digits in Hip as [Hne Hip].
      destruct (take_while_digits_app ip "" Hip I) as [Ht Hd].
      rewrite str_app_empty_r in Ht, Hd. rewrite Ht, Hd.
      by rewrite bool_decide_eq_false_2.
    + destruct (take_while_digits_app ip ("." +:+ fp) Hip eq_refl) as [Ht Hd].
      rewrite Ht, Hd. change ("." +:+ fp) with (String "." fp).
      cbv beta iota. rewrite Hfp. simpl.
      destruct Hne as [Hne|Hne].
      * by rewrite (bool_decide_eq_false_2 (ip = "")).
      * rewrite (bool_decide_eq_false_2 (fp = "")) by done.
        by rewrite andb_false_r.
Qed.

Lemma keep_keep (p q : ascii → bool) (s : string) :
  Str.keep q (Str.keep p s) = Str.keep (fun c => p c && q c) s.
Proof.
  induction s as [|c s IH]; simpl; [done|].
  destruct (p c); simpl; [|done]. destruct (q c); simpl; by rewrite IH.
Qed.

Lemma keep_ext (p q : ascii → bool) (s : string) :
  (∀ c, p c = q c) → Str.keep p s = Str.keep q s.
Proof. intros E. induction s as [|c s IH]; simpl; [done|]. by rewrite E, IH. Qed.

(** ** PriceParser *)


(** ** DurationParser *)

Lemma re_group_digits (n : nat) (suf s g : string) :
  Re.re_group Str.is_digit n suf s = Some g →
  Str.all_digits g = true ∧ (n ≤ String.length g)%nat.
Proof.
  revert n g. induction s as [|c s IH]; intros n g; simpl.
  - unfold Re.stop. destruct n; [|discriminate].
    destruct (String.prefix suf ""); [|discriminate]. intros [= <-]. by split.
  - assert (Hstop : Re.stop n suf (String c s) = Some g →
                    Str.all_digits g = true ∧ (n ≤ String.length g)%nat).
    { unfold Re.stop. destruct n; [|discriminate].
      destruct (String.prefix suf (String c s)); [|discriminate]. intros [= <-]. by split. }
    destruct (Str.is_digit c) eqn:Hc; [|exact Hstop].
    destruct (Re.re_group Str.is_digit (Nat.pred n) suf s) as [g'|] eqn:Hg; [|exact Hstop].
    intros [= <-]. destruct (IH _ _ Hg) as [Hall Hlen]. simpl. rewrite Hc, Hall.
    split; [done | lia].
Qed.

Lemma unit_search_isdigit (u s g : string) :
  Re.re_search (unit_pattern u) s = Some g → Str.isdigit g = true.
Proof.
  induction s as [|c s IH]; simpl.
  - unfold Re.match_here. simpl. destruct (Re.stop 1 u "") eqn:Hs; [|done].
    unfold Re.stop in Hs. done.
  - unfold Re.match_here at 1. simpl Re.strip_prefix. cbv beta iota.
    destruct (Re.re_group _ _ _ (String c s)) as [g'|] eqn:Hg.
    + intros [= <-]. apply re_group_digits in Hg as [Hall Hlen].
      apply isdigit_all_digits. split; [|done]. destruct g'; [simpl in Hlen; lia | done].
    + exact IH.
Qed.

Lemma Qc_of_Z_0 : Qc_of_Z 0 = 0%Qc.
Proof. by apply Qc_is_canon. Qed.


Lemma parse_time_remaining_body_value (time_text : string) :
  _parse_time_remaining_body time_text
  = Ok (Qc_of_Z (unit_count "d" time_text * 24)
        + Qc_of_Z (unit_count "h" time_text)
        + Qc_of_Z (unit_count "m" time_text) / Qc_of_Z 60)%Qc.
Proof.
  unfold _parse_time_remaining_body, unit_count.
  assert (Hint : ∀ u g, Re.re_search (unit_pattern u) (Str.lower time_text) = Some g →
                        py_int g = Ok (Str.decimal g)).
  { intros u g Hg. unfold py_int. by rewrite (unit_search_isdigit _ _ _ Hg). }
  destruct (Re.re_search (unit_pattern "d") _) as [gd|] eqn:Hd;
    [rewrite (Hint _ _ Hd)|];
  (destruct (Re.re_search (unit_pattern "h") _) as [gh|] eqn:Hh;
    [rewrite (Hint _ _ Hh)|]);
  (destruct (Re.re_search (unit_pattern "m") _) as [gm|] eqn:Hm;
    [rewrite (Hint _ _ Hm)|]);
  simpl; f_equal; rewrite ?Z.mul_0_l, ?Qc_of_Z_0; unfold Qcdiv;
  rewrite ?Qcmult_0_l; ring.
Qed.


(** Text in which no unit matches is read as zero hours. *)
Lemma parse_time_remaining_no_unit (time_text : string) :
  (∀ u, u ∈ ["d"; "h"; "m"] →
        Re.re_search (unit_pattern u) (Str.lower time_text) = None) →
  _parse_time_remaining time_text = 0%Qc.
Proof.
  intros Hno. unfold _parse_time_remaining.
  rewrite parse_time_remaining_body_value. unfold unit_count.
  rewrite !Hno by set_solver. simpl. by_decide.
Qed.

(** C2: "2d 3h 30m" is 51.5 hours and "5h" is 5 hours; "Buy It Now", in
    which no unit matches, is read as 0 hours and not as the sentinel 999. *)
Theorem parse_time_remaining_buy_it_now :
  _parse_time_remaining "2d 3h 30m" = dec 515 10
  ∧ _parse_time_remaining "5h" = Qc_of_Z 5
  ∧ _parse_time_remaining "Buy It Now" = 0%Qc
  ∧ _parse_time_remaining "Buy It Now" ≠ Qc_of_Z 999.
Proof. repeat split; by_decide. Qed.

(** ** The sort *)

Section SortFacts.
Context {A : Type} (key : A → Qc).

Lemma insert_desc_perm (x : A) (l : list A) : insert_desc key x l ≡ₚ x :: l.
Proof.
  induction l as [|y l IH]; simpl; [done|].
  case_bool_decide; [|done]. rewrite IH. apply Permutation_swap.
Qed.

Lemma sort_desc_perm (l : list A) : sort_desc key l ≡ₚ l.
Proof.
  induction l as [|x l IH]; simpl; [done|].
  by rewrite insert_desc_perm, IH.
Qed.

Lemma insert_desc_sorted (x : A) (l : list A) :
  StronglySorted (fun a b => key b ≤ key a)%Qc l →
  StronglySorted (fun a b => key b ≤ key a)%Qc (insert_desc key x l).
Proof.
  induction 1 as [|y l Hs IH Hy]; simpl.
  - by repeat constructor.
  - case_bool_decide as Hlt.
    + constructor; [done|]. rewrite insert_desc_perm.
      constructor; [by apply Qclt_le_weak | done].
    + apply Qcnot_lt_le in Hlt. constructor; [by constructor|].
      constructor; [done|]. eapply Forall_impl; [exact Hy|].
      intros z Hz. simpl in Hz. by etrans.
Qed.

Lemma sort_desc_sorted (l : list A) :
  StronglySorted (fun a b => key b ≤ key a)%Qc (sort_desc key l).
Proof.
  induction l as [|x l IH]; simpl; [constructor | by apply insert_desc_sorted].
Qed.

Lemma insert_desc_stable (k : Qc) (x : A) (l : list A) :
  filter (fun a => key a = k) (insert_desc key x l)
  = filter (fun a => key a = k) (x :: l).
Proof.
  induction l as [|y l IH]; simpl; [done|].
  case_bool_decide as Hlt; [|done].
  rewrite !filter_cons, IH, !filter_cons.
  destruct (decide (key x = k)) as [Hx|Hx], (decide (key y = k)) as [Hy|Hy];
    try done.
  exfalso. rewrite Hx, Hy in Hlt. by apply Qclt_not_eq in Hlt.
Qed.

Lemma sort_desc_stable (k : Qc) (l : list A) :
  filter (fun a => key a = k) (sort_desc key l) = filter (fun a => key a = k) l.
Proof.
  induction l as [|x l IH]; simpl; [done|].
  by rewrite insert_desc_stable, !filter_cons, IH.
Qed.

Lemma sort_desc_id (l : list A) :
  StronglySorted (fun a b => key b ≤ key a)%Qc l → sort_desc key l = l.
Proof.
  induction 1 as [|x l Hs IH Hx]; simpl; [done|].
  rewrite IH. destruct l as [|y l]; simpl; [done|].
  apply Forall_cons in Hx as [Hy _].
  rewrite bool_decide_eq_false_2; [done|]. by apply Qcle_not_lt.
Qed.
End SortFacts.

Lemma filter_none {A : Type} (P : A → Prop) `{∀ x, Decision (P x)} (l : list A) :
  (∀ x, x ∈ l → ¬ P x) → filter P l = [].
Proof.
  induction l as [|x l IH]; intros Hno; [done|].
  rewrite filter_cons, decide_False by (apply Hno; by left).
  apply IH. intros y Hy. apply Hno. by right.
Qed.

Lemma filter_all {A : Type} (P : A → Prop) `{∀ x, Decision (P x)} (l : list A) :
  (∀ x, x ∈ l → P x) → filter P l = l.
Proof.
  induction l as [|x l IH]; intros Hall; [done|].
  rewrite filter_cons, decide_True by (apply Hall; by left).
  f_equal. apply IH. intros y Hy. apply Hall. by right.
Qed.

Lemma insert_desc_ext {A : Type} (key1 key2 : A → Qc) (x : A) (l : list A) :
  key1 x = key2 x → (∀ y, y ∈ l → key1 y = key2 y) →
  insert_desc key1 x l = insert_desc key2 x l.
Proof.
  intros Hx. induction l as [|y l IH]; intros Hl; simpl; [done|].
  rewrite Hx, (Hl y) by by left.
  rewrite IH; [done|]. intros z Hz. apply Hl. by right.
Qed.

(** The sort looks at the keys of the entries of the list only. *)
Lemma sort_desc_ext {A : Type} (key1 key2 : A → Qc) (l : list A) :
  (∀ y, y ∈ l → key1 y = key2 y) → sort_desc key1 l = sort_desc key2 l.
Proof.
  induction l as [|x l IH]; intros Hl; simpl; [done|].
  rewrite IH by (intros z Hz; apply Hl; by right).
  apply insert_desc_ext; [apply Hl; by left|].
  intros y Hy. rewrite sort_desc_perm in Hy. apply Hl. by right.
Qed.

(** ** Steps that write to the auction *)

Lemma sbind_inv {A B : Type} (m : stateful A) (k : A → stateful B)
  (d d' : Dict) (r : result B) :
  sbind m k d = (d', r) →
  (∃ a d1, m d = (d1, Ok a) ∧ k a d1 = (d', r))
  ∨ (∃ e, m d = (d', Raise e) ∧ r = Raise e).
Proof.
  unfold sbind. destruct (m d) as [d1 [a|e]]; intros H.
  - left. eauto.
  - right. injection H as <- <-. eauto.
Qed.

Lemma sbind_Ok {A B : Type} (m : stateful A) (k : A → stateful B)
  (d d' : Dict) (b : B) :
  sbind m k d = (d', Ok b) → ∃ a d1, m d = (d1, Ok a) ∧ k a d1 = (d', Ok b).
Proof. intros [H|(e & _ & [=])]%sbind_inv; done. Qed.

Lemma read_inv {A : Type} (f : Dict → result A) (d d' : Dict) (r : result A) :
  read f d = (d', r) → d' = d ∧ r = f d.
Proof. unfold read. by intros [= <- <-]. Qed.

Lemma same_off_refl (W : list string) (x : Dict) : same_off W x x.
Proof. done. Qed.

Lemma same_off_app (W W' : list string) (x y z : Dict) :
  same_off W x y → same_off W' y z → same_off (W ++ W') x z.
Proof.
  intros Hxy Hyz k Hk. rewrite elem_of_app in Hk.
  rewrite Hxy, Hyz; [done|..]; intros ?; apply Hk; auto.
Qed.

Lemma same_off_nil (x y : Dict) : same_off [] x y → x = y.
Proof. intros H. apply map_eq. intros k. apply H, not_elem_of_nil. Qed.

Lemma writes_sret {A : Type} (W : list string) (a : A) : writes W (sret a).
Proof. by intros d. Qed.

Lemma writes_read {A : Type} (W : list string) (f : Dict → result A) :
  writes W (read f).
Proof. by intros d. Qed.

Lemma writes_set_item (W : list string) (k : string) (v : pyval) :
  k ∈ W → writes W (set_item k v).
Proof.
  intros Hk d k' Hk'. simpl. apply lookup_insert_ne. by intros <-.
Qed.

Lemma writes_sbind {A B : Type} (W : list string) (m : stateful A)
  (k : A → stateful B) :
  writes W m → (∀ a, writes W (k a)) → writes W (sbind m k).
Proof.
  intros Hm Hk d key Hkey. unfold sbind.
  specialize (Hm d key Hkey). destruct (m d) as [d1 [a|e]]; simpl in *; [|done].
  by rewrite (Hk a d1 key Hkey).
Qed.

Lemma settled_sret {A : Type} (W : list string) (a : A) : settled W (sret a).
Proof. by intros d x _. Qed.

Lemma settled_read {A : Type} (W : list string) (f : Dict → result A) :
  (∀ d x, same_off W x d → f x = f d) → settled W (read f).
Proof. intros Hf d x Hx. unfold read. simpl. f_equal. by apply Hf. Qed.

Lemma settled_set_item (W : list string) (k : string) (v : pyval) :
  k ∉ W → settled W (set_item k v).
Proof.
  intros Hk d x Hx. unfold set_item. simpl. f_equal.
  apply insert_id. rewrite (Hx k Hk). apply lookup_insert_eq.
Qed.

Lemma settled_sbind {A B : Type} (W Wk : list string) (m : stateful A)
  (k : A → stateful B) :
  settled (W ++ Wk) m → (∀ a, writes Wk (k a)) → (∀ a, settled W (k a)) →
  settled W (sbind m k).
Proof.
  intros Hm Hw Hk d x Hx. unfold sbind in *.
  specialize (Hm d x). destruct (m d) as [d1 [a|e]]; simpl in *.
  - rewrite Hm; [by apply Hk|]. eapply same_off_app; [exact Hx | apply Hw].
  - rewrite Hm; [done|]. eapply same_off_app; [exact Hx | done].
Qed.

(** A step that is settled leaves a record on which it runs to the same
    result without a change. *)
Lemma settled_fixed {A : Type} (m : stateful A) (d d' : Dict) (r : result A) :
  settled [] m → m d = (d', r) → m d' = (d', r).
Proof. intros Hm Hd. specialize (Hm d d'). rewrite Hd in Hm. by apply Hm. Qed.

Lemma settled_apply {A : Type} (W : list string) (m : stateful A)
  (d d' x : Dict) (r : result A) :
  settled W m → m d = (d', r) → same_off W x d' → m x = (x, r).
Proof. intros Hm Hd Hx. specialize (Hm d x). rewrite Hd in Hm. by apply Hm. Qed.

Lemma same_off_insert (W : list string) (k : string) (v : pyval) (d : Dict) :
  k ∈ W → same_off W (<[k := v]> d) d.
Proof. intros Hk k' Hk'. apply lookup_insert_ne. by intros <-. Qed.

(** ** Reading the checks of [AuctionFilter] backwards *)

Lemma as_num_Ok (v : pyval) (q : Qc) : as_num v = Ok q ↔ v = PNum q.
Proof. destruct v; simpl; split; congruence. Qed.

Lemma getattr_Ok {A : Type} (name : string) (f : option A) (v : A) :
  getattr name f = Ok v ↔ f = Some v.
Proof. destruct f; simpl; split; congruence. Qed.

Lemma py_lower_Ok (v : pyval) (s : string) :
  py_lower v = Ok s ↔ ∃ t, v = PStr t ∧ s = Str.lower t.
Proof.
  destruct v as [|s0|q|l|z]; simpl; split; try congruence;
    try (by intros (u & [=] & _)).
  - intros [= <-]. eauto.
  - intros (u & [= <-] & ->). done.
Qed.

Lemma dict_get_ext (a b : Dict) (k : string) (dflt : pyval) :
  a !! k = b !! k → dict_get a k dflt = dict_get b k dflt.
Proof. intros E. unfold dict_get. by rewrite E. Qed.

Lemma dict_get_lookup (d : Dict) (k : string) (v dflt : pyval) :
  d !! k = Some v → dict_get d k dflt = v.
Proof. intros E. unfold dict_get. by rewrite E. Qed.

Section Checks.
Variable config : Config.

Lemma price_in_range_ext (a b : Dict) :
  a !! "current_price" = b !! "current_price" →
  _price_in_range config a = _price_in_range config b.
Proof. intros E. unfold _price_in_range. by rewrite (dict_get_ext a b). Qed.

Lemma price_in_range_true (a : Dict) :
  _price_in_range config a = Ok true →
  ∃ lo hi c, MIN_PRICE config = Some lo ∧ MAX_PRICE config = Some hi
    ∧ dict_get a "current_price" (PNum 0) = PNum c ∧ (lo ≤ c ≤ hi)%Qc.
Proof.
  unfold _price_in_range. intros H.
  apply bind_Ok in H as (lo & Hlo%getattr_Ok & H).
  apply bind_Ok in H as (c & Hc%as_num_Ok & H).
  destruct (bool_decide (lo ≤ c)%Qc) eqn:Hle; [|done].
  apply bool_decide_eq_true in Hle.
  apply bind_Ok in H as (hi & Hhi%getattr_Ok & H).
  injection H as Hge%bool_decide_eq_true.
  by exists lo, hi, c.
Qed.

Lemma time_remaining_valid_ext (a b : Dict) :
  a !! "time_remaining_hours" = b !! "time_remaining_hours" →
  _time_remaining_valid config a = _time_remaining_valid config b.
Proof. intros E. unfold _time_remaining_valid. by rewrite (dict_get_ext a b). Qed.

Lemma time_remaining_valid_true (a : Dict) :
  _time_remaining_valid config a = Ok true →
  ∃ mx t, MAX_TIME_REMAINING_HOURS config = Some mx
    ∧ dict_get a "time_remaining_hours" (PNum (Qc_of_Z 999)) = PNum t
    ∧ (0 < t ≤ mx)%Qc.
Proof.
  unfold _time_remaining_valid. intros H.
  apply bind_Ok in H as (t & Ht%as_num_Ok & H).
  destruct (bool_decide (0 < t)%Qc) eqn:Hpos; [|done].
  apply bool_decide_eq_true in Hpos.
  apply bind_Ok in H as (mx & Hmx%getattr_Ok & H).
  injection H as Hle%bool_decide_eq_true.
  by exists mx, t.
Qed.

Lemma has_minimum_activity_ext (a b : Dict) :
  a !! "bids" = b !! "bids" →
  _has_minimum_activity config a = _has_minimum_activity config b.
Proof. intros E. unfold _has_minimum_activity. by rewrite (dict_get_ext a b). Qed.

Lemma has_minimum_activity_true (a : Dict) :
  _has_minimum_activity config a = Ok true →
  ∃ mb b, MIN_BIDS config = Some mb
    ∧ dict_get a "bids" (PNum 0) = PNum b ∧ (mb ≤ b)%Qc.
Proof.
  unfold _has_minimum_activity. intros H.
  apply bind_Ok in H as (mb & Hmb%getattr_Ok & H).
  apply bind_Ok in H as (b & Hb%as_num_Ok & H).
  injection H as Hle%bool_decide_eq_true.
  by exists mb, b.
Qed.

Lemma has_excluded_keywords_ext (a b : Dict) :
  a !! "title" = b !! "title" →
  _has_excluded_keywords config a = _has_excluded_keywords config b.
Proof. intros E. unfold _has_excluded_keywords. by rewrite (dict_get_ext a b). Qed.

Lemma has_excluded_keywords_false (a : Dict) :
  _has_excluded_keywords config a = Ok false →
  ∃ kws title, EXCLUDE_KEYWORDS config = Some kws
    ∧ dict_get a "title" (PStr "") = PStr title
    ∧ ∀ kw, kw ∈ kws → Str.contains (Str.lower kw) (Str.lower title) = false.
Proof.
  unfold _has_excluded_keywords. intros H.
  apply bind_Ok in H as (tl & (title & Ht & ->)%py_lower_Ok & H).
  apply bind_Ok in H as (kws & Hkws%getattr_Ok & H).
  injection H as Hex.
  exists kws, title. split; [done|]. split; [done|].
  intros kw Hkw. destruct (Str.contains _ _) eqn:Hc; [|done].
  assert (existsb (fun keyword => Str.contains (Str.lower keyword) (Str.lower title))
            kws = true) as Hyes; [|congruence].
  apply existsb_exists. exists kw. split; [by apply list_elem_of_In | done].
Qed.

Lemma in_list_true (v : pyval) (l : list string) :
  in_list v l = true → ∃ s, v = PStr s ∧ s ∈ l.
Proof.
  destruct v as [|s|q|l0|z]; simpl; try done.
  intros Hs%bool_decide_eq_true. eauto.
Qed.

Lemma price_in_range_settled (W : list string) :
  "current_price" ∉ W → settled W (read (_price_in_range config)).
Proof.
  intros H. apply settled_read. intros d x Hx.
  apply price_in_range_ext. by apply Hx.
Qed.

Lemma time_remaining_valid_settled (W : list string) :
  "time_remaining_hours" ∉ W → settled W (read (_time_remaining_valid config)).
Proof.
  intros H. apply settled_read. intros d x Hx.
  apply time_remaining_valid_ext. by apply Hx.
Qed.

Lemma has_minimum_activity_settled (W : list string) :
  "bids" ∉ W → settled W (read (_has_minimum_activity config)).
Proof.
  intros H. apply settled_read. intros d x Hx.
  apply has_minimum_activity_ext. by apply Hx.
Qed.

Lemma has_excluded_keywords_settled (W : list string) :
  "title" ∉ W → settled W (read (_has_excluded_keywords config)).
Proof.
  intros H. apply settled_read. intros d x Hx.
  apply has_excluded_keywords_ext. by apply Hx.
Qed.

(** [_is_premium_brand] step by step *)
Lemma is_premium_brand_eq (d : Dict) :
  _is_premium_brand config d =
  match py_lower (dict_get d "title" (PStr "")) with
  | Raise e => (d, Raise e)
  | Ok title =>
      match getattr "PREMIUM_BRANDS" (PREMIUM_BRANDS config) with
      | Raise e => (d, Raise e)
      | Ok pbs =>
          if truthy (dict_get d "brand" PNone)
          then (d, Ok (in_list (dict_get d "brand" PNone) pbs))
          else match first_occurring title pbs with
               | Some pb => (<["brand" := PStr pb]> d, Ok true)
               | None => (d, Ok false)
               end
      end
  end.
Proof.
  unfold _is_premium_brand, sbind, get_item, lift, read, sret, set_item. simpl.
  destruct (py_lower _) as [title|e]; [|done].
  destruct (truthy _), (getattr _ _) as [pbs|e]; try done.
  by destruct (first_occurring _ _).
Qed.

(** [_is_premium_brand] writes at most the key "brand". *)
Lemma is_premium_brand_writes (W : list string) :
  "brand" ∈ W → writes W (_is_premium_brand config).
Proof.
  intros HW d k Hk. rewrite is_premium_brand_eq.
  destruct (py_lower _) as [title|e]; [|done].
  destruct (getattr _ _) as [pbs|e]; [|done].
  destruct (truthy _); [done|].
  destruct (first_occurring _ _); [|done].
  simpl. apply lookup_insert_ne. by intros <-.
Qed.

Lemma is_premium_brand_frame (a a' : Dict) (r : result bool) (k : string) :
  _is_premium_brand config a = (a', r) → k ≠ "brand" → a' !! k = a !! k.
Proof.
  intros H Hk.
  pose proof (is_premium_brand_writes ["brand"] ltac:(by left) a k) as Hw.
  rewrite H in Hw. apply Hw. by intros ->%list_elem_of_singleton.
Qed.

Lemma is_premium_brand_true (a a' : Dict) :
  _is_premium_brand config a = (a', Ok true) →
  ∃ pbs title b, PREMIUM_BRANDS config = Some pbs
    ∧ dict_get a "title" (PStr "") = PStr title
    ∧ b ∈ pbs
    ∧ a' !! "brand" = Some (PStr b)
    ∧ (truthy (dict_get a "brand" PNone) = true ∧ a' = a
       ∨ truthy (dict_get a "brand" PNone) = false
         ∧ first_occurring (Str.lower title) pbs = Some b
         ∧ a' = <["brand" := PStr b]> a).
Proof.
  rewrite is_premium_brand_eq. intros H.
  destruct (py_lower _) as [tl|e] eqn:Ht; [|done].
  apply py_lower_Ok in Ht as (title & Ht & ->).
  destruct (getattr _ _) as [pbs|e] eqn:Hp; [|done].
  apply getattr_Ok in Hp.
  destruct (truthy (dict_get a "brand" PNone)) eqn:Hb.
  - injection H as <- Hin. apply in_list_true in Hin as (s & Hs & Hin).
    exists pbs, title, s. repeat split; try done; [|by left].
    unfold dict_get in Hs. destruct (a !! "brand") as [v|]; simpl in Hs; by subst.
  - destruct (first_occurring (Str.lower title) pbs) as [pb|] eqn:Hf; [|done].
    injection H as <-. apply first_occurring_elem in Hf as Hpb.
    exists pbs, title, pb.
    repeat split; try done; [apply Hpb | apply lookup_insert_eq | by right].
Qed.

(** The brand check runs again to the same result, without a change, on the
    record it left and on any record with the same title and brand. *)
Lemma is_premium_brand_settled (W : list string) :
  "title" ∉ W → "brand" ∉ W → settled W (_is_premium_brand config).
Proof.
  intros HtW HbW d x Hx.
  assert (Ht : x !! "title" = d !! "title").
  { rewrite (Hx "title" HtW).
    destruct (_is_premium_brand config d) as [d' r] eqn:Hd.
    by apply (is_premium_brand_frame d d' r). }
  specialize (Hx "brand" HbW).
  rewrite (is_premium_brand_eq x). rewrite (is_premium_brand_eq d) in Hx |- *.
  rewrite (dict_get_ext x d "title") by done.
  destruct (py_lower _) as [title|e]; [|done].
  destruct (getattr _ _) as [pbs|e]; [|done].
  destruct (truthy (dict_get d "brand" PNone)) eqn:Hb; simpl in Hx |- *.
  { by rewrite (dict_get_ext x d "brand"), Hb. }
  destruct (first_occurring title pbs) as [pb|] eqn:Hf; simpl in Hx |- *.
  2:{ by rewrite (dict_get_ext x d "brand"), Hb. }
  rewrite lookup_insert_eq in Hx.
  rewrite (dict_get_lookup x "brand" (PStr pb)) by done. simpl.
  destruct (bool_decide (pb = "")) eqn:Hempty; simpl.
  - f_equal. by apply insert_id.
  - f_equal. f_equal. apply bool_decide_eq_true_2.
    by apply first_occurring_elem in Hf as [? _].
Qed.

Lemma any_in_true (brand : pyval) (pbs : list string) :
  any_in brand pbs = Ok true → ∃ pb, pb ∈ pbs ∧ py_in pb brand = Ok true.
Proof.
  induction pbs as [|pb pbs IH]; simpl; [done|].
  intros H. apply bind_Ok in H as ([] & Hin & H).
  - exists pb. split; [by left | done].
  - destruct (IH H) as (pb' & Hpb' & Hin'). exists pb'. split; [by right | done].
Qed.

Lemma alternative_value_check_ext (a b : Dict) :
  a !! "current_price" = b !! "current_price" → a !! "bids" = b !! "bids" →
  a !! "brand" = b !! "brand" →
  _alternative_value_check config a = _alternative_value_check config b.
Proof.
  intros E1 E2 E3. unfold _alternative_value_check.
  by rewrite (dict_get_ext a b "current_price"), (dict_get_ext a b "bids"),
    (dict_get_ext a b "brand").
Qed.

Lemma alternative_value_check_true (a : Dict) :
  _alternative_value_check config a = Ok true →
  ∃ c b, dict_get a "current_price" (PNum 0) = PNum c
    ∧ dict_get a "bids" (PNum 0) = PNum b
    ∧ ((∃ pb, pb ∈ desirable_brands
              ∧ py_in pb (dict_get a "brand" (PStr "")) = Ok true)
       ∧ (c ≤ Qc_of_Z 1500)%Qc ∧ (Qc_of_Z 5 ≤ b)%Qc
       ∨ (c ≤ Qc_of_Z 800)%Qc
         ∧ ∃ mb, MIN_BIDS config = Some mb ∧ (mb ≤ b)%Qc).
Proof.
  unfold _alternative_value_check. intros H.
  apply bind_Ok in H as (hit & Hhit & H).
  apply bind_Ok in H as (first & Hfirst & H).
  destruct first.
  - destruct hit; [|done].
    apply bind_Ok in Hfirst as (c & Hc%as_num_Ok & Hfirst).
    case_bool_decide as Hle; [|done].
    apply bind_Ok in Hfirst as (b & Hb%as_num_Ok & Hfirst).
    injection Hfirst as Hfive%bool_decide_eq_true.
    exists c, b. repeat split; try done. left.
    split; [by apply any_in_true | done].
  - apply bind_Ok in H as (c & Hc%as_num_Ok & H).
    case_bool_decide as Hle; [|done].
    apply bind_Ok in H as (mb & Hmb%getattr_Ok & H).
    apply bind_Ok in H as (b & Hb%as_num_Ok & H).
    injection H as Hmin%bool_decide_eq_true.
    exists c, b. repeat split; try done. right. eauto.
Qed.

Lemma alternative_value_check_settled (W : list string) :
  "current_price" ∉ W → "bids" ∉ W → "brand" ∉ W →
  settled W (read (_alternative_value_check config)).
Proof.
  intros H1 H2 H3. apply settled_read. intros d x Hx.
  apply alternative_value_check_ext; by apply Hx.
Qed.

(** [_has_good_discount] step by step *)
Lemma has_good_discount_eq (d : Dict) :
  _has_good_discount config d =
  let current_price := dict_get d "current_price" (PNum 0) in
  let original_price := dict_get d "original_price" PNone in
  match (if negb (truthy original_price) then Ok true
         else py_le original_price current_price) with
  | Raise e => (d, Raise e)
  | Ok true => (d, _alternative_value_check config d)
  | Ok false =>
      match discount_of original_price current_price with
      | Raise e => (d, Raise e)
      | Ok discount_percent =>
          (<["discount_percent" := PNum discount_percent]> d,
           let* md := getattr "MIN_DISCOUNT_PERCENT" (MIN_DISCOUNT_PERCENT config) in
           Ok (bool_decide (md ≤ discount_percent)%Qc))
      end
  end.
Proof.
  unfold _has_good_discount, sbind, get_item, lift, read, sret, set_item.
  simpl.
  destruct (if negb _ then _ else _) as [[]|e]; try done.
  destruct (discount_of _ _) as [dp|e]; [|done].
  by destruct (getattr _ _).
Qed.

(** [_has_good_discount] writes at most the key "discount_percent". *)
Lemma has_good_discount_writes (W : list string) :
  "discount_percent" ∈ W → writes W (_has_good_discount config).
Proof.
  intros HW d k Hk. rewrite has_good_discount_eq. simpl.
  destruct (if negb _ then _ else _) as [[]|e]; try done.
  destruct (discount_of _ _) as [dp|e]; [|done].
  simpl. apply lookup_insert_ne. by intros <-.
Qed.

Lemma has_good_discount_frame (a a' : Dict) (r : result bool) (k : string) :
  _has_good_discount config a = (a', r) →
  k ≠ "discount_percent" → a' !! k = a !! k.
Proof.
  intros H Hk.
  pose proof (has_good_discount_writes ["discount_percent"] ltac:(by left) a k)
    as Hw.
  rewrite H in Hw. apply Hw. by intros ->%list_elem_of_singleton.
Qed.

Lemma discount_of_Ok (original_price current_price : pyval) (dp : Qc) :
  discount_of original_price current_price = Ok dp →
  ∃ o c, original_price = PNum o ∧ current_price = PNum c ∧ o ≠ 0%Qc
    ∧ dp = ((o - c) / o * Qc_of_Z 100)%Qc.
Proof.
  unfold discount_of. intros H.
  apply bind_Ok in H as (o & Ho%as_num_Ok & H).
  apply bind_Ok in H as (c & Hc%as_num_Ok & H).
  apply bind_Ok in H as (q & Hq & H).
  destruct (bool_decide (o = 0%Qc)) eqn:Hz; [done|].
  apply bool_decide_eq_false in Hz. injection Hq as <-. injection H as <-.
  by exists o, c.
Qed.

Lemma has_good_discount_true (a a' : Dict) :
  _has_good_discount config a = (a', Ok true) →
  (∃ o c md,
      dict_get a "original_price" PNone = PNum o ∧ o ≠ 0%Qc
      ∧ dict_get a "current_price" (PNum 0) = PNum c ∧ (c < o)%Qc
      ∧ MIN_DISCOUNT_PERCENT config = Some md
      ∧ (md ≤ (o - c) / o * Qc_of_Z 100)%Qc
      ∧ a' = <["discount_percent" := PNum ((o - c) / o * Qc_of_Z 100)]> a)
  ∨ (a' = a
     ∧ (if negb (truthy (dict_get a "original_price" PNone)) then Ok true
        else py_le (dict_get a "original_price" PNone)
                   (dict_get a "current_price" (PNum 0))) = Ok true
     ∧ _alternative_value_check config a = Ok true).
Proof.
  rewrite has_good_discount_eq. simpl. intros H.
  destruct (if negb _ then _ else _) as [[]|e] eqn:Hnd; try done.
  - right. by injection H as <- ->.
  - left. destruct (discount_of _ _) as [dp|e] eqn:Hdp; [|done].
    apply discount_of_Ok in Hdp as (o & c & Ho & Hc & Hnz & ->).
    injection H as <- H.
    apply bind_Ok in H as (md & Hmd%getattr_Ok & H).
    injection H as Hle%bool_decide_eq_true.
    rewrite Ho, Hc in Hnd. simpl in Hnd.
    rewrite bool_decide_eq_false_2 in Hnd by done. simpl in Hnd.
    injection Hnd as Hlt%bool_decide_eq_false.
    exists o, c, md. repeat split; try done. by apply Qcnot_le_lt.
Qed.

(** The discount check runs again to the same result, without a change, on
    the record it left and on any record with the same prices, bids, brand
    and discount. *)
Lemma has_good_discount_settled (W : list string) :
  "current_price" ∉ W → "original_price" ∉ W → "bids" ∉ W → "brand" ∉ W →
  "discount_percent" ∉ W →
  settled W (_has_good_discount config).
Proof.
  intros Hcp Hop Hbids Hbrand Hdp d x Hx.
  assert (F : ∀ k, k ∉ W → k ≠ "discount_percent" → x !! k = d !! k).
  { intros k Hk Hne. rewrite (Hx k Hk).
    destruct (_has_good_discount config d) as [d' r] eqn:Hd.
    by apply (has_good_discount_frame d d' r). }
  specialize (Hx "discount_percent" Hdp).
  rewrite (has_good_discount_eq x). rewrite (has_good_discount_eq d) in Hx |- *.
  simpl in Hx |- *.
  rewrite (dict_get_ext x d "original_price"), (dict_get_ext x d "current_price")
    by by apply F.
  destruct (if negb _ then _ else _) as [[]|e]; simpl in Hx |- *; try done.
  - f_equal. apply alternative_value_check_ext; by apply F.
  - destruct (discount_of _ _) as [dp|e]; simpl in Hx |- *; [|done].
    f_equal. apply insert_id. by rewrite Hx, lookup_insert_eq.
Qed.

(** [_is_auction_interesting] writes at most the brand and the discount. *)
Lemma is_auction_interesting_writes (W : list string) :
  "brand" ∈ W → "discount_percent" ∈ W →
  writes W (_is_auction_interesting config).
Proof.
  intros Hb Hd. unfold _is_auction_interesting.
  repeat first
    [ apply writes_sret
    | apply writes_read
    | by apply is_premium_brand_writes
    | by apply has_good_discount_writes
    | apply writes_sbind; [|intros []; simpl] ].
Qed.

Lemma is_auction_interesting_settled :
  settled ["filter_reason"; "interest_score"] (_is_auction_interesting config).
Proof.
  unfold _is_auction_interesting.
  apply (settled_sbind _ ["brand"; "discount_percent"]);
    [apply price_in_range_settled; by_decide| |]; intros []; simpl;
    try apply writes_sret; try apply settled_sret.
  { repeat first
      [ apply writes_sret
      | apply writes_read
      | apply is_premium_brand_writes; by_decide
      | apply has_good_discount_writes; by_decide
      | apply writes_sbind; [|intros []; simpl] ]. }
  apply (settled_sbind _ ["discount_percent"]);
    [apply is_premium_brand_settled; by_decide| |]; intros []; simpl;
    try apply writes_sret; try apply settled_sret.
  { repeat first
      [ apply writes_sret
      | apply writes_read
      | apply has_good_discount_writes; by_decide
      | apply writes_sbind; [|intros []; simpl] ]. }
  apply (settled_sbind _ ["discount_percent"]);
    [apply time_remaining_valid_settled; by_decide| |]; intros []; simpl;
    try apply writes_sret; try apply settled_sret.
  { repeat first
      [ apply writes_sret
      | apply writes_read
      | apply has_good_discount_writes; by_decide
      | apply writes_sbind; [|intros []; simpl] ]. }
  apply (settled_sbind _ ["discount_percent"]);
    [apply has_minimum_activity_settled; by_decide| |]; intros []; simpl;
    try apply writes_sret; try apply settled_sret.
  { repeat first
      [ apply writes_sret
      | apply writes_read
      | apply has_good_discount_writes; by_decide
      | apply writes_sbind; [|intros []; simpl] ]. }
  apply (settled_sbind _ ["discount_percent"]);
    [apply has_excluded_keywords_settled; by_decide| |]; intros []; simpl;
    try apply writes_sret; try apply settled_sret.
  { repeat first
      [ apply writes_sret
      | apply writes_read
      | apply has_good_discount_writes; by_decide
      | apply writes_sbind; [|intros []; simpl] ]. }
  apply (settled_sbind _ []);
    [apply has_good_discount_settled; by_decide| |]; intros []; simpl;
    try apply writes_sret; try apply settled_sret.
Qed.

Lemma is_auction_interesting_true (a a2 : Dict) :
  _is_auction_interesting config a = (a2, Ok true) ↔
  ∃ a1, _price_in_range config a = Ok true
    ∧ _is_premium_brand config a = (a1, Ok true)
    ∧ _time_remaining_valid config a1 = Ok true
    ∧ _has_minimum_activity config a1 = Ok true
    ∧ _has_excluded_keywords config a1 = Ok false
    ∧ _has_good_discount config a1 = (a2, Ok true).
Proof.
  unfold _is_auction_interesting. split.
  - intros H.
    apply sbind_Ok in H as ([] & ? & [-> Hprice]%read_inv & H); [|done].
    simpl in H.
    apply sbind_Ok in H as ([] & a1 & Hbrand & H); [|done]. simpl in H.
    apply sbind_Ok in H as ([] & ? & [-> Htime]%read_inv & H); [|done].
    simpl in H.
    apply sbind_Ok in H as ([] & ? & [-> Hbids]%read_inv & H); [|done].
    simpl in H.
    apply sbind_Ok in H as ([] & ? & [-> Hkw]%read_inv & H); [done|].
    apply sbind_Ok in H as ([] & a2' & Hdisc & H); [|done]. simpl in H.
    injection H as <-. exists a1. done.
  - intros (a1 & H1 & H2 & H3 & H4 & H5 & H6).
    unfold sbind, read, sret. rewrite H1. simpl. rewrite H2. simpl.
    rewrite H3. simpl. rewrite H4. simpl. rewrite H5. simpl. by rewrite H6.
Qed.

Lemma calculate_interest_score_ext (a b : Dict) :
  a !! "discount_percent" = b !! "discount_percent" → a !! "bids" = b !! "bids" →
  a !! "time_remaining_hours" = b !! "time_remaining_hours" →
  a !! "brand" = b !! "brand" → a !! "current_price" = b !! "current_price" →
  _calculate_interest_score a = _calculate_interest_score b.
Proof.
  intros E1 E2 E3 E4 E5. unfold _calculate_interest_score.
  by rewrite (dict_get_ext a b "discount_percent"), (dict_get_ext a b "bids"),
    (dict_get_ext a b "time_remaining_hours"), (dict_get_ext a b "brand"),
    (dict_get_ext a b "current_price").
Qed.

Lemma get_filter_reasons_ext repr format_1f (a b : Dict) :
  a !! "discount_percent" = b !! "discount_percent" → a !! "bids" = b !! "bids" →
  a !! "time_remaining_hours" = b !! "time_remaining_hours" →
  a !! "brand" = b !! "brand" → a !! "current_price" = b !! "current_price" →
  _get_filter_reasons repr format_1f config a
  = _get_filter_reasons repr format_1f config b.
Proof.
  intros E1 E2 E3 E4 E5. unfold _get_filter_reasons.
  by rewrite (dict_get_ext a b "discount_percent"), (dict_get_ext a b "bids"),
    (dict_get_ext a b "time_remaining_hours"), (dict_get_ext a b "brand"),
    (dict_get_ext a b "current_price").
Qed.
End Checks.

(** ** Survivors *)

Section Survivors.
Variable repr : pyval → string.
Variable format_1f : Qc → string.
Variable config : Config.

Lemma get_filter_reasons_settled (W : list string) :
  "discount_percent" ∉ W → "bids" ∉ W → "time_remaining_hours" ∉ W →
  "brand" ∉ W → "current_price" ∉ W →
  settled W (read (_get_filter_reasons repr format_1f config)).
Proof.
  intros H1 H2 H3 H4 H5. apply settled_read. intros d x Hx.
  apply get_filter_reasons_ext; by apply Hx.
Qed.

Lemma calculate_interest_score_settled (W : list string) :
  "discount_percent" ∉ W → "bids" ∉ W → "time_remaining_hours" ∉ W →
  "brand" ∉ W → "current_price" ∉ W →
  settled W (read _calculate_interest_score).
Proof.
  intros H1 H2 H3 H4 H5. apply settled_read. intros d x Hx.
  apply calculate_interest_score_ext; by apply Hx.
Qed.

(** One turn of the loop is settled: whatever it did to an auction, kept,
    dropped or raised on, a second turn finds nothing to change and ends the
    same way. *)
Lemma evaluate_settled : settled [] (evaluate repr format_1f config).
Proof.
  unfold evaluate.
  apply (settled_sbind _ ["filter_reason"; "interest_score"]);
    [apply is_auction_interesting_settled| |]; intros []; simpl;
    try apply writes_sret; try apply settled_sret.
  { repeat first
      [ apply writes_sret
      | apply writes_read
      | apply writes_set_item; by_decide
      | apply writes_sbind; [|intros ?; simpl] ]. }
  apply (settled_sbind _ ["filter_reason"; "interest_score"]);
    [apply get_filter_reasons_settled; by_decide| |]; intros rs.
  { repeat first
      [ apply writes_sret
      | apply writes_read
      | apply writes_set_item; by_decide
      | apply writes_sbind; [|intros ?; simpl] ]. }
  apply (settled_sbind _ ["interest_score"]);
    [apply settled_set_item; by_decide| |]; intros [].
  { repeat first
      [ apply writes_sret
      | apply writes_read
      | apply writes_set_item; by_decide
      | apply writes_sbind; [|intros ?; simpl] ]. }
  apply (settled_sbind _ ["interest_score"]);
    [apply calculate_interest_score_settled; by_decide| |]; intros s.
  { repeat first
      [ apply writes_sret
      | apply writes_set_item; by_decide
      | apply writes_sbind; [|intros ?; simpl] ]. }
  apply (settled_sbind _ []);
    [apply settled_set_item; by_decide| |]; intros [];
    [apply writes_sret | apply settled_sret].
Qed.

Lemma evaluate_fixed (a a' : Dict) (r : result bool) :
  evaluate repr format_1f config a = (a', r) →
  evaluate repr format_1f config a' = (a', r).
Proof. apply settled_fixed, evaluate_settled. Qed.

(** What [evaluate] returns for an auction it keeps. *)
Lemma evaluate_true (a r : Dict) :
  evaluate repr format_1f config a = (r, Ok true) →
  ∃ a2 rs s,
    _is_auction_interesting config a = (a2, Ok true)
    ∧ _get_filter_reasons repr format_1f config a2 = Ok rs
    ∧ _calculate_interest_score (<["filter_reason" := PList rs]> a2) = Ok s
    ∧ r = <["interest_score" := PNum s]> (<["filter_reason" := PList rs]> a2).
Proof.
  unfold evaluate. intros H.
  apply sbind_Ok in H as ([] & a2 & Hint & H); [|done].
  apply sbind_Ok in H as (rs & ? & [-> Hrs]%read_inv & H).
  apply sbind_Ok in H as ([] & ? & [= <-] & H).
  apply sbind_Ok in H as (s & ? & [-> Hs]%read_inv & H).
  apply sbind_Ok in H as ([] & ? & [= <-] & H).
  injection H as <-. by exists a2, rs, s.
Qed.

Lemma evaluate_checked (a r : Dict) :
  evaluate repr format_1f config a = (r, Ok true) →
  checked repr format_1f config r.
Proof.
  intros (a2 & rs & s & Hint & Hrs & Hs & ->)%evaluate_true.
  apply is_auction_interesting_true in Hint
    as (a1 & Hprice & Hbrand & Htime & Hbids & Hkw & Hdisc).
  set (r := <["interest_score" := PNum s]> (<["filter_reason" := PList rs]> a2)).
  assert (R2 : same_off ["interest_score"; "filter_reason"] r a2).
  { apply (same_off_app ["interest_score"] ["filter_reason"]
             _ (<["filter_reason" := PList rs]> a2));
      apply same_off_insert; by left. }
  assert (R1 : same_off (["interest_score"; "filter_reason"] ++ ["discount_percent"])
                 r a1).
  { eapply same_off_app; [exact R2|].
    pose proof (has_good_discount_writes config ["discount_percent"]
                  ltac:(by left) a1) as Hw.
    by rewrite Hdisc in Hw. }
  assert (R0 : same_off ((["interest_score"; "filter_reason"]
                          ++ ["discount_percent"]) ++ ["brand"]) r a).
  { eapply same_off_app; [exact R1|].
    pose proof (is_premium_brand_writes config ["brand"] ltac:(by left) a) as Hw.
    by rewrite Hbrand in Hw. }
  split.
  - rewrite <- Hprice. apply price_in_range_ext. apply R0. by_decide.
  - eapply (settled_apply _ _ a a1); [|done|exact R1].
    apply is_premium_brand_settled; by_decide.
  - rewrite <- Htime. apply time_remaining_valid_ext. apply R1. by_decide.
  - rewrite <- Hbids. apply has_minimum_activity_ext. apply R1. by_decide.
  - rewrite <- Hkw. apply has_excluded_keywords_ext. apply R1. by_decide.
  - eapply (settled_apply _ _ a1 a2); [|done|exact R2].
    apply has_good_discount_settled; by_decide.
  - exists rs. split.
    + rewrite <- Hrs. apply get_filter_reasons_ext; apply R2; by_decide.
    + unfold r. rewrite lookup_insert_ne by done. apply lookup_insert_eq.
  - exists s. split.
    + rewrite <- Hs. apply calculate_interest_score_ext;
        unfold r; by rewrite lookup_insert_ne.
    + apply lookup_insert_eq.
Qed.

Lemma checked_evaluate (r : Dict) :
  checked repr format_1f config r →
  evaluate repr format_1f config r = (r, Ok true).
Proof.
  intros [Hprice Hbrand Htime Hbids Hkw Hdisc (rs & Hrs & Hfr) (s & Hs & His)].
  assert (Hint : _is_auction_interesting config r = (r, Ok true)).
  { apply is_auction_interesting_true. by exists r. }
  unfold evaluate, sbind, read, set_item, sret. rewrite Hint, Hrs.
  rewrite (insert_id r "filter_reason") by done.
  rewrite Hs. by rewrite insert_id.
Qed.

Lemma survivor_Some (a r : Dict) :
  survivor repr format_1f config a = Some r
  ↔ evaluate repr format_1f config a = (r, Ok true).
Proof.
  unfold survivor.
  destruct (evaluate repr format_1f config a) as [r' [[]|e]]; split; congruence.
Qed.

(** A second turn on an auction keeps it if and only if the first did. *)
Lemma survivor_visit (a : Dict) :
  survivor repr format_1f config (visit repr format_1f config a)
  = survivor repr format_1f config a.
Proof.
  unfold survivor, visit.
  destruct (evaluate repr format_1f config a) as [a' r] eqn:He.
  simpl. by rewrite (evaluate_fixed a a' r He).
Qed.

Lemma visit_visit (a : Dict) :
  visit repr format_1f config (visit repr format_1f config a)
  = visit repr format_1f config a.
Proof.
  unfold visit.
  destruct (evaluate repr format_1f config a) as [a' r] eqn:He.
  simpl. by rewrite (evaluate_fixed a a' r He).
Qed.

Lemma survivor_is_visit (a r : Dict) :
  survivor repr format_1f config a = Some r →
  visit repr format_1f config a = r.
Proof. intros H%survivor_Some. unfold visit. by rewrite H. Qed.

(** Evaluating a survivor again keeps it, unchanged. *)
Lemma survivor_fixed (a r : Dict) :
  survivor repr format_1f config a = Some r →
  survivor repr format_1f config r = Some r.
Proof.
  intros H. rewrite <- (survivor_is_visit a r H), survivor_visit.
  by rewrite (survivor_is_visit a r H).
Qed.

Lemma survivor_score_key (a r : Dict) :
  survivor repr format_1f config a = Some r →
  r !! "interest_score" = Some (PNum (score_key r)).
Proof.
  intros H%survivor_Some%evaluate_checked.
  destruct (checked_score _ _ _ _ H) as (s & _ & Hs).
  unfold score_key, dict_get. by rewrite Hs.
Qed.

(** *** The heap *)

Lemma lookup_visit_all (auctions : list nat) (heap : gmap nat Dict) (x : nat) :
  visit_all repr format_1f config auctions heap !! x
  = (fun d => if bool_decide (x ∈ auctions)
              then visit repr format_1f config d else d) <$> heap !! x.
Proof.
  unfold visit_all. rewrite map_lookup_imap. by destruct (heap !! x).
Qed.

Lemma visit_all_nil (heap : gmap nat Dict) :
  visit_all repr format_1f config [] heap = heap.
Proof.
  apply map_eq. intros x. rewrite lookup_visit_all.
  by destruct (heap !! x).
Qed.

Lemma keeps_lookup (heap : gmap nat Dict) (x : nat) :
  keeps repr format_1f config heap x
  ↔ ∃ a r, heap !! x = Some a ∧ survivor repr format_1f config a = Some r.
Proof.
  unfold keeps. destruct (heap !! x) as [a|]; simpl.
  - split; [intros [r Hr]; eauto | intros (a' & r & [= <-] & Hr); eauto].
  - split; [by intros [? ?] | by intros (a' & r & [=] & _)].
Qed.

(** The loop: it leaves every auction it visited as one turn leaves it, and
    it has appended the references it keeps, in the order of the input. *)
Lemma filter_loop_spec (auctions : list nat) (heap : gmap nat Dict)
  (acc : list nat) :
  filter_loop repr format_1f config auctions heap acc
  = (visit_all repr format_1f config auctions heap,
     acc ++ filter (keeps repr format_1f config heap) auctions).
Proof.
  revert heap acc. induction auctions as [|x l IH]; intros heap acc; simpl.
  - by rewrite visit_all_nil, app_nil_r.
  - destruct (heap !! x) as [d|] eqn:Hx.
    + destruct (evaluate repr format_1f config d) as [d' r] eqn:He.
      rewrite IH. f_equal.
      * apply map_eq. intros y. rewrite !lookup_visit_all.
        destruct (decide (y = x)) as [->|Hne].
        -- rewrite lookup_insert_eq, Hx. simpl.
           rewrite (bool_decide_eq_true_2 (x ∈ x :: l)) by by left.
           assert (visit repr format_1f config d = d') as Hv
             by (unfold visit; by rewrite He).
           rewrite Hv. rewrite <- Hv at 1. rewrite visit_visit, Hv.
           by destruct (bool_decide (x ∈ l)).
        -- rewrite lookup_insert_ne by done.
           assert (bool_decide (y ∈ x :: l) = bool_decide (y ∈ l)) as ->; [|done].
           apply bool_decide_ext. rewrite elem_of_cons. by split; [intros [?|?] | right].
      * assert (Hk : ∀ y, keeps repr format_1f config (<[x:=d']> heap) y
                          ↔ keeps repr format_1f config heap y).
        { intros y. unfold keeps. destruct (decide (y = x)) as [->|Hne].
          - rewrite lookup_insert_eq, Hx. simpl.
            assert (visit repr format_1f config d = d') as <-
              by (unfold visit; by rewrite He).
            by rewrite survivor_visit.
          - by rewrite lookup_insert_ne. }
        rewrite (list_filter_iff _ _ l Hk), filter_cons.
        destruct (decide (keeps repr format_1f config heap x)) as [Hyes|Hno].
        -- apply keeps_lookup in Hyes as (a & r' & Ha & Hs).
           rewrite Hx in Ha. injection Ha as <-.
           apply survivor_Some in Hs. rewrite He in Hs. injection Hs as _ ->.
           by rewrite <- app_assoc.
        -- destruct r as [[]|e]; try done.
           exfalso. apply Hno, keeps_lookup. exists d, d'.
           split; [done|]. by apply survivor_Some.
    + rewrite IH. f_equal.
      * apply map_eq. intros y. rewrite !lookup_visit_all.
        destruct (decide (y = x)) as [->|Hne]; [by rewrite Hx|].
        assert (bool_decide (y ∈ x :: l) = bool_decide (y ∈ l)) as ->; [|done].
        apply bool_decide_ext. rewrite elem_of_cons. by split; [intros [?|?] | right].
      * rewrite filter_cons.
        destruct (decide (keeps repr format_1f config heap x)) as [Hyes|Hno];
          [|done].
        apply keeps_lookup in Hyes as (a & r' & Ha & _). congruence.
Qed.

Lemma filter_spec (heap : gmap nat Dict) (auctions : list nat) :
  filter_interesting_auctions repr format_1f config heap auctions
  = (visit_all repr format_1f config auctions heap,
     sort_desc
       (fun x => score_key (deref (visit_all repr format_1f config auctions heap) x))
       (filter (keeps repr format_1f config heap) auctions)).
Proof.
  unfold filter_interesting_auctions. by rewrite filter_loop_spec.
Qed.

(** A reference is returned when it is in the input and the loop keeps the
    auction it refers to; the heap then holds the annotated record there. *)
Lemma elem_of_filter (heap : gmap nat Dict) (auctions : list nat) (x : nat) :
  x ∈ (filter_interesting_auctions repr format_1f config heap auctions).2
  ↔ x ∈ auctions
    ∧ ∃ a r, heap !! x = Some a
        ∧ survivor repr format_1f config a = Some r
        ∧ (filter_interesting_auctions repr format_1f config heap auctions).1 !! x
          = Some r.
Proof.
  rewrite filter_spec. simpl. rewrite sort_desc_perm, list_elem_of_filter.
  rewrite keeps_lookup, lookup_visit_all. split.
  - intros [(a & r & Ha & Hs) Hin]. split; [done|]. exists a, r.
    split_and!; try done. rewrite Ha. simpl.
    rewrite bool_decide_eq_true_2 by done. f_equal. by apply survivor_is_visit.
  - intros [Hin (a & r & Ha & Hs & _)]. split; [|done]. eauto.
Qed.
End Survivors.

(** ** InterestFilter *)

(** C1: with the repository's [Config], which has no [MIN_PRICE], the price
    check raises [AttributeError] on every auction before anything is
    written, the handler drops the auction, and
    [filter_interesting_auctions] returns the empty list for every input,
    with every auction as it found it. *)
Theorem filter_with_repository_config_is_empty
  (repr : pyval → string) (format_1f : Qc → string)
  (token chat_id : string) (heap : gmap nat Dict) (auctions : list nat) :
  (∀ a, evaluate repr format_1f (Config_default token chat_id) a
        = (a, Raise (AttributeError "MIN_PRICE")))
  ∧ filter_interesting_auctions repr format_1f
      (Config_default token chat_id) heap auctions = (heap, [])
  ∧ filter_interesting_auctions repr format_1f
      (AuctionFilter_init token chat_id None) heap auctions = (heap, []).
Proof.
  assert (He : ∀ a, evaluate repr format_1f (Config_default token chat_id) a
                    = (a, Raise (AttributeError "MIN_PRICE"))) by done.
  assert (Hf : filter_interesting_auctions repr format_1f
                 (Config_default token chat_id) heap auctions = (heap, [])).
  { rewrite filter_spec. f_equal.
    - apply map_eq. intros x. rewrite lookup_visit_all.
      destruct (heap !! x) as [a|]; simpl; [|done].
      unfold visit. rewrite He. by destruct (bool_decide _).
    - rewrite filter_none; [done|].
      intros x _ (a & r & _ & Hs)%keeps_lookup.
      apply survivor_Some in Hs. by rewrite He in Hs. }
  done.
Qed.

(** C7: the list [filter_interesting_auctions] returns is in descending order
    of [interest_score], and the auctions of any one score appear in the
    order in which the input lists them. *)
Theorem filter_sorted_descending_stable
  (repr : pyval → string) (format_1f : Qc → string)
  (config : Config) (heap : gmap nat Dict) (auctions : list nat) :
  let heap' := (filter_interesting_auctions repr format_1f config heap auctions).1 in
  let out := (filter_interesting_auctions repr format_1f config heap auctions).2 in
  StronglySorted (score_ge heap') out
  ∧ (∀ x, x ∈ out →
       deref heap' x !! "interest_score" = Some (PNum (score_key (deref heap' x))))
  ∧ ∀ k, filter (fun x => score_key (deref heap' x) = k) out
         = filter (fun x => score_key (deref heap' x) = k)
             (filter (keeps repr format_1f config heap) auctions).
Proof.
  intros heap' out. split; [|split].
  - unfold out, heap'. rewrite filter_spec. simpl.
    apply (sort_desc_sorted
             (fun x => score_key
                (deref (visit_all repr format_1f config auctions heap) x))).
  - intros x (_ & a & r & _ & Hs & Hr)%elem_of_filter.
    unfold deref. fold heap' in Hr. rewrite Hr. simpl.
    by apply (survivor_score_key repr format_1f config a).
  - intros k. unfold out, heap'. rewrite filter_spec. simpl.
    apply (sort_desc_stable
             (fun x => score_key
                (deref (visit_all repr format_1f config auctions heap) x))).
Qed.

(** C10: filtering the output of [filter_interesting_auctions] again, with
    the same configuration, returns it unchanged and leaves every auction
    as the first call left it. *)
Theorem filter_idempotent
  (repr : pyval → string) (format_1f : Qc → string)
  (config : Config) (heap : gmap nat Dict) (auctions : list nat) :
  let once := filter_interesting_auctions repr format_1f config heap auctions in
  filter_interesting_auctions repr format_1f config once.1 once.2 = once.
Proof.
  intros once.
  assert (Hout : ∀ x, x ∈ once.2 →
            ∃ r, once.1 !! x = Some r
                 ∧ survivor repr format_1f config r = Some r).
  { intros x (_ & a & r & _ & Hs & Hr)%elem_of_filter. exists r.
    split; [done|]. by apply (survivor_fixed repr format_1f config a). }
  assert (Hsorted : StronglySorted
            (fun a b => score_key (deref once.1 b) ≤ score_key (deref once.1 a))%Qc
            once.2).
  { unfold once. rewrite filter_spec. simpl.
    apply (sort_desc_sorted
             (fun x => score_key
                (deref (visit_all repr format_1f config auctions heap) x))). }
  assert (Hheap : visit_all repr format_1f config once.2 once.1 = once.1).
  { apply map_eq. intros x. rewrite lookup_visit_all.
    destruct (bool_decide_reflect (x ∈ once.2)) as [Hin|Hnin].
    - destruct (Hout x Hin) as (r & -> & Hs). simpl. f_equal.
      by apply survivor_is_visit.
    - by destruct (once.1 !! x). }
  rewrite filter_spec, Hheap. destruct once as [heap' out] eqn:Honce.
  simpl in *. f_equal.
  rewrite filter_all.
  - by apply (sort_desc_id (fun x => score_key (deref heap' x))).
  - intros x Hx. apply keeps_lookup. destruct (Hout x Hx) as (r & Hr & Hs).
    eauto.
Qed.

Section Cascade.
Variable repr : pyval → string.
Variable format_1f : Qc → string.

(** Where the brand of a survivor comes from: the brand the input record
    carries, or the first premium brand that occurs in its title when it
    carries none. *)
Lemma evaluate_brand_origin (config : Config) (a r : Dict) :
  evaluate repr format_1f config a = (r, Ok true) →
  ∃ pbs title b, PREMIUM_BRANDS config = Some pbs
    ∧ dict_get a "title" (PStr "") = PStr title
    ∧ dict_get r "title" (PStr "") = PStr title
    ∧ r !! "brand" = Some (PStr b)
    ∧ (truthy (dict_get a "brand" PNone) = true → a !! "brand" = Some (PStr b))
    ∧ (truthy (dict_get a "brand" PNone) = false →
       first_occurring (Str.lower title) pbs = Some b).
Proof.
  intros (a2 & rs & s & Hint & Hrs & Hs & ->)%evaluate_true.
  apply is_auction_interesting_true in Hint
    as (a1 & Hprice & Hbrand & Htime & Hbids & Hkw & Hdisc).
  pose proof (has_good_discount_frame _ _ _ _ "brand" Hdisc ltac:(done)) as F2.
  pose proof (has_good_discount_frame _ _ _ _ "title" Hdisc ltac:(done)) as F2t.
  pose proof (is_premium_brand_frame _ _ _ _ "title" Hbrand ltac:(done)) as F1t.
  apply is_premium_brand_true in Hbrand
    as (pbs & title & b & Hp & Htitle & Hin & Hb & Hcase).
  exists pbs, title, b. split; [done|]. split; [done|]. split; [|split; [|split]].
  - rewrite <- Htitle. apply dict_get_ext.
    rewrite !lookup_insert_ne by done. by rewrite F2t, F1t.
  - rewrite !lookup_insert_ne by done. by rewrite F2.
  - intros Ht. destruct Hcase as [[_ ->]|[Hf _]]; [done | congruence].
  - intros Ht. destruct Hcase as [[Hf _]|(_ & Hf & _)]; [congruence | done].
Qed.

(** The cascade on what [evaluate] keeps. *)
Lemma survivor_passes_cascade (base : Config) (p : Policy) (a r : Dict) :
  survivor repr format_1f (with_policy base p) a = Some r →
  passes_cascade repr format_1f base p a r.
Proof.
  intros Hsv. apply survivor_Some in Hsv as He. unfold passes_cascade.
  pose proof (evaluate_checked _ _ _ _ _ He)
    as [Hprice Hbrand Htime Hbids Hkw Hdisc _ _].
  apply evaluate_brand_origin in He as Horigin.
  destruct Horigin as (pbs & title & brand & Hp & Hta & Htr & Hb & Hset & Hunset).
  simpl in Hp. injection Hp as <-.
  apply price_in_range_true in Hprice as (lo & hi & c & Hlo & Hhi & Hc & Hrange).
  simpl in Hlo, Hhi. injection Hlo as <-. injection Hhi as <-.
  apply is_premium_brand_true in Hbrand
    as (pbs & title0 & brand' & Hp & _ & Hin & Hb' & _).
  simpl in Hp. injection Hp as <-.
  assert (brand' = brand) as -> by congruence.
  apply time_remaining_valid_true in Htime as (mx & t & Hmx & Ht & Htrange).
  simpl in Hmx. injection Hmx as <-.
  apply has_minimum_activity_true in Hbids as (mb & b & Hmb & Hbd & Hmin).
  simpl in Hmb. injection Hmb as <-.
  apply has_excluded_keywords_false in Hkw as (kws & title' & Hkws & Ht' & Hno).
  simpl in Hkws. injection Hkws as <-.
  assert (title' = title) as -> by congruence.
  exists c, t, b, title, brand. split_and!; try done.
  - apply Hrange.
  - apply Hrange.
  - intros Hf. apply Hunset in Hf. apply first_occurring_elem in Hf as [_ Hocc].
    by apply contains_app.
  - apply Htrange.
  - apply Htrange.
  - intros kw Hkw Hocc%contains_app. rewrite (Hno kw Hkw) in Hocc. done.
  - split; [intros o1 Ho Hnz Hlt | intros Hnot].
    {
    apply has_good_discount_true in Hdisc
      as [(o' & c' & md & Ho' & _ & Hc' & _ & Hmd & Hle & Hr)|(_ & Hnd & _)].
    + assert (o' = o1) as -> by congruence. assert (c' = c) as -> by congruence.
      simpl in Hmd. injection Hmd as <-. split; [|done].
      rewrite Hr. apply lookup_insert_eq.
    + rewrite Ho, Hc in Hnd. simpl in Hnd.
      rewrite (bool_decide_eq_false_2 (o1 = 0%Qc)) in Hnd by done. simpl in Hnd.
      injection Hnd as Hle%bool_decide_eq_true. by apply Qcle_not_lt in Hle. }
    apply has_good_discount_true in Hdisc
      as [(o' & c' & md & Ho' & Hnz & Hc' & Hlt & _)|(_ & _ & Halt)].
    + exfalso. apply Hnot. exists o'. assert (c' = c) as -> by congruence. done.
    + apply alternative_value_check_true in Halt
        as (c' & b' & Hc' & Hb'' & Hor).
      assert (c' = c) as -> by congruence. assert (b' = b) as -> by congruence.
      destruct Hor as [((pb & Hpb & Hin') & H1 & H2)|(H1 & mb & Hmb & H2)].
      * left. split; [|done]. exists pb. split; [done|].
        rewrite (dict_get_lookup r "brand" (PStr brand)) in Hin' by done.
        simpl in Hin'. by injection Hin'.
      * right. simpl in Hmb. injection Hmb as <-. done.
Qed.

End Cascade.

Lemma py_min_Qc_min (x y : Qc) : py_min x y = Qc_min x y.
Proof.
  unfold py_min, Qc_min.
  destruct (bool_decide_reflect (y < x)%Qc) as [Hlt|Hge],
    (bool_decide_reflect (x ≤ y)%Qc) as [Hle|Hnle]; try done.
  - by apply Qcle_not_lt in Hle.
  - by apply Qcnot_le_lt in Hnle.
Qed.

Lemma bonus_loop_points (brand : string) (score : Qc) :
  bonus_loop (PStr brand) premium_bonus score = Ok (score + brand_points brand)%Qc.
Proof.
  unfold premium_bonus, brand_points. simpl.
  repeat (destruct (Str.contains _ brand); simpl; [done|]).
  by rewrite Qcplus_0_r.
Qed.

Section Score.
Variable repr : pyval → string.
Variable format_1f : Qc → string.

End Score.

(** An auction on which [evaluate] raises is left out, and the call returns
    what it returns without that entry; the heap differs by what the failed
    turn wrote before it raised. *)
Lemma filter_skips_raising
  (repr : pyval → string) (format_1f : Qc → string) (config : Config)
  (heap : gmap nat Dict) (l1 l2 : list nat) (x : nat) (a a' : Dict) (e : exn) :
  heap !! x = Some a →
  evaluate repr format_1f config a = (a', Raise e) →
  filter_interesting_auctions repr format_1f config heap (l1 ++ x :: l2)
  = (<[x := a']>
       (filter_interesting_auctions repr format_1f config heap (l1 ++ l2)).1,
     (filter_interesting_auctions repr format_1f config heap (l1 ++ l2)).2).
Proof.
  intros Hx He.
  assert (Hno : ¬ keeps repr format_1f config heap x).
  { intros (a0 & r & Ha0 & Hs%survivor_Some)%keeps_lookup. congruence. }
  assert (Hl : filter (keeps repr format_1f config heap) (l1 ++ x :: l2)
               = filter (keeps repr format_1f config heap) (l1 ++ l2)).
  { by rewrite !filter_app, filter_cons, decide_False. }
  assert (Hh : visit_all repr format_1f config (l1 ++ x :: l2) heap
               = <[x := a']> (visit_all repr format_1f config (l1 ++ l2) heap)).
  { apply map_eq. intros y. destruct (decide (y = x)) as [->|Hne].
    - rewrite lookup_insert_eq, lookup_visit_all, Hx. simpl.
      rewrite bool_decide_eq_true_2
        by (apply elem_of_app; right; by left).
      unfold visit. by rewrite He.
    - rewrite lookup_insert_ne, !lookup_visit_all by done.
      assert (bool_decide (y ∈ l1 ++ x :: l2) = bool_decide (y ∈ l1 ++ l2))
        as ->; [|done].
      apply bool_decide_ext. rewrite !elem_of_app, elem_of_cons.
      split; [intros [?|[?|?]] | intros [?|?]]; auto; done. }
  rewrite !filter_spec, Hl, Hh. simpl. f_equal.
  apply sort_desc_ext. intros y [Hy _]%list_elem_of_filter.
  unfold deref. rewrite lookup_insert_ne; [done|]. by intros ->.
Qed.

(** The call writes in place: it leaves every auction that the input refers
    to as one turn of the loop leaves it, whether the auction is returned,
    dropped or raised on, and touches nothing else. *)
Theorem filter_writes_in_place
  (repr : pyval → string) (format_1f : Qc → string) (config : Config)
  (heap : gmap nat Dict) (auctions : list nat) (x : nat) :
  (filter_interesting_auctions repr format_1f config heap auctions).1 !! x
  = (fun d => if bool_decide (x ∈ auctions)
              then (evaluate repr format_1f config d).1 else d) <$> heap !! x.
Proof. rewrite filter_spec. simpl. apply lookup_visit_all. Qed.

(** ** ListingExtractor *)

Lemma first_valid_id_None (ps : list Re.pattern) (url : string) :
  first_valid_id ps url = None
  ↔ ∀ p g, p ∈ ps → Re.re_search p url = Some g → valid_id g = false.
Proof.
  induction ps as [|p ps IH]; simpl.
  - split; [|done]. intros _ p g Hp. by apply elem_of_nil in Hp.
  - destruct (Re.re_search p url) as [g|] eqn:Hg.
    + destruct (valid_id g) eqn:Hv.
      * split; [done|]. intros Hall. specialize (Hall p g). rewrite Hall in Hv; [done| |done].
        by left.
      * rewrite IH. split.
        -- intros Hall p' g' [->|Hp']%elem_of_cons Hg'; [congruence | eauto].
        -- intros Hall p' g' Hp'. apply Hall. by right.
    + rewrite IH. split.
      * intros Hall p' g' [->|Hp']%elem_of_cons Hg'; [congruence | eauto].
      * intros Hall p' g' Hp'. apply Hall. by right.
Qed.

Lemma extract_ebay_id_None (url : string) :
  _extract_ebay_id url = None ↔ no_valid_id url.
Proof.
  unfold _extract_ebay_id, no_valid_id.
  destruct (Str.contains "ebay.com" (Str.lower url)) eqn:Hc.
  - case_bool_decide as Hu; [by subst|]. cbn [orb negb].
    rewrite first_valid_id_None. split; [by right | by intros [|]].
  - rewrite orb_true_r. split; [by left | done].
Qed.

Lemma denied_title_rejected (title : string) :
  title = ""
  ∨ (∃ phrase,
       phrase ∈ ["shop on ebay"; "save this search"; "sponsored"; "advertisement"]
       ∧ Str.contains phrase (Str.lower title) = true) →
  bool_decide (title = "")
  || existsb (fun invalid => Str.contains invalid (Str.lower title)) invalid_titles
  = true.
Proof.
  intros [->|(phrase & Hin & Hc)]; [done|].
  apply orb_true_iff. right. apply existsb_exists. exists phrase. split; [|done].
  apply list_elem_of_In.
  repeat (apply elem_of_cons in Hin as [->|Hin]; [by_decide|]).
  by apply elem_of_nil in Hin.
Qed.

Section ScraperFacts.
Context {tag : Type} `{Soup tag}.
Variable now : Z.

Lemma parse_items_kept (items : list tag) (acc : list Dict) :
  parse_items now items acc = acc ++ omap (kept now) items.
Proof.
  revert acc. induction items as [|item items IH]; intros acc; simpl.
  - by rewrite app_nil_r.
  - rewrite IH. unfold kept at 2.
    destruct (_parse_auction_item now item) as [d|]; [|done].
    case_bool_decide; [done|]. by rewrite <- app_assoc.
Qed.

(** The denylist holds the empty text, which occurs in every title, so the
    title check rejects every fragment whose title resolves: the extractor
    yields no record at all. *)
Lemma parse_auction_item_none (item : tag) : _parse_auction_item now item = None.
Proof.
  unfold _parse_auction_item, _parse_auction_item_body.
  destruct (title_elem_of item) as [[t|]|e]; rewrite ?bind_ok, ?bind_raise;
    try done.
  destruct (get_text t) as [title|e]; rewrite ?bind_ok, ?bind_raise; [|done].
  assert (existsb (fun invalid => Str.contains invalid (Str.lower title))
            invalid_titles = true) as ->; [|by rewrite orb_true_r].
  apply existsb_exists. exists "". split; [|apply contains_empty].
  apply list_elem_of_In. by_decide.
Qed.

(** C5: a fragment yields no record when no title resolves, the title is
    empty or holds a denylisted phrase, no link resolves, the link's URL
    gives no valid identifier, no price resolves, or the price text does
    not parse. *)
Theorem unextractable_yields_no_record (item : tag) :
  unextractable item → _parse_auction_item now item = None.
Proof.
  intros Hu. unfold _parse_auction_item, _parse_auction_item_body.
  destruct Hu as [Ht|t title Ht Htext Hden|t Ht Hlink|t l url Ht Hlink Hurl Hid
                 |Hp|e text Hp Htext Hparse].
  - by rewrite Ht.
  - by rewrite Ht, bind_ok, Htext, bind_ok, denied_title_rejected.
  - rewrite Ht, bind_ok.
    destruct (get_text t) as [title|?]; rewrite ?bind_ok, ?bind_raise; [|done].
    destruct (_ || _); [done|]. by rewrite Hlink.
  - rewrite Ht, bind_ok.
    destruct (get_text t) as [title|?]; rewrite ?bind_ok, ?bind_raise; [|done].
    destruct (_ || _); [done|].
    rewrite Hlink, bind_ok, Hurl, bind_ok.
    by rewrite (proj2 (extract_ebay_id_None url) Hid).
  - destruct (title_elem_of item) as [[t|]|?];
      rewrite ?bind_ok, ?bind_raise; try done.
    destruct (get_text t) as [title|?]; rewrite ?bind_ok, ?bind_raise; [|done].
    destruct (_ || _); [done|].
    destruct (link_elem_of t item) as [[l|]|?];
      rewrite ?bind_ok, ?bind_raise; try done.
    destruct (get l "href" "") as [url|?]; rewrite ?bind_ok, ?bind_raise; [|done].
    destruct (_extract_ebay_id url) as [ebay_id|]; [|done].
    case_bool_decide; [done|]. by rewrite Hp.
  - destruct (title_elem_of item) as [[t|]|?];
      rewrite ?bind_ok, ?bind_raise; try done.
    destruct (get_text t) as [title|?]; rewrite ?bind_ok, ?bind_raise; [|done].
    destruct (_ || _); [done|].
    destruct (link_elem_of t item) as [[l|]|?];
      rewrite ?bind_ok, ?bind_raise; try done.
    destruct (get l "href" "") as [url|?]; rewrite ?bind_ok, ?bind_raise; [|done].
    destruct (_extract_ebay_id url) as [ebay_id|]; [|done].
    case_bool_decide; [done|].
    by rewrite Hp, bind_ok, Htext, bind_ok, Hparse.
Qed.
End ScraperFacts.

(** ** Failures stay with the item that raised them *)

(** C6: a fragment whose extraction raises yields no record and the other
    fragments of the page are processed as if it were absent; an auction
    whose evaluation raises is left out and the rest of the batch is filtered
    as if it were absent, the auction itself keeping what was written to it
    before the exception. *)
Theorem failure_never_aborts_batch {tag : Type} `{Soup tag}
  (now : Z) (items1 items2 : list tag) (item : tag)
  (repr : pyval → string) (format_1f : Qc → string) (config : Config)
  (heap : gmap nat Dict) (l1 l2 : list nat) (x : nat) (a : Dict) :
  ((∃ e, _parse_auction_item_body now item = Raise e) →
   _parse_auction_item now item = None
   ∧ parse_items now (items1 ++ item :: items2) []
     = parse_items now items1 [] ++ parse_items now items2 [])
  ∧ (heap !! x = Some a →
     (∃ e, (evaluate repr format_1f config a).2 = Raise e) →
     filter_interesting_auctions repr format_1f config heap (l1 ++ x :: l2)
     = (<[x := (evaluate repr format_1f config a).1]>
          (filter_interesting_auctions repr format_1f config heap (l1 ++ l2)).1,
        (filter_interesting_auctions repr format_1f config heap (l1 ++ l2)).2)).
Proof.
  split.
  - intros [e He].
    assert (Hnone : _parse_auction_item now item = None).
    { unfold _parse_auction_item. by rewrite He. }
    split; [done|].
    rewrite !parse_items_kept, !app_nil_l, omap_app. f_equal.
    change (omap (kept now) (item :: items2))
      with (match kept now item with
            | Some d => d :: omap (kept now) items2
            | None => omap (kept now) items2
            end).
    unfold kept at 1. by rewrite Hnone.
  - intros Hx [e He].
    destruct (evaluate repr format_1f config a) as [a' r] eqn:Hev.
    simpl in He. subst r. by apply (filter_skips_raising _ _ _ _ _ _ _ a a' e).
Qed.

(** ** The statements at sample inputs *)



Lemma unextractable_yields_no_record_witness :
  unextractable sample_boilerplate
  ∧ _parse_auction_item 0 sample_boilerplate = None
  ∧ unextractable sample_short_id
  ∧ _parse_auction_item 0 sample_short_id = None.
Proof.
  assert (H1 : unextractable sample_boilerplate).
  { apply (denied_title _ (MockElem "Shop on eBay" None) "Shop on eBay");
      [reflexivity | reflexivity |].
    right. exists "shop on ebay". split; [by_decide | reflexivity]. }
  assert (H2 : unextractable sample_short_id).
  { apply (no_identifier _ (MockElem "Apple MacBook Pro 16" None)
             (MockElem "" (Some "https://www.ebay.com/itm/123"))
             "https://www.ebay.com/itm/123");
      [reflexivity | reflexivity | reflexivity |].
    apply extract_ebay_id_None. reflexivity. }
  split; [exact H1|]. split; [exact (unextractable_yields_no_record 0 _ H1)|].
  split; [exact H2|]. exact (unextractable_yields_no_record 0 _ H2).
Defined.

Lemma failure_never_aborts_batch_witness :
  (∃ e, _parse_auction_item_body 0 MockBroken = Raise e)
  ∧ sample_heap !! 3%nat = Some sample_malformed
  ∧ (∃ e, (evaluate sample_repr sample_format_1f sample_config sample_malformed).2
          = Raise e)
  ∧ parse_items 0 ([sample_boilerplate] ++ MockBroken :: [sample_listing]) []
    = parse_items 0 [sample_boilerplate] [] ++ parse_items 0 [sample_listing] []
  ∧ filter_interesting_auctions sample_repr sample_format_1f sample_config
      sample_heap ([0; 2] ++ 3 :: [0])%nat
    = (<[3%nat := (evaluate sample_repr sample_format_1f sample_config
                     sample_malformed).1]>
         (filter_interesting_auctions sample_repr sample_format_1f sample_config
            sample_heap ([0; 2] ++ [0])%nat).1,
       (filter_interesting_auctions sample_repr sample_format_1f sample_config
          sample_heap ([0; 2] ++ [0])%nat).2).
Proof.
  assert (H1 : ∃ e, _parse_auction_item_body 0 MockBroken = Raise e)
    by (eexists; reflexivity).
  assert (H2 : sample_heap !! 3%nat = Some sample_malformed) by reflexivity.
  assert (H3 : ∃ e, (evaluate sample_repr sample_format_1f sample_config
                       sample_malformed).2 = Raise e)
    by (eexists; reflexivity).
  destruct (failure_never_aborts_batch 0 [sample_boilerplate] [sample_listing]
              MockBroken sample_repr sample_format_1f sample_config
              sample_heap [0; 2]%nat [0]%nat 3%nat sample_malformed)
    as [Hitem Hrec].
  split; [exact H1|]. split; [exact H2|]. split; [exact H3|].
  split; [apply (Hitem H1) | apply (Hrec H2 H3)].
Defined.

(** Three records with scores 4, 9.5 and 9.5: the two that tie come first, in
    the order the input lists them. *)
Example sort_ties_keep_input_order :
  sort_desc snd [("idx0", dec 40 10); ("idx1", dec 95 10); ("idx2", dec 95 10)]
  = [("idx1", dec 95 10); ("idx2", dec 95 10); ("idx0", dec 40 10)].
Proof. by_decide. Qed.

(** ** The model at sample inputs *)

Example extract_ebay_id_examples :
  _extract_ebay_id "https://www.ebay.com/itm/123456789012?hash=item5" = Some "123456789012"
  ∧ _extract_ebay_id "https://www.ebay.com/itm/abc/123456789012" = Some "123456789012"
  ∧ _extract_ebay_id "https://www.ebay.com/p?item=123456789" = Some "123456789"
  ∧ _extract_ebay_id "https://www.EBAY.com/p?hash=item12345678abc" = Some "12345678"
  ∧ _extract_ebay_id "https://www.ebay.com/itm/123" = None
  ∧ _extract_ebay_id "https://example.org/itm/123456789012" = None.
Proof. repeat split; reflexivity. Qed.

Example parse_price_examples :
  _parse_price "US $12." = Some (Qc_of_Z 12)
  ∧ _parse_price "EUR 0.50" = Some (dec 1 2)
  ∧ _parse_price "1.2.3" = None
  ∧ _parse_price "." = None.
Proof. repeat split; by_decide. Qed.

Example parse_time_remaining_examples :
  _parse_time_remaining "2d 3h" = Qc_of_Z 51
  ∧ _parse_time_remaining "10h 5m" = (Qc_of_Z 10 + dec 5 60)%Qc
  ∧ _parse_time_remaining "2H 15M" = dec 225 100
  ∧ _parse_time_remaining "Unknown" = 0%Qc.
Proof. repeat split; by_decide. Qed.

Example round2_examples :
  round2 (dec 1 8) = dec 12 100
  ∧ round2 (dec 3 8) = dec 38 100
  ∧ round2 (dec 11 1) = Qc_of_Z 11.
Proof. repeat split; by_decide. Qed.

(** The two sample auctions that qualify come back annotated, the one with
    the higher score first and the one the batch lists twice, twice; the
    auction out of the price range and the one with a text price are left
    out, as they were. *)
Example filter_sample_batch :
  filter_interesting_auctions sample_repr sample_format_1f sample_config
    sample_heap sample_batch
  = (list_to_map
       [ (0%nat, sample_survivor); (1%nat, sample_no_brand);
         (2%nat, sample_discounted_survivor); (3%nat, sample_malformed) ],
     [2; 0; 0]%nat).
Proof. by_decide. Qed.

(** What a turn wrote stays when the auction is not kept: the brand found in
    the title of an auction that ends too late, the discount of an auction
    whose discount is too small, and the brand of an auction on which
    [_get_filter_reasons] raises. *)
Example dropped_auction_keeps_writes :
  evaluate sample_repr sample_format_1f sample_config
    (<["time_remaining_hours" := PNum (Qc_of_Z 120)]> sample_macbook)
  = (<["brand" := PStr "MacBook"]>
       (<["time_remaining_hours" := PNum (Qc_of_Z 120)]> sample_macbook),
     Ok false)
  ∧ evaluate sample_repr sample_format_1f sample_config
      (<["original_price" := PNum (Qc_of_Z 460)]> sample_discounted)
    = (<["discount_percent" := PNum (dec 50 23)]>
         (<["original_price" := PNum (Qc_of_Z 460)]> sample_discounted),
       Ok false)
  ∧ evaluate sample_repr sample_format_1f sample_config
      (<["discount_percent" := PStr "n/a"]> sample_macbook)
    = (<["brand" := PStr "MacBook"]>
         (<["discount_percent" := PStr "n/a"]> sample_macbook),
       Raise TypeError).
Proof. split_and!; by_decide. Qed.

(** A fragment with a title, a link with a twelve-digit identifier and a
    price still yields no record. *)
Example parse_sample_listing : _parse_auction_item 0 sample_listing = None.
Proof. reflexivity. Qed.

(** * Rounding *)

Lemma Qc_of_Z_le (a b : Z) : a ≤ b ↔ (Qc_of_Z a ≤ Qc_of_Z b)%Qc.
Proof.
  unfold Qcle, Qc_of_Z, Q2Qc. cbn [this]. repeat setoid_rewrite Qred_correct. by rewrite Zle_Qle.
Qed.

Lemma round_half_even_le (x : Qc) (k : Z) :
  (x ≤ Qc_of_Z k)%Qc → round_half_even x ≤ k.
Proof.
  unfold Qcle, Qc_of_Z, Q2Qc. cbn [this]. repeat setoid_rewrite Qred_correct.
  unfold Qle, round_half_even. simpl.
  set (n := Qnum (this x)). set (d := Z.pos (Qden (this x))).
  intros Hle.
  assert (Hd : 0 < d) by (unfold d; lia).
  pose proof (Z.div_mod n d ltac:(lia)) as Hdm.
  pose proof (Z.mod_pos_bound n d Hd) as Hm.
  repeat (match goal with |- context [if ?c then _ else _] => destruct c eqn:? end);
    try nia.
  all: rewrite ?Z.ltb_lt, ?Z.ltb_ge in *; nia.
Qed.

Lemma round_half_even_ge (x : Qc) (k : Z) :
  (Qc_of_Z k ≤ x)%Qc → k ≤ round_half_even x.
Proof.
  unfold Qcle, Qc_of_Z, Q2Qc. cbn [this]. repeat setoid_rewrite Qred_correct.
  unfold Qle, round_half_even. simpl.
  set (n := Qnum (this x)). set (d := Z.pos (Qden (this x))).
  intros Hle.
  assert (Hd : 0 < d) by (unfold d; lia).
  pose proof (Z.div_mod n d ltac:(lia)) as Hdm.
  pose proof (Z.mod_pos_bound n d Hd) as Hm.
  repeat (match goal with |- context [if ?c then _ else _] => destruct c eqn:? end);
    rewrite ?Z.ltb_lt, ?Z.ltb_ge in *; nia.
Qed.

(** [round(x, 2)] stays between the whole numbers that bound [x]. *)
Lemma round2_between (x : Qc) (lo hi : Z) :
  (Qc_of_Z lo ≤ x ≤ Qc_of_Z hi)%Qc → (Qc_of_Z lo ≤ round2 x ≤ Qc_of_Z hi)%Qc.
Proof.
  intros [Hlo Hhi]. unfold round2.
  assert (H1 : lo * 100 ≤ round_half_even (x * Qc_of_Z 100)).
  { apply round_half_even_ge. revert Hlo.
    unfold Qcle, Qc_of_Z, Qcmult, Q2Qc. cbn [this]. repeat setoid_rewrite Qred_correct.
    rewrite inject_Z_mult. intros. change (inject_Z 100) with 100%Q. nra. }
  assert (H2 : round_half_even (x * Qc_of_Z 100) ≤ hi * 100).
  { apply round_half_even_le. revert Hhi.
    unfold Qcle, Qc_of_Z, Qcmult, Q2Qc. cbn [this]. repeat setoid_rewrite Qred_correct.
    rewrite inject_Z_mult. intros. change (inject_Z 100) with 100%Q. nra. }
  rewrite Zle_Qle, inject_Z_mult in H1, H2.
  change (inject_Z 100) with 100%Q in H1, H2.
  set (r := round_half_even (x * Qc_of_Z 100)) in *.
  unfold Qcle, Qc_of_Z, Qcdiv, Qcmult, Qcinv, Q2Qc. cbn [this].
  repeat setoid_rewrite Qred_correct.
  change (/ inject_Z 100)%Q with (1 # 100)%Q.
  split; lra.
Qed.

(** * Further properties of the filter *)

Lemma writes_mono {A : Type} (W W' : list string) (m : stateful A) :
  W ⊆ W' → writes W m → writes W' m.
Proof. intros Hsub Hm d k Hk. apply Hm. intros Hin. by apply Hk, Hsub. Qed.

Lemma keeps_brand_writes {A : Type} (W : list string) (m : stateful A) :
  "brand" ∉ W → writes W m → keeps_brand m.
Proof. intros Hb Hm d _. by apply Hm. Qed.

Lemma keeps_brand_sbind {A B : Type} (m : stateful A) (k : A → stateful B) :
  keeps_brand m → (∀ a, keeps_brand (k a)) → keeps_brand (sbind m k).
Proof.
  intros Hm Hk d Hd. unfold sbind. specialize (Hm d Hd).
  destruct (m d) as [d1 [a|e]]; simpl in *; [|done].
  rewrite <- Hm. apply Hk. unfold dict_get. by rewrite Hm.
Qed.

Section Frame.
Variable repr : pyval → string.
Variable format_1f : Qc → string.
Variable config : Config.

Lemma evaluate_writes : writes written_keys (evaluate repr format_1f config).
Proof.
  unfold evaluate, _is_auction_interesting, written_keys.
  repeat first
    [ apply writes_sret
    | apply writes_read
    | apply writes_set_item; by_decide
    | apply is_premium_brand_writes; by_decide
    | apply has_good_discount_writes; by_decide
    | apply writes_sbind; [|intros ?]
    | match goal with |- writes _ (if ?b then _ else _) => destruct b end ].
Qed.

Lemma is_premium_brand_keeps_brand : keeps_brand (_is_premium_brand config).
Proof.
  intros d Hd. rewrite is_premium_brand_eq.
  destruct (py_lower _); [|done]. destruct (getattr _ _); [|done].
  by rewrite Hd.
Qed.

Lemma evaluate_keeps_brand : keeps_brand (evaluate repr format_1f config).
Proof.
  unfold evaluate, _is_auction_interesting.
  repeat first
    [ apply is_premium_brand_keeps_brand
    | apply (keeps_brand_writes ["discount_percent"]);
        [by_decide | apply has_good_discount_writes; by_decide]
    | apply (keeps_brand_writes []); [by_decide | apply writes_sret]
    | apply (keeps_brand_writes []); [by_decide | apply writes_read]
    | apply (keeps_brand_writes ["filter_reason"; "interest_score"]);
        [by_decide | apply writes_set_item; by_decide]
    | apply keeps_brand_sbind; [|intros ?]
    | match goal with |- keeps_brand (if ?b then _ else _) => destruct b end ].
Qed.

(** The filter call touches the auctions it is given under four keys only:
    the heap holds the same auctions as before, each with every other key as
    it was, and a brand that was set is never replaced. *)
Theorem filter_touches_four_keys (heap : gmap nat Dict) (auctions : list nat)
  (x : nat) :
  option_Forall2 touched_only
    ((filter_interesting_auctions repr format_1f config heap auctions).1 !! x)
    (heap !! x).
Proof.
  rewrite filter_spec. simpl. rewrite lookup_visit_all.
  destruct (heap !! x) as [a|]; simpl; constructor.
  destruct (bool_decide (x ∈ auctions)); [|by split].
  split; [apply evaluate_writes | apply evaluate_keeps_brand].
Qed.

(** The order in which the input lists the auctions decides nothing but the
    order of ties: a rearranged input leaves the same heap and returns the
    same auctions, as often. *)
Theorem filter_permutation (heap : gmap nat Dict) (l1 l2 : list nat) :
  l1 ≡ₚ l2 →
  (filter_interesting_auctions repr format_1f config heap l1).1
  = (filter_interesting_auctions repr format_1f config heap l2).1
  ∧ (filter_interesting_auctions repr format_1f config heap l1).2
    ≡ₚ (filter_interesting_auctions repr format_1f config heap l2).2.
Proof.
  intros Hp. rewrite !filter_spec. simpl. split.
  - apply map_eq. intros x. rewrite !lookup_visit_all.
    assert (bool_decide (x ∈ l1) = bool_decide (x ∈ l2)) as ->; [|done].
    apply bool_decide_ext. by rewrite Hp.
  - rewrite !sort_desc_perm. by rewrite Hp.
Qed.

Lemma mild_bind {A B : Type} (m : result A) (k : A → result B) :
  mild m → (∀ a, mild (k a)) → mild (bind m k).
Proof. destruct m; simpl; auto. Qed.

Lemma mild_sbind {A B : Type} (m : stateful A) (k : A → stateful B) :
  (∀ d, mild (m d).2) → (∀ a d, mild (k a d).2) → ∀ d, mild (sbind m k d).2.
Proof.
  intros Hm Hk d. unfold sbind. specialize (Hm d).
  destruct (m d) as [d1 [a|e]]; simpl in *; [apply Hk | done].
Qed.

Lemma mild_as_num (v : pyval) : mild (as_num v).
Proof. destruct v; simpl; auto. Qed.

Lemma mild_getattr {A : Type} (name : string) (f : option A) :
  mild (getattr name f).
Proof. destruct f; simpl; eauto. Qed.

Lemma mild_py_lower (v : pyval) : mild (py_lower v).
Proof. destruct v; simpl; eauto. Qed.

Lemma mild_py_le (x y : pyval) : mild (py_le x y).
Proof. destruct x, y; simpl; auto. Qed.

Lemma mild_py_in (needle : string) (hay : pyval) : mild (py_in needle hay).
Proof. destruct hay; simpl; auto. Qed.

Lemma mild_any_in (brand : pyval) (pbs : list string) : mild (any_in brand pbs).
Proof.
  induction pbs as [|pb pbs IH]; simpl; [done|].
  apply mild_bind; [apply mild_py_in|]. by intros [].
Qed.

Lemma mild_bonus_loop (brand : pyval) (table : list (string * Qc)) (score : Qc) :
  mild (bonus_loop brand table score).
Proof.
  induction table as [|[premium bonus] table IH]; simpl; [done|].
  apply mild_bind; [apply mild_py_in|]. by intros [].
Qed.

#[local] Hint Resolve mild_as_num mild_getattr mild_py_lower mild_py_le
  mild_any_in mild_bonus_loop : mild.

Lemma mild_price_in_range (a : Dict) : mild (_price_in_range config a).
Proof. unfold _price_in_range. mild_step @mild_bind. Qed.

Lemma mild_time_remaining_valid (a : Dict) : mild (_time_remaining_valid config a).
Proof. unfold _time_remaining_valid. mild_step @mild_bind. Qed.

Lemma mild_has_minimum_activity (a : Dict) : mild (_has_minimum_activity config a).
Proof. unfold _has_minimum_activity. mild_step @mild_bind. Qed.

Lemma mild_has_excluded_keywords (a : Dict) :
  mild (_has_excluded_keywords config a).
Proof. unfold _has_excluded_keywords. mild_step @mild_bind. Qed.

Lemma mild_alternative_value_check (a : Dict) :
  mild (_alternative_value_check config a).
Proof. unfold _alternative_value_check. mild_step @mild_bind. Qed.

Lemma mild_get_filter_reasons (a : Dict) :
  mild (_get_filter_reasons repr format_1f config a).
Proof. unfold _get_filter_reasons. mild_step @mild_bind. Qed.

Lemma mild_calculate_interest_score (a : Dict) :
  mild (_calculate_interest_score a).
Proof. unfold _calculate_interest_score. mild_step @mild_bind. Qed.

Lemma mild_is_premium_brand (a : Dict) : mild (_is_premium_brand config a).2.
Proof.
  rewrite is_premium_brand_eq.
  pose proof (mild_py_lower (dict_get a "title" (PStr ""))) as Hl.
  destruct (py_lower _); [|done].
  pose proof (mild_getattr "PREMIUM_BRANDS" (PREMIUM_BRANDS config)) as Hg.
  destruct (getattr _ _); [|done].
  destruct (truthy _); [done|]. by destruct (first_occurring _ _).
Qed.

(** The division of the discount is guarded: the original price it divides
    by has passed [not original_price], so it is not zero. *)
Lemma mild_has_good_discount (a : Dict) : mild (_has_good_discount config a).2.
Proof.
  rewrite has_good_discount_eq. simpl.
  destruct (dict_get a "original_price" PNone) as [|s|o|l|t] eqn:Ho; simpl;
    try exact (mild_alternative_value_check a).
  - destruct (bool_decide (s = "")); simpl;
      [exact (mild_alternative_value_check a)|].
    destruct (dict_get a "current_price" (PNum 0)); simpl; auto.
    destruct (String.leb _ _); simpl; [exact (mild_alternative_value_check a)|].
    auto.
  - destruct (bool_decide_reflect (o = 0%Qc)) as [Hz|Hnz]; simpl;
      [exact (mild_alternative_value_check a)|].
    destruct (dict_get a "current_price" (PNum 0)) as [|s|c|l|t]; simpl; auto.
    destruct (bool_decide (o ≤ c)%Qc); simpl;
      [exact (mild_alternative_value_check a)|].
    unfold discount_of. simpl. rewrite bool_decide_eq_false_2 by done. simpl.
    apply mild_bind; [apply mild_getattr | done].
  - destruct (bool_decide (l = [])); simpl;
      [exact (mild_alternative_value_check a)|].
    destruct (dict_get a "current_price" (PNum 0)); simpl; auto.
    destruct (list_leb _ _); simpl; [exact (mild_alternative_value_check a)|].
    auto.
  - destruct (dict_get a "current_price" (PNum 0)); simpl; auto.
    destruct (_ <=? _)%Z; simpl; [exact (mild_alternative_value_check a)|].
    auto.
Qed.

End Frame.

Section Reasons.
Variable repr : pyval → string.
Variable format_1f : Qc → string.

(** The reasons stored with an auction the filter returns are never empty:
    they name the bid activity, which the cascade has checked against the
    same minimum, and begin with the premium brand. *)
Theorem survivor_filter_reason
  (config : Config) (heap : gmap nat Dict) (auctions : list nat) (x : nat) :
  x ∈ (filter_interesting_auctions repr format_1f config heap auctions).2 →
  ∃ r rs brand b,
    (filter_interesting_auctions repr format_1f config heap auctions).1 !! x
    = Some r
    ∧ r !! "filter_reason" = Some (PList rs)
    ∧ r !! "brand" = Some (PStr brand)
    ∧ dict_get r "bids" (PNum 0) = PNum b
    ∧ (brand ≠ "" → head rs = Some ("Marca premium: " +:+ brand))
    ∧ ("Actividad alta: " +:+ repr (PNum b) +:+ " pujas") ∈ rs.
Proof.
  intros (_ & a & r & _ & He%survivor_Some & Hr)%elem_of_filter.
  pose proof (evaluate_checked _ _ _ _ _ He)
    as [_ Hbrand _ Hbids _ _ (rs & Hrs & Hfr) _].
  apply is_premium_brand_true in Hbrand as (_ & _ & brand & _ & _ & _ & Hb & _).
  apply has_minimum_activity_true in Hbids as (mb & b & Hmb & Hbd & Hmin).
  exists r, rs, brand, b. split_and!; try done.
  - intros Hne. unfold _get_filter_reasons in Hrs.
    rewrite (dict_get_lookup r "brand" (PStr brand)) in Hrs by done.
    simpl in Hrs. rewrite bool_decide_eq_false_2 in Hrs by done. simpl in Hrs.
    apply bind_Ok in Hrs as (rs1 & H1 & Hrs).
    apply bind_Ok in Hrs as (mb' & _ & Hrs).
    apply bind_Ok in Hrs as (b' & _ & Hrs).
    apply bind_Ok in Hrs as (t & _ & Hrs).
    apply bind_Ok in Hrs as (c & _ & Hrs).
    injection Hrs as <-.
    assert (head rs1 = Some ("Marca premium: " +:+ brand)) as Hh.
    { destruct (truthy _); [|by injection H1 as <-].
      apply bind_Ok in H1 as (d & _ & H1).
      destruct (bool_decide _); by injection H1 as <-. }
    destruct rs1 as [|r1 rs1]; [done|]. simpl in Hh.
    by repeat (match goal with |- context [if ?c then _ else _] => destruct c end).
  - unfold _get_filter_reasons in Hrs.
    apply bind_Ok in Hrs as (rs1 & _ & Hrs).
    apply bind_Ok in Hrs as (mb' & Hmb'%getattr_Ok & Hrs).
    apply bind_Ok in Hrs as (b' & Hb'%as_num_Ok & Hrs).
    apply bind_Ok in Hrs as (t & _ & Hrs).
    apply bind_Ok in Hrs as (c & _ & Hrs).
    injection Hrs as <-.
    assert (mb' = mb) as -> by congruence.
    assert (b' = b) as -> by congruence.
    rewrite (bool_decide_eq_true_2 (mb ≤ b)%Qc) by done. rewrite Hbd. simpl.
    repeat (match goal with |- context [if ?c then _ else _] => destruct c end);
      rewrite ?elem_of_app, ?list_elem_of_singleton; auto 6.
Qed.
End Reasons.

Lemma returns_sbind {A B : Type} (P : Dict → Prop) (Q : A → Dict → Prop)
  (R : B → Dict → Prop) (m : stateful A) (k : A → stateful B) :
  returns P Q m → (∀ a, returns (Q a) R (k a)) → returns P R (sbind m k).
Proof.
  intros Hm Hk d Hd. unfold sbind. destruct (Hm d Hd) as (a & Ha & HQ).
  destruct (m d) as [d1 r]; simpl in *. subst r. by apply Hk.
Qed.

Lemma returns_read {A : Type} (P : Dict → Prop) (f : Dict → result A) :
  (∀ d, P d → ∃ v, f d = Ok v) → returns P (fun _ d => P d) (read f).
Proof. intros Hf d Hd. destruct (Hf d Hd) as [v Hv]. exists v. by split. Qed.

Lemma returns_sret {A : Type} (P : Dict → Prop) (a : A) :
  returns P (fun _ d => P d) (sret a).
Proof. intros d Hd. by exists a. Qed.

Lemma returns_post {A : Type} (P : Dict → Prop) (Q Q' : A → Dict → Prop)
  (m : stateful A) :
  (∀ v d, Q v d → Q' v d) → returns P Q m → returns P Q' m.
Proof. intros HQ Hm d Hd. destruct (Hm d Hd) as (v & Hv & Hq). eauto. Qed.

Lemma lookup_dict_get_ne (a : Dict) (k k' : string) (v dflt : pyval) :
  k ≠ k' → dict_get (<[k := v]> a) k' dflt = dict_get a k' dflt.
Proof. intros Hne. unfold dict_get. by rewrite lookup_insert_ne. Qed.

Section Shaped.
Variable repr : pyval → string.
Variable format_1f : Qc → string.
Variable base : Config.
Variable p : Policy.

Lemma shaped_price_in_range (a : Dict) :
  listing_shaped a → ∃ v, _price_in_range (with_policy base p) a = Ok v.
Proof.
  intros (_ & [c Hc] & _). unfold _price_in_range. rewrite Hc. simpl.
  destruct (bool_decide _); eauto.
Qed.

Lemma shaped_time_remaining_valid (a : Dict) :
  listing_shaped a → ∃ v, _time_remaining_valid (with_policy base p) a = Ok v.
Proof.
  intros (_ & _ & _ & [t Ht] & _). unfold _time_remaining_valid. rewrite Ht.
  simpl. destruct (bool_decide _); eauto.
Qed.

Lemma shaped_has_minimum_activity (a : Dict) :
  listing_shaped a → ∃ v, _has_minimum_activity (with_policy base p) a = Ok v.
Proof.
  intros (_ & _ & [b Hb] & _). unfold _has_minimum_activity. rewrite Hb.
  simpl. eauto.
Qed.

Lemma shaped_has_excluded_keywords (a : Dict) :
  listing_shaped a → ∃ v, _has_excluded_keywords (with_policy base p) a = Ok v.
Proof.
  intros ([s Hs] & _). unfold _has_excluded_keywords. rewrite Hs. simpl. eauto.
Qed.

Lemma any_in_text (s : string) (pbs : list string) :
  ∃ v, any_in (PStr s) pbs = Ok v.
Proof.
  induction pbs as [|pb pbs [v IH]]; simpl; [eauto|].
  destruct (Str.contains pb s); eauto.
Qed.

Lemma bonus_loop_text (s : string) (table : list (string * Qc)) (score : Qc) :
  ∃ v, bonus_loop (PStr s) table score = Ok v.
Proof.
  induction table as [|[premium bonus] table [v IH]]; simpl; [eauto|].
  destruct (Str.contains premium s); eauto.
Qed.

Lemma branded_alternative_value_check (a : Dict) :
  branded a → ∃ v, _alternative_value_check (with_policy base p) a = Ok v.
Proof.
  intros [(_ & [c Hc] & [b Hb] & _) [s Hs]]. unfold _alternative_value_check.
  assert (dict_get a "brand" (PStr "") = PStr s) as ->.
  { unfold dict_get in *. by destruct (a !! "brand"). }
  rewrite Hc, Hb. destruct (any_in_text s desirable_brands) as [hit ->].
  simpl. destruct hit; simpl;
    repeat (match goal with |- context [if ?c then _ else _] => destruct c end;
            simpl); eauto.
Qed.

Lemma branded_get_filter_reasons (a : Dict) :
  branded a → ∃ v, _get_filter_reasons repr format_1f (with_policy base p) a = Ok v.
Proof.
  intros [(_ & [c Hc] & [b Hb] & [t Ht] & _ & _ & Hd) [s Hs]].
  unfold _get_filter_reasons. rewrite Hs, Hc, Hb, Ht.
  assert (∃ rs, (if truthy (dict_get a "discount_percent" PNone)
                 then let* d := as_num (dict_get a "discount_percent" PNone) in
                      if bool_decide (0 < d)%Qc
                      then Ok ((if truthy (PStr s)
                                then [] ++ ["Marca premium: " +:+ str_of repr (PStr s)]
                                else [])
                               ++ ["Descuento: " +:+ format_1f d +:+ "%"])
                      else Ok (if truthy (PStr s)
                               then [] ++ ["Marca premium: " +:+ str_of repr (PStr s)]
                               else [])
                 else Ok (if truthy (PStr s)
                          then [] ++ ["Marca premium: " +:+ str_of repr (PStr s)]
                          else [])) = Ok rs) as [rs ->].
  { unfold dict_get. destruct Hd as [->|[d ->]]; simpl; [eauto|].
    repeat (match goal with |- context [if ?c then _ else _] => destruct c end;
            simpl); eauto. }
  simpl. eauto.
Qed.

Lemma branded_calculate_interest_score (a : Dict) :
  branded a → ∃ v, _calculate_interest_score a = Ok v.
Proof.
  intros [(_ & [c Hc] & [b Hb] & [t Ht] & _ & _ & Hd) [s Hs]].
  unfold _calculate_interest_score. rewrite Hc, Hb, Ht.
  assert (dict_get a "brand" (PStr "") = PStr s) as ->.
  { unfold dict_get in *. by destruct (a !! "brand"). }
  assert (∃ d, dict_get a "discount_percent" (PNum 0) = PNum d) as [d ->].
  { unfold dict_get. destruct Hd as [->|[d ->]]; simpl; eauto. }
  cbn [bind as_num].
  match goal with
  | |- context [bonus_loop (PStr s) premium_bonus ?sc] =>
      destruct (bonus_loop_text s premium_bonus sc) as [v ->]
  end.
  simpl. eauto.
Qed.

Lemma listing_shaped_set_brand (a : Dict) (s : string) :
  listing_shaped a → branded (<["brand" := PStr s]> a).
Proof.
  intros (H1 & H2 & H3 & H4 & H5 & H6 & H7). split.
  - split_and!; rewrite ?lookup_dict_get_ne, ?lookup_insert_ne by done;
      try done.
    right. exists s. unfold dict_get. by rewrite lookup_insert_eq.
  - exists s. unfold dict_get. by rewrite lookup_insert_eq.
Qed.

Lemma branded_set_discount (a : Dict) (d : Qc) :
  branded a → branded (<["discount_percent" := PNum d]> a).
Proof.
  intros [(H1 & H2 & H3 & H4 & H5 & H6 & H7) H8]. split.
  - split_and!; rewrite ?lookup_dict_get_ne by done; try done.
    right. exists d. apply lookup_insert_eq.
  - by rewrite lookup_dict_get_ne.
Qed.

Lemma branded_set_filter_reason (a : Dict) (rs : list string) :
  branded a → branded (<["filter_reason" := PList rs]> a).
Proof.
  intros [(H1 & H2 & H3 & H4 & H5 & H6 & H7) H8]. split.
  - split_and!; rewrite ?lookup_dict_get_ne, ?lookup_insert_ne by done; done.
  - by rewrite lookup_dict_get_ne.
Qed.

Lemma shaped_is_premium_brand :
  returns listing_shaped
    (fun b d => listing_shaped d ∧ (b = true → branded d))
    (_is_premium_brand (with_policy base p)).
Proof.
  intros a Ha. rewrite is_premium_brand_eq.
  pose proof Ha as ([s Hs] & _ & _ & _ & Hb & _). rewrite Hs. simpl.
  destruct Hb as [Hb|[s' Hb]]; rewrite Hb; simpl.
  - destruct (first_occurring _ _) as [pb|]; simpl.
    + exists true. split; [done|].
      pose proof (listing_shaped_set_brand a pb Ha) as Hbr.
      split; [apply Hbr | done].
    + exists false. by split.
  - destruct (bool_decide (s' = "")); simpl.
    + destruct (first_occurring _ _) as [pb|]; simpl.
      * exists true. split; [done|].
        pose proof (listing_shaped_set_brand a pb Ha) as Hbr.
        split; [apply Hbr | done].
      * exists false. by split.
    + eexists. split; [done|]. split; [done|]. intros _. split; [done|]. eauto.
Qed.

Lemma branded_has_good_discount :
  returns branded (fun _ d => branded d)
    (_has_good_discount (with_policy base p)).
Proof.
  intros a Ha. rewrite has_good_discount_eq. simpl.
  pose proof Ha as [(_ & [c Hc] & _ & _ & _ & Ho & _) _]. rewrite Hc.
  destruct (branded_alternative_value_check a Ha) as [alt Halt].
  destruct Ho as [->|[o ->]]; simpl; [by exists alt|].
  destruct (bool_decide_reflect (o = 0%Qc)) as [Hz|Hnz]; simpl;
    [by exists alt|].
  destruct (bool_decide (o ≤ c)%Qc); simpl; [by exists alt|].
  unfold discount_of. simpl. rewrite bool_decide_eq_false_2 by done. simpl.
  eexists. split; [done|]. by apply branded_set_discount.
Qed.

End Shaped.

(** * The filter next to the extractor *)

Section Rerun.
Variable repr : pyval → string.
Variable format_1f : Qc → string.
Variable config : Config.

(** What the filter wrote into the auctions does not change what it decides:
    a second call on the same input, after the first, returns the same list
    and leaves the heap as the first call left it. *)
Theorem filter_rerun_same (heap : gmap nat Dict) (auctions : list nat) :
  let run := filter_interesting_auctions repr format_1f config heap auctions in
  filter_interesting_auctions repr format_1f config run.1 auctions = run.
Proof.
  intros run. unfold run. rewrite !filter_spec. simpl.
  assert (Hh : visit_all repr format_1f config auctions
                 (visit_all repr format_1f config auctions heap)
               = visit_all repr format_1f config auctions heap).
  { apply map_eq. intros x. rewrite !lookup_visit_all.
    destruct (heap !! x) as [a|]; simpl; [|done].
    destruct (bool_decide (x ∈ auctions)); [|done]. by rewrite visit_visit. }
  rewrite Hh. f_equal. f_equal. apply list_filter_iff. intros x.
  unfold keeps. rewrite lookup_visit_all.
  destruct (heap !! x) as [a|]; simpl; [|done].
  destruct (bool_decide (x ∈ auctions)); [|done]. by rewrite survivor_visit.
Qed.

(** An empty keyword in [EXCLUDE_KEYWORDS] excludes every auction: the empty
    text occurs in every title. *)
Theorem empty_keyword_excludes_all (kws : list string) (a : Dict) :
  EXCLUDE_KEYWORDS config = Some kws → "" ∈ kws →
  survivor repr format_1f config a = None.
Proof.
  intros Hk Hin.
  destruct (survivor repr format_1f config a) as [r|] eqn:Hs; [|done].
  exfalso. apply survivor_Some, evaluate_true in Hs
    as (a2 & rs & s & Hint & _).
  apply is_auction_interesting_true in Hint as (a1 & _ & _ & _ & _ & Hkw & _).
  apply has_excluded_keywords_false in Hkw as (kws' & title & Hk' & _ & Hno).
  assert (kws' = kws) as -> by congruence.
  specialize (Hno "" Hin). by rewrite contains_empty in Hno.
Qed.

(** On a record as the extractor fills it, with the brand
    [_extract_brand] reads off the title, and with premium brands that are all
    in the extractor's vocabulary, the filter's own search of the title never
    decides: an auction is kept only with the brand the extractor found. *)
Theorem kept_brand_is_extracted_brand (pbs : list string) (title : string)
  (a r : Dict) :
  PREMIUM_BRANDS config = Some pbs → pbs ⊆ brands →
  a !! "title" = Some (PStr title) →
  a !! "brand" = Some (opt_pyval (_extract_brand title)) →
  survivor repr format_1f config a = Some r →
  ∃ b, _extract_brand title = Some b ∧ b ∈ pbs ∧ r !! "brand" = Some (PStr b).
Proof.
  intros Hp Hsub Ht Hb Hs.
  apply survivor_Some, evaluate_true in Hs
    as (a2 & rs & s & Hint & _ & _ & ->).
  apply is_auction_interesting_true in Hint
    as (a1 & _ & Hbrand & _ & _ & _ & Hdisc).
  pose proof (has_good_discount_frame _ _ _ _ "brand" Hdisc ltac:(done)) as F2.
  apply is_premium_brand_true in Hbrand
    as (pbs' & title' & b & Hp' & Ht' & Hin & Hb1 & Hcase).
  assert (pbs' = pbs) as -> by congruence.
  rewrite (dict_get_lookup a "title" (PStr title)) in Ht' by done.
  injection Ht' as <-.
  exists b. split; [|split; [done|]].
  2:{ rewrite !lookup_insert_ne by done. by rewrite F2. }
  unfold _extract_brand in *.
  pose proof (first_occurring_spec (Str.lower title) brands) as Hspec.
  assert (Hne : ∀ s0, first_occurring (Str.lower title) brands = Some s0 →
                      s0 ≠ "").
  { intros s0 [He _]%first_occurring_elem ->. revert He. by_decide. }
  destruct (first_occurring (Str.lower title) brands) as [s0|];
    cbn [opt_pyval] in Hb;
    rewrite (dict_get_lookup a "brand" _ PNone Hb) in Hcase;
    destruct Hcase as [[Htr ->]|(Hfa & Hf & _)].
  - congruence.
  - exfalso. cbn [truthy] in Hfa.
    apply negb_false_iff, bool_decide_eq_true in Hfa. by apply (Hne s0).
  - done.
  - exfalso. apply first_occurring_elem in Hf as [_ Hocc].
    rewrite (Hspec b) in Hocc; [done|]. by apply Hsub.
Qed.
End Rerun.

(** * Statistics of a filter run *)

Lemma count_total_dict_incr (k : pyval) (d : list (pyval * Z)) :
  count_total (dict_incr k d) = count_total d + 1.
Proof.
  unfold count_total. induction d as [|[k' n] d IH]; simpl; [done|].
  case_bool_decide; simpl; lia.
Qed.

Lemma elem_of_dict_incr (k k' : pyval) (d : list (pyval * Z)) :
  k' ∈ (dict_incr k d).*1 ↔ k' = k ∨ k' ∈ d.*1.
Proof.
  induction d as [|[k0 n] d IH]; simpl.
  - rewrite list_elem_of_singleton. split; [auto | by intros [?|?%elem_of_nil]].
  - case_bool_decide as Hk; simpl.
    + subst k0. rewrite !elem_of_cons. tauto.
    + rewrite !elem_of_cons, IH. tauto.
Qed.

Lemma NoDup_dict_incr (k : pyval) (d : list (pyval * Z)) :
  NoDup d.*1 → NoDup (dict_incr k d).*1.
Proof.
  induction d as [|[k0 n] d IH]; simpl; intros Hd.
  - apply NoDup_singleton.
  - apply NoDup_cons in Hd as [Hk0 Hd]. case_bool_decide as Hk; simpl.
    + by apply NoDup_cons.
    + apply NoDup_cons. split; [|by apply IH].
      rewrite elem_of_dict_incr. by intros [?|?].
Qed.

Lemma brand_loop_Ok (l : list Dict) (tb tb' : list (pyval * Z)) :
  brand_loop l tb = Ok tb' →
  count_total tb' = count_total tb + Z.of_nat (length l)
  ∧ (NoDup tb.*1 → NoDup tb'.*1)
  ∧ ∀ k, k ∈ tb'.*1 →
      k ∈ tb.*1 ∨ ∃ a, a ∈ l ∧ k = dict_get a "brand" (PStr "Unknown").
Proof.
  revert tb. induction l as [|a l IH]; intros tb; simpl.
  - intros [= <-]. split; [lia|]. split; [done|]. auto.
  - intros H. apply bind_Ok in H as ([] & _ & H).
    apply IH in H as (Hc & Hn & Hk). rewrite count_total_dict_incr in Hc.
    split; [lia|]. split.
    + intros Hd. by apply Hn, NoDup_dict_incr.
    + intros k Hin. destruct (Hk k Hin) as [[->|?]%elem_of_dict_incr|(a' & ? & ?)].
      * right. exists a. split; [by left | done].
      * by left.
      * right. exists a'. split; [by right | done].
Qed.

Lemma price_loop_Ok (l : list Dict) (pd pd' : PriceDistribution) :
  price_loop l pd = Ok pd' →
  bucket_total pd' = bucket_total pd + Z.of_nat (length l).
Proof.
  revert pd. induction l as [|a l IH]; intros pd; simpl.
  - intros [= <-]. lia.
  - intros H. apply bind_Ok in H as (c & _ & H). apply IH in H.
    rewrite H. unfold bucket_total.
    repeat (match goal with |- context [if ?c then _ else _] => destruct c end);
      simpl; lia.
Qed.

(** What the statistics count adds up: each filtered auction is in one price
    bucket and under one brand, and no brand is listed twice. *)
Theorem filter_stats_conserve (all_auctions filtered : list Dict) (s : Stats) :
  get_filter_stats all_auctions filtered = Ok s →
  total_auctions s = Z.of_nat (length all_auctions)
  ∧ filtered_auctions s = Z.of_nat (length filtered)
  ∧ bucket_total (price_distribution s) = Z.of_nat (length filtered)
  ∧ count_total (top_brands s) = Z.of_nat (length filtered)
  ∧ NoDup (top_brands s).*1.
Proof.
  unfold get_filter_stats. case_bool_decide as He.
  - intros [= <-]. subst filtered. simpl. split_and!; try done. constructor.
  - intros H. apply bind_Ok in H as (ts & _ & H).
    apply bind_Ok in H as (tb & Hb & H). apply bind_Ok in H as (pd & Hp & H).
    injection H as <-. simpl.
    apply brand_loop_Ok in Hb as (Hc & Hn & _). apply price_loop_Ok in Hp.
    split_and!; try done. apply Hn. constructor.
Qed.

Lemma py_sum_spec (acc : Qc) (l : list pyval) :
  match py_sum acc l with
  | Ok _ => Forall (fun v => ∃ q, v = PNum q) l
  | Raise e => e = TypeError ∧ ¬ Forall (fun v => ∃ q, v = PNum q) l
  end.
Proof.
  revert acc. induction l as [|v l IH]; intros acc; simpl; [done|].
  destruct v as [|s|q|l0|t]; simpl;
    try (split; [done|]; intros [[q [=]] _]%Forall_cons).
  specialize (IH (acc + q)%Qc). destruct (py_sum _ l).
  - apply Forall_cons. eauto.
  - destruct IH as [-> Hn]. split; [done|]. by intros [_ ?]%Forall_cons.
Qed.

Lemma brand_loop_spec (l : list Dict) (tb : list (pyval * Z)) :
  match brand_loop l tb with
  | Ok _ => Forall (fun a => ∀ k, dict_get a "brand" (PStr "Unknown") ≠ PList k) l
  | Raise e =>
      e = TypeError
      ∧ ¬ Forall (fun a => ∀ k, dict_get a "brand" (PStr "Unknown") ≠ PList k) l
  end.
Proof.
  revert tb. induction l as [|a l IH]; intros tb; simpl; [done|].
  destruct (dict_get a "brand" (PStr "Unknown")) as [|s|q|l0|t] eqn:Hb; simpl;
    try (specialize (IH (dict_incr (dict_get a "brand" (PStr "Unknown")) tb));
         rewrite Hb in IH; destruct (brand_loop l _);
         [ apply Forall_cons; split; [by rewrite Hb | done]
         | destruct IH as [-> Hn]; split; [done|]; by intros [_ ?]%Forall_cons ]).
  split; [done|]. intros [Hk _]%Forall_cons. by apply (Hk l0).
Qed.

Lemma price_loop_spec (l : list Dict) (pd : PriceDistribution) :
  match price_loop l pd with
  | Ok _ => Forall (fun a => ∃ c, dict_get a "current_price" (PNum 0) = PNum c) l
  | Raise e =>
      e = TypeError
      ∧ ¬ Forall (fun a => ∃ c, dict_get a "current_price" (PNum 0) = PNum c) l
  end.
Proof.
  revert pd. induction l as [|a l IH]; intros pd; simpl; [done|].
  destruct (dict_get a "current_price" (PNum 0)) as [|s|q|l0|t] eqn:Hc; simpl;
    try (split; [done|]; intros [[q ?] _]%Forall_cons; congruence).
  match goal with |- context [price_loop l ?pd'] => specialize (IH pd') end.
  destruct (price_loop l _).
  - apply Forall_cons. eauto.
  - destruct IH as [-> Hn]. split; [done|]. by intros [_ ?]%Forall_cons.
Qed.

Lemma get_filter_stats_Ok (all_auctions filtered : list Dict) :
  Forall countable_record filtered →
  ∃ s, get_filter_stats all_auctions filtered = Ok s.
Proof.
  intros Hall. unfold get_filter_stats. case_bool_decide as He; [eauto|].
  pose proof (py_sum_spec 0
                (map (fun a => dict_get a "interest_score" (PNum 0)) filtered))
    as Hs.
  destruct (py_sum _ _) as [ts|e]; simpl; rewrite Forall_map in Hs.
  2:{ destruct Hs as [_ Hn]. exfalso. apply Hn.
      eapply Forall_impl; [exact Hall|]. by intros a (? & _). }
  pose proof (brand_loop_spec filtered []) as Hb.
  destruct (brand_loop _ _) as [tb|e]; simpl.
  2:{ destruct Hb as [_ Hn]. exfalso. apply Hn.
      eapply Forall_impl; [exact Hall|]. by intros a (_ & ? & _). }
  pose proof (price_loop_spec filtered
                {| under_500 := 0; _500_1000 := 0; _1000_1500 := 0;
                   over_1500 := 0 |}) as Hp.
  destruct (price_loop _ _) as [pd|e]; simpl; [eauto|].
  destruct Hp as [_ Hn]. exfalso. apply Hn.
  eapply Forall_impl; [exact Hall|]. by intros a (_ & _ & ?).
Qed.


Lemma rate_between (filtered total : Z) :
  0 ≤ filtered ≤ total → 0 < total →
  (Qc_of_Z 0 ≤ Qc_of_Z filtered / Qc_of_Z total * Qc_of_Z 100 ≤ Qc_of_Z 100)%Qc.
Proof.
  intros [Hf Hft] Ht.
  unfold Qcle, Qc_of_Z, Qcdiv, Qcmult, Qcinv, Q2Qc. cbn [this].
  repeat setoid_rewrite Qred_correct.
  change (inject_Z 100) with 100%Q. change (inject_Z 0) with 0%Q.
  rewrite Zle_Qle in Hf, Hft. rewrite Zlt_Qlt in Ht.
  change (inject_Z 0) with 0%Q in Hf, Ht.
  assert (0 <= inject_Z filtered / inject_Z total <= 1)%Q as [H0 H1].
  { split; [apply Qle_shift_div_l | apply Qle_shift_div_r]; lra. }
  unfold Qdiv in H0, H1. split; lra.
Qed.

Lemma get_filter_stats_rate (all_auctions filtered : list Dict) (s : Stats) :
  get_filter_stats all_auctions filtered = Ok s →
  filter_rate s
  = if bool_decide (0 < Z.of_nat (length all_auctions))
    then round2 (Qc_of_Z (Z.of_nat (length filtered))
                 / Qc_of_Z (Z.of_nat (length all_auctions)) * Qc_of_Z 100)
    else 0%Qc.
Proof.
  intros Hs. unfold get_filter_stats in Hs. case_bool_decide.
  - by injection Hs as <-.
  - apply bind_Ok in Hs as (ts & _ & Hs). apply bind_Ok in Hs as (tb & _ & Hs).
    apply bind_Ok in Hs as (pd & _ & Hs). by injection Hs as <-.
Qed.

Lemma filter_rate_between (all_auctions filtered : list Dict) (s : Stats) :
  get_filter_stats all_auctions filtered = Ok s →
  (length filtered ≤ length all_auctions)%nat →
  (0 ≤ filter_rate s ≤ Qc_of_Z 100)%Qc.
Proof.
  intros Hs Hlen. rewrite (get_filter_stats_rate _ _ _ Hs).
  case_bool_decide as Ht; [|by split].
  rewrite <- Qc_of_Z_0. apply round2_between, rate_between; lia.
Qed.

(** The filter rate is a percentage: with no more filtered auctions than
    auctions it lies between 0 and 100, and it is 0 when there are no
    auctions at all. *)
Theorem filter_rate_is_percentage (all_auctions filtered : list Dict) (s : Stats) :
  get_filter_stats all_auctions filtered = Ok s →
  (length filtered ≤ length all_auctions)%nat →
  (0 ≤ filter_rate s ≤ Qc_of_Z 100)%Qc
  ∧ (all_auctions = [] → filter_rate s = 0%Qc).
Proof.
  intros Hs Hlen. split; [by apply (filter_rate_between all_auctions filtered)|].
  intros ->. by rewrite (get_filter_stats_rate _ _ _ Hs).
Qed.

Lemma get_filter_stats_brands (all_auctions filtered : list Dict) (s : Stats)
  (k : pyval) :
  get_filter_stats all_auctions filtered = Ok s →
  k ∈ (top_brands s).*1 →
  ∃ a, a ∈ filtered ∧ k = dict_get a "brand" (PStr "Unknown").
Proof.
  unfold get_filter_stats. case_bool_decide as He.
  - intros [= <-]. simpl. by intros ?%elem_of_nil.
  - intros H. apply bind_Ok in H as (ts & _ & H).
    apply bind_Ok in H as (tb & Hb & H). apply bind_Ok in H as (pd & _ & H).
    injection H as <-. simpl. intros Hk.
    apply brand_loop_Ok in Hb as (_ & _ & Hb).
    destruct (Hb k Hk) as [?%elem_of_nil|?]; done.
Qed.

Section StatsOfRun.
Variable repr : pyval → string.
Variable format_1f : Qc → string.
Variable config : Config.

Lemma survivor_countable (a r : Dict) :
  survivor repr format_1f config a = Some r →
  countable_record r
  ∧ ∃ b pbs, r !! "brand" = Some (PStr b)
      ∧ PREMIUM_BRANDS config = Some pbs ∧ b ∈ pbs.
Proof.
  intros He%survivor_Some.
  pose proof (evaluate_checked _ _ _ _ _ He)
    as [Hprice Hbrand _ _ _ _ _ (s & _ & Hs)].
  apply is_premium_brand_true in Hbrand as (pbs & _ & b & Hp & _ & Hin & Hb & _).
  apply price_in_range_true in Hprice as (_ & _ & c & _ & _ & Hc & _).
  split; [|by exists b, pbs]. split_and!.
  - exists s. unfold dict_get. by rewrite Hs.
  - intros l. unfold dict_get. by rewrite Hb.
  - by exists c.
Qed.

(** The statistics of a filter run, taken of the auctions as the run left
    them, are always computed: they do not raise, the rate is a percentage,
    and every brand counted is a premium brand of the configuration. *)
Theorem filter_stats_of_filter_run (heap : gmap nat Dict) (auctions : list nat) :
  let run := filter_interesting_auctions repr format_1f config heap auctions in
  ∃ s, get_filter_stats (deref run.1 <$> auctions) (deref run.1 <$> run.2) = Ok s
    ∧ (0 ≤ filter_rate s ≤ Qc_of_Z 100)%Qc
    ∧ ∀ k, k ∈ (top_brands s).*1 →
        ∃ b pbs, k = PStr b ∧ PREMIUM_BRANDS config = Some pbs ∧ b ∈ pbs.
Proof.
  intros run.
  assert (Hout : ∀ x, x ∈ run.2 →
            ∃ a r, run.1 !! x = Some r
                   ∧ survivor repr format_1f config a = Some r).
  { intros x (_ & a & r & _ & Hs & Hr)%elem_of_filter. eauto. }
  destruct (get_filter_stats_Ok (deref run.1 <$> auctions)
              (deref run.1 <$> run.2)) as [s Hs].
  { apply Forall_fmap, Forall_forall. intros x Hx.
    destruct (Hout x Hx) as (a & r & Hr & Hsv). simpl. unfold deref.
    rewrite Hr. simpl. by apply (survivor_countable a). }
  exists s. split; [done|]. split.
  - apply (filter_rate_between _ _ _ Hs). rewrite !length_fmap.
    unfold run. rewrite filter_spec. simpl. rewrite sort_desc_perm.
    apply length_filter.
  - intros k Hk.
    apply (get_filter_stats_brands _ _ _ _ Hs) in Hk as (d & Hd & ->).
    apply list_elem_of_fmap in Hd as (x & -> & Hx).
    destruct (Hout x Hx) as (a & r & Hr & Hsv). unfold deref. rewrite Hr. simpl.
    apply survivor_countable in Hsv as (_ & b & pbs & Hb & Hp & Hin).
    exists b, pbs. unfold dict_get. by rewrite Hb.
Qed.
End StatsOfRun.

(** * Further properties of the parsers *)

Lemma digit_val_nonneg (c : ascii) : Str.is_digit c = true → 0 ≤ Str.digit_val c.
Proof.
  unfold Str.is_digit, Str.digit_val. intros [H1 _]%andb_true_iff.
  apply N.leb_le in H1. lia.
Qed.

Lemma decimal_acc_nonneg (acc : Z) (s : string) :
  Str.all_digits s = true → 0 ≤ acc → 0 ≤ Str.decimal_acc acc s.
Proof.
  revert acc. induction s as [|c s IH]; intros acc; simpl; [done|].
  intros [Hc Hs]%andb_true_iff Hacc. apply IH; [done|].
  pose proof (digit_val_nonneg c Hc). lia.
Qed.

Lemma decimal_nonneg (s : string) : Str.all_digits s = true → 0 ≤ Str.decimal s.
Proof. intros Hs. by apply decimal_acc_nonneg. Qed.

Lemma Qc_of_Z_nonneg (a : Z) : 0 ≤ a → (0 ≤ Qc_of_Z a)%Qc.
Proof. intros Ha. rewrite <- Qc_of_Z_0. by apply (proj1 (Qc_of_Z_le 0 a)). Qed.

Lemma Qc_frac_nonneg (a b : Z) : 0 ≤ a → 0 < b → (0 ≤ Qc_of_Z a / Qc_of_Z b)%Qc.
Proof.
  intros Ha Hb. rewrite <- Qc_of_Z_0.
  unfold Qcle, Qc_of_Z, Qcdiv, Qcmult, Qcinv, Q2Qc. cbn [this].
  repeat setoid_rewrite Qred_correct.
  rewrite Zle_Qle in Ha. rewrite Zlt_Qlt in Hb.
  change (inject_Z 0) with 0%Q in *. by apply Qle_shift_div_l; [|lra].
Qed.

Lemma Qcplus_nonneg (x y : Qc) : (0 ≤ x)%Qc → (0 ≤ y)%Qc → (0 ≤ x + y)%Qc.
Proof.
  intros Hx Hy. replace 0%Qc with (0 + 0)%Qc by ring. by apply Qcplus_le_compat.
Qed.

Lemma decimal_numeral_nonneg (s : string) (q : Qc) :
  decimal_numeral s q → (0 ≤ q)%Qc.
Proof.
  intros [ip Hip|ip fp Hip Hfp _].
  - apply Qc_of_Z_nonneg, decimal_nonneg. by apply isdigit_all_digits in Hip as [_ ?].
  - apply Qcplus_nonneg; [by apply Qc_of_Z_nonneg, decimal_nonneg|].
    apply Qc_frac_nonneg; [by apply decimal_nonneg | lia].
Qed.

(** [_parse_price] never returns a negative price: a sign in the text is
    dropped with everything else that is no digit and no point. *)
Theorem parse_price_nonnegative (price_text : string) (q : Qc) :
  _parse_price price_text = Some q → (0 ≤ q)%Qc.
Proof.
  unfold _parse_price. case_bool_decide as Hc; [done|].
  destruct (py_float _) as [x|e] eqn:Hf; simpl; [|done].
  intros [= <-]. apply py_float_numeral in Hf.
  by apply (decimal_numeral_nonneg _ _ Hf).
Qed.

Lemma unit_count_nonneg (u time_text : string) : 0 ≤ unit_count u time_text.
Proof.
  unfold unit_count.
  destruct (Re.re_search _ _) as [g|] eqn:Hg; [|done].
  apply unit_search_isdigit, isdigit_all_digits in Hg as [_ Hg].
  by apply decimal_nonneg.
Qed.

Lemma parse_time_remaining_value (time_text : string) :
  _parse_time_remaining time_text
  = (Qc_of_Z (unit_count "d" time_text * 24)
     + Qc_of_Z (unit_count "h" time_text)
     + Qc_of_Z (unit_count "m" time_text) / Qc_of_Z 60)%Qc.
Proof.
  unfold _parse_time_remaining. by rewrite parse_time_remaining_body_value.
Qed.

Lemma Qcplus_nonneg_0 (x y : Qc) :
  (0 ≤ x)%Qc → (0 ≤ y)%Qc → (x + y)%Qc = 0%Qc → x = 0%Qc ∧ y = 0%Qc.
Proof.
  intros Hx Hy Hs.
  assert (x ≤ 0)%Qc.
  { rewrite <- Hs. replace x with (x + 0)%Qc at 1 by ring.
    by apply Qcplus_le_compat; [apply Qcle_refl|]. }
  assert (x = 0%Qc) as -> by by apply Qcle_antisym.
  split; [done|]. rewrite <- Hs. ring.
Qed.

Lemma Qc_of_Z_inj_0 (a : Z) : Qc_of_Z a = 0%Qc → a = 0.
Proof.
  intros H. rewrite <- Qc_of_Z_0 in H.
  apply Z.le_antisymm; [apply (proj2 (Qc_of_Z_le a 0)) | apply (proj2 (Qc_of_Z_le 0 a))];
    rewrite H; apply Qcle_refl.
Qed.


Section Untimed.
Variable repr : pyval → string.
Variable format_1f : Qc → string.

Lemma zero_hours_never_kept (config : Config) (a : Dict) :
  a !! "time_remaining_hours" = Some (PNum 0) →
  survivor repr format_1f config a = None.
Proof.
  intros Ha. destruct (survivor repr format_1f config a) as [r|] eqn:Hs; [|done].
  exfalso. apply survivor_Some, evaluate_true in Hs
    as (a2 & rs & s & Hint & _).
  apply is_auction_interesting_true in Hint
    as (a1 & _ & Hbrand & Htime & _).
  apply time_remaining_valid_true in Htime as (mx & t & _ & Ht & Hpos & _).
  rewrite (dict_get_lookup a1 "time_remaining_hours" (PNum 0)) in Ht.
  - injection Ht as <-. by apply Qclt_not_eq in Hpos.
  - by rewrite (is_premium_brand_frame _ _ _ _ _ Hbrand).
Qed.

(** A listing whose time text names no unit, which is what the extractor
    makes of a listing without a time element ("Buy It Now"), is read as
    zero hours left, and the filter keeps no auction with zero hours left,
    whatever the configuration. *)
Theorem untimed_listing_never_kept (config : Config) (time_text : string)
  (a : Dict) :
  (∀ u, u ∈ ["d"; "h"; "m"] →
        Re.re_search (unit_pattern u) (Str.lower time_text) = None) →
  a !! "time_remaining_hours" = Some (PNum (_parse_time_remaining time_text)) →
  survivor repr format_1f config a = None.
Proof.
  intros Hno Ha. rewrite (parse_time_remaining_no_unit _ Hno) in Ha.
  by apply zero_hours_never_kept.
Qed.
End Untimed.

(** ** The identifier of a listing *)

Lemma str_app_assoc (a b c : string) : (a +:+ b) +:+ c = a +:+ (b +:+ c).
Proof. induction a as [|x a IH]; [done|]. rewrite !str_app_cons. by rewrite IH. Qed.

Lemma stop_Some (n : nat) (suf s g : string) :
  Re.stop n suf s = Some g → g = "".
Proof. unfold Re.stop. destruct (_ && _); by intros [=]. Qed.

Lemma re_group_prefix (cls : ascii → bool) (n : nat) (suf s g : string) :
  Re.re_group cls n suf s = Some g → ∃ v, s = g +:+ v.
Proof.
  revert n g. induction s as [|c s IH]; intros n g; simpl.
  - intros ->%stop_Some. by exists "".
  - destruct (cls c).
    + destruct (Re.re_group cls (Nat.pred n) suf s) as [g'|] eqn:Hg.
      * intros [= <-]. destruct (IH _ _ Hg) as [v ->]. by exists v.
      * intros ->%stop_Some. by exists (String c s).
    + intros ->%stop_Some. by exists (String c s).
Qed.

Lemma strip_prefix_Some (p s rest : string) :
  Re.strip_prefix p s = Some rest → s = p +:+ rest.
Proof.
  revert s. induction p as [|a p IH]; intros s; simpl; [by intros [= <-]|].
  destruct s as [|b s]; [done|].
  destruct (Ascii.eqb a b) eqn:Hab; [|done].
  apply Ascii.eqb_eq in Hab as ->. intros ->%IH. done.
Qed.

(** A match of a pattern lies in the text, behind the literal of the
    pattern. *)
Lemma re_search_occurs (p : Re.pattern) (s g : string) :
  Re.re_search p s = Some g → ∃ u v, s = u +:+ (Re.pre p +:+ g) +:+ v.
Proof.
  induction s as [|c s IH].
  - simpl. unfold Re.match_here.
    destruct (Re.strip_prefix _ _) as [rest|] eqn:Hp; [|done].
    destruct (Re.re_group _ _ _ rest) as [g'|] eqn:Hg; [|done].
    intros [= <-]. apply strip_prefix_Some in Hp.
    apply re_group_prefix in Hg as [v ->].
    exists "", v. by rewrite str_app_nil_l, str_app_assoc.
  - simpl. unfold Re.match_here at 1.
    destruct (Re.strip_prefix _ _) as [rest|] eqn:Hp.
    + destruct (Re.re_group _ _ _ rest) as [g'|] eqn:Hg.
      * intros [= <-]. apply strip_prefix_Some in Hp.
        apply re_group_prefix in Hg as [v ->].
        exists "", v. by rewrite str_app_nil_l, str_app_assoc.
      * intros (u & v & ->)%IH. by exists (String c u), v.
    + intros (u & v & ->)%IH. by exists (String c u), v.
Qed.

Lemma first_valid_id_Some (ps : list Re.pattern) (url item_id : string) :
  first_valid_id ps url = Some item_id →
  ∃ p, p ∈ ps ∧ Re.re_search p url = Some item_id ∧ valid_id item_id = true.
Proof.
  induction ps as [|p ps IH]; simpl; [done|].
  destruct (Re.re_search p url) as [g|] eqn:Hg.
  - destruct (valid_id g) eqn:Hv.
    + intros [= <-]. exists p. split; [by left | done].
    + intros (p' & ? & ?)%IH. exists p'. split; [by right | done].
  - intros (p' & ? & ?)%IH. exists p'. split; [by right | done].
Qed.


(** ** The bid count *)

Section BidInfo.
Context {tag : Type} `{Soup tag}.

End BidInfo.

(** * The pages *)

Lemma every_title_is_denied (title : string) :
  existsb (fun invalid => Str.contains invalid (Str.lower title)) invalid_titles
  = true.
Proof.
  apply existsb_exists. exists "". split; [|apply contains_empty].
  apply list_elem_of_In. by_decide.
Qed.

Lemma omap_none {A B : Type} (f : A → option B) (l : list A) :
  (∀ x, f x = None) → omap f l = [].
Proof.
  intros Hf. induction l as [|x l IH]; simpl; [done|]. by rewrite Hf.
Qed.

Section PageFacts.
Context {page tag : Type} `{Soup tag} `{Web page tag}.
Variable now : Z.

Lemma parse_items_nothing (auction_items : list tag) :
  parse_items now auction_items [] = [].
Proof.
  rewrite parse_items_kept. apply omap_none. intros item.
  unfold kept, _parse_auction_item, _parse_auction_item_body.
  destruct (title_elem_of item) as [[t|]|e]; rewrite ?bind_ok, ?bind_raise;
    try done.
  destruct (get_text t) as [title|e]; rewrite ?bind_ok, ?bind_raise; [|done].
  by rewrite every_title_is_denied, orb_true_r.
Qed.

Lemma search_auctions_nil (config : Config) (search_query : option string) :
  search_auctions now config search_query = [].
Proof.
  unfold search_auctions.
  destruct (search_auctions_body now config search_query) as [l|e] eqn:Hb;
    [|done].
  unfold search_auctions_body in Hb.
  apply bind_Ok in Hb as (soup & _ & Hb). apply bind_Ok in Hb as (l' & _ & Hb).
  injection Hb as <-. apply parse_items_nothing.
Qed.

(** [search_auctions] returns the empty list for every query, every
    configuration and every answer of the site: a request or a lookup that
    fails leaves the list empty, and no fragment of a page that was read
    passes the title check of the extractor. *)
Theorem search_auctions_finds_nothing (config : Config)
  (search_query : option string) :
  search_auctions now config search_query = [].
Proof.
  unfold search_auctions, search_auctions_body.
  destruct (fetch _ _) as [soup|e]; [|done]. rewrite bind_ok.
  destruct (choose_items soup) as [auction_items|e]; [|done]. rewrite bind_ok.
  apply parse_items_nothing.
Qed.

End PageFacts.

Section DetailFacts.
Context {page tag : Type} `{Soup tag} `{Web page tag}.

Lemma scan_elements_Some (elements : list tag) (price : Qc) :
  scan_elements elements = Ok (Some price) →
  (0 < price)%Qc
  ∧ ∃ elem text, elem ∈ elements ∧ get_text elem = Ok text
      ∧ Str.contains "$" text = true
      ∧ Str.contains "was" (Str.lower text) = true
      ∧ _parse_price text = Some price.
Proof.
  induction elements as [|elem rest IH]; simpl; [done|].
  intros Hs. apply bind_Ok in Hs as (text & Ht & Hs).
  assert (Hrest : scan_elements rest = Ok (Some price) →
            (0 < price)%Qc
            ∧ ∃ e t, e ∈ elem :: rest ∧ get_text e = Ok t
                ∧ Str.contains "$" t = true
                ∧ Str.contains "was" (Str.lower t) = true
                ∧ _parse_price t = Some price).
  { intros (Hpos & e & t & He & Hrest)%IH. split; [done|]. exists e, t.
    split; [by right | done]. }
  destruct (Str.contains "$" text) eqn:Hd; cbn [andb] in Hs; [|by apply Hrest].
  destruct (Str.contains "was" (Str.lower text)) eqn:Hw; [|by apply Hrest].
  destruct (_parse_price text) as [p|] eqn:Hp; [|by apply Hrest].
  destruct (bool_decide (p = 0%Qc)); cbn [andb negb] in Hs; [by apply Hrest|].
  destruct (bool_decide_reflect (0 < p)%Qc) as [Hpos|]; [|by apply Hrest].
  injection Hs as <-. split; [done|]. exists elem, text.
  split; [by left | done].
Qed.

Lemma scan_selectors_Some (soup : page) (selectors : list string) (price : Qc) :
  scan_selectors soup selectors = Ok (Some price) →
  (0 < price)%Qc
  ∧ ∃ selector elements elem text,
      selector ∈ selectors ∧ select soup selector = Ok elements
      ∧ elem ∈ elements ∧ get_text elem = Ok text
      ∧ Str.contains "$" text = true
      ∧ Str.contains "was" (Str.lower text) = true
      ∧ _parse_price text = Some price.
Proof.
  induction selectors as [|selector rest IH]; simpl; [done|].
  intros Hs. apply bind_Ok in Hs as (elements & He & Hs).
  apply bind_Ok in Hs as ([p|] & Hf & Hs).
  - injection Hs as ->. apply scan_elements_Some in Hf as (Hpos & e & t & Hf).
    split; [done|]. exists selector, elements, e, t. split; [by left | done].
  - apply IH in Hs as (Hpos & s & es & e & t & Hin & Hs). split; [done|].
    exists s, es, e, t. split; [by right | done].
Qed.

(** An original price read off a detail page is greater than zero, and it
    is what [_parse_price] makes of the text of an element, found by one of
    the four selectors, that holds a dollar sign and the word "was". *)
Theorem find_original_price_sound (soup : page) (price : Qc) :
  _find_original_price soup = Some price →
  (0 < price)%Qc
  ∧ ∃ selector elements elem text,
      selector ∈ price_selectors ∧ select soup selector = Ok elements
      ∧ elem ∈ elements ∧ get_text elem = Ok text
      ∧ Str.contains "$" text = true
      ∧ Str.contains "was" (Str.lower text) = true
      ∧ _parse_price text = Some price.
Proof.
  unfold _find_original_price.
  destruct (scan_selectors soup price_selectors) as [[p|]|e] eqn:Hs; try done.
  intros [= <-]. by apply scan_selectors_Some.
Qed.

(** [get_auction_details] returns a dict on every path and never [None]:
    the empty dict from its handler, which a failed request and a negative
    delay both reach, and otherwise a dict with exactly the keys
    [original_price], [condition] and [location], where the original price
    is [None] or a number above zero and the other two are text. *)
Theorem get_auction_details_shape (config : Config) (url : string) :
  let details := get_auction_details config url in
  (details = ∅
   ∧ ((∃ e, fetch url (REQUEST_TIMEOUT config) = Raise e)
      ∨ (REQUEST_DELAY config < 0)%Qc))
  ∨ (dom details = {[ "original_price"; "condition"; "location" ]}
     ∧ (details !! "original_price" = Some PNone
        ∨ ∃ price, details !! "original_price" = Some (PNum price)
                   ∧ (0 < price)%Qc)
     ∧ (∃ condition, details !! "condition" = Some (PStr condition))
     ∧ (∃ location, details !! "location" = Some (PStr location))
     ∧ (0 ≤ REQUEST_DELAY config)%Qc).
Proof.
  intros details. unfold details, get_auction_details.
  destruct (fetch url (REQUEST_TIMEOUT config)) as [soup|e] eqn:Hf.
  2:{ left. split; [done|]. left. eauto. }
  rewrite bind_ok. unfold py_sleep.
  destruct (bool_decide_reflect (REQUEST_DELAY config < 0)%Qc) as [Hneg|Hpos].
  { left. split; [done|]. by right. }
  right. rewrite bind_ok. unfold try_except. split_and!.
  - rewrite !dom_list_to_map_L. simpl. set_solver.
  - destruct (_find_original_price soup) as [p|] eqn:Hp; simpl.
    + right. exists p. split; [done|].
      unfold _find_original_price in Hp.
      destruct (scan_selectors soup price_selectors) as [[p'|]|e'] eqn:Hs;
        try done.
      injection Hp as ->. by apply scan_selectors_Some in Hs as [? _].
    + by left.
  - by eexists.
  - by eexists.
  - by apply Qcnot_lt_le.
Qed.
End DetailFacts.

(** * What a search shows *)

Lemma insert_asc_timed (x : Dict) (l : list Dict) :
  timed x → Forall timed l →
  StronglySorted (fun a b => hours_left a ≤ hours_left b)%Qc l →
  ∃ r, insert_asc time_key x l = Ok r ∧ r ≡ₚ x :: l
       ∧ StronglySorted (fun a b => hours_left a ≤ hours_left b)%Qc r
       ∧ ∀ k, filter (fun a => hours_left a = k) r
              = filter (fun a => hours_left a = k) (x :: l).
Proof.
  intros [qx Hx] Hl Hs. induction Hs as [|y l Hs IH Hy]; simpl.
  - exists [x]. split; [done|]. split; [done|]. split; [|done].
    by repeat constructor.
  - apply Forall_cons in Hl as [[qy Hqy] Hl]. rewrite Hqy, Hx. simpl.
    assert (Hhx : hours_left x = qx) by (unfold hours_left; by rewrite Hx).
    assert (Hhy : hours_left y = qy) by (unfold hours_left; by rewrite Hqy).
    destruct (bool_decide_reflect (qy < qx)%Qc) as [Hlt|Hge].
    + destruct (IH Hl) as (r & -> & Hp & Hr & Hst). simpl. exists (y :: r).
      split; [done|]. split; [by rewrite Hp, Permutation_swap|]. split.
      * constructor; [done|]. rewrite Hp. constructor; [|done].
        rewrite Hhx, Hhy. by apply Qclt_le_weak.
      * intros k. rewrite !filter_cons, Hst, !filter_cons.
        destruct (decide (hours_left x = k)) as [Hxk|Hxk],
          (decide (hours_left y = k)) as [Hyk|Hyk]; try done.
        exfalso. rewrite Hhx in Hxk. rewrite Hhy in Hyk. subst.
        by apply Qclt_not_eq in Hlt.
    + apply Qcnot_lt_le in Hge. exists (x :: y :: l). split; [done|].
      split; [done|]. split; [|done]. constructor; [by constructor|].
      constructor; [by rewrite Hhx, Hhy|].
      eapply Forall_impl; [exact Hy|]. intros z Hz. simpl in Hz.
      rewrite Hhx. rewrite Hhy in Hz. by etrans.
Qed.

Lemma sorted_timed (l : list Dict) :
  Forall timed l →
  ∃ r, sorted time_key l = Ok r ∧ r ≡ₚ l
       ∧ StronglySorted (fun a b => hours_left a ≤ hours_left b)%Qc r
       ∧ ∀ k, filter (fun a => hours_left a = k) r
              = filter (fun a => hours_left a = k) l.
Proof.
  induction l as [|x l IH]; intros Hl; simpl.
  - exists []. split; [done|]. split; [done|]. split; [constructor | done].
  - apply Forall_cons in Hl as [Hx Hl].
    destruct (IH Hl) as (s & -> & Hp & Hs & Hst).
    simpl. destruct (insert_asc_timed x s Hx) as (r & Hr & Hpr & Hsr & Hstr);
      [by rewrite Hp | done |].
    exists r. split; [done|]. split; [by rewrite Hpr, Hp|]. split; [done|].
    intros k. by rewrite Hstr, !filter_cons, Hst.
Qed.

(** On auctions whose hours are numbers the search shows ten of them, or all
    when there are fewer, in ascending order of the hours left; no auction it
    leaves out ends before one it shows, and auctions with the same hours
    come in the order in which the search found them. *)
Theorem top_10_ends_first (auctions : list Dict) :
  Forall timed auctions →
  ∃ shown rest,
    top_10 auctions = Ok shown
    ∧ length shown = (10 `min` length auctions)%nat
    ∧ shown ++ rest ≡ₚ auctions
    ∧ StronglySorted (fun a b => hours_left a ≤ hours_left b)%Qc shown
    ∧ (∀ x y, x ∈ shown → y ∈ rest → (hours_left x ≤ hours_left y)%Qc)
    ∧ ∀ k, filter (fun a => hours_left a = k) (shown ++ rest)
           = filter (fun a => hours_left a = k) auctions.
Proof.
  intros Hl. destruct (sorted_timed auctions Hl) as (r & Hr & Hp & Hs & Hst).
  exists (take 10 r), (drop 10 r). unfold top_10. rewrite Hr. simpl.
  split; [done|]. split; [by rewrite length_take, Hp|].
  split; [by rewrite take_drop|].
  rewrite take_drop. rewrite <- (take_drop 10 r) in Hs. split_and!.
  - by apply StronglySorted_app_1_l in Hs.
  - intros x y Hx Hy. by apply (StronglySorted_app_1_elem_of _ _ _ _ _ Hs).
  - done.
Qed.

(** * The search conversation *)

Section BotFacts.
Context {St msg page tag : Type} `{Chat St msg} `{Soup tag} `{Web page tag}.
Variable now : Z.
Variable strip : string → string.
Variable repr : pyval → string.
Variable format_2f : Qc → string.

(** Whatever is asked and whatever the site answers, the handler of a search
    never lists an auction: on a text that strips to nothing it asks again,
    and otherwise it announces the search and then reports that nothing was
    found, or that the search failed when that report cannot be sent. *)
Theorem handle_search_query_reports_nothing (config : Config) (text : string) :
  handle_search_query now strip repr format_2f config text
  = report_nothing strip text.
Proof.
  unfold handle_search_query, report_nothing.
  case_bool_decide; [done|]. by rewrite search_auctions_nil.
Qed.
End BotFacts.

(** * The further statements at sample inputs *)

Lemma filter_permutation_witness :
  [0; 1; 2; 3; 0]%nat ≡ₚ [3; 0; 2; 0; 1]%nat
  ∧ (filter_interesting_auctions sample_repr sample_format_1f sample_config
       sample_heap [0; 1; 2; 3; 0]%nat).1
    = (filter_interesting_auctions sample_repr sample_format_1f sample_config
         sample_heap [3; 0; 2; 0; 1]%nat).1
  ∧ (filter_interesting_auctions sample_repr sample_format_1f sample_config
       sample_heap [0; 1; 2; 3; 0]%nat).2
    ≡ₚ (filter_interesting_auctions sample_repr sample_format_1f sample_config
          sample_heap [3; 0; 2; 0; 1]%nat).2.
Proof.
  assert (Hp : [0; 1; 2; 3; 0]%nat ≡ₚ [3; 0; 2; 0; 1]%nat) by by_decide.
  split; [exact Hp|].
  exact (filter_permutation sample_repr sample_format_1f sample_config
           sample_heap _ _ Hp).
Defined.


Lemma survivor_filter_reason_witness :
  2%nat ∈ (filter_interesting_auctions sample_repr sample_format_1f
             sample_config sample_heap sample_batch).2
  ∧ ∃ r rs brand b,
      (filter_interesting_auctions sample_repr sample_format_1f sample_config
         sample_heap sample_batch).1 !! 2%nat = Some r
      ∧ r !! "filter_reason" = Some (PList rs)
      ∧ r !! "brand" = Some (PStr brand)
      ∧ dict_get r "bids" (PNum 0) = PNum b
      ∧ (brand ≠ "" → head rs = Some ("Marca premium: " +:+ brand))
      ∧ ("Actividad alta: " +:+ sample_repr (PNum b) +:+ " pujas") ∈ rs.
Proof.
  assert (Hin : 2%nat ∈ (filter_interesting_auctions sample_repr sample_format_1f
                           sample_config sample_heap sample_batch).2)
    by by_decide.
  split; [exact Hin|].
  exact (survivor_filter_reason sample_repr sample_format_1f sample_config
           sample_heap sample_batch 2%nat Hin).
Defined.

Lemma filter_stats_conserve_witness :
  get_filter_stats
    [sample_survivor; sample_no_brand; sample_discounted_survivor; sample_malformed]
    [sample_discounted_survivor; sample_survivor] = Ok sample_stats
  ∧ total_auctions sample_stats = 4
  ∧ filtered_auctions sample_stats = 2
  ∧ bucket_total (price_distribution sample_stats) = 2
  ∧ count_total (top_brands sample_stats) = 2
  ∧ NoDup (top_brands sample_stats).*1.
Proof.
  assert (Hs : get_filter_stats
                 [sample_survivor; sample_no_brand; sample_discounted_survivor;
                  sample_malformed]
                 [sample_discounted_survivor; sample_survivor] = Ok sample_stats)
    by by_decide.
  split; [exact Hs|].
  exact (filter_stats_conserve _ _ _ Hs).
Defined.

Lemma filter_rate_is_percentage_witness :
  get_filter_stats
    [sample_survivor; sample_no_brand; sample_discounted_survivor; sample_malformed]
    [sample_discounted_survivor; sample_survivor] = Ok sample_stats
  ∧ (0 ≤ filter_rate sample_stats ≤ Qc_of_Z 100)%Qc.
Proof.
  assert (Hs : get_filter_stats
                 [sample_survivor; sample_no_brand; sample_discounted_survivor;
                  sample_malformed]
                 [sample_discounted_survivor; sample_survivor] = Ok sample_stats)
    by by_decide.
  split; [exact Hs|].
  refine (proj1 (filter_rate_is_percentage _ _ _ Hs _)). simpl. lia.
Defined.

Lemma parse_price_nonnegative_witness :
  _parse_price "-$1,234.56" = Some (dec 123456 100)
  ∧ (0 ≤ dec 123456 100)%Qc.
Proof.
  assert (Hp : _parse_price "-$1,234.56" = Some (dec 123456 100)) by by_decide.
  split; [exact Hp|]. exact (parse_price_nonnegative _ _ Hp).
Defined.

Lemma untimed_listing_never_kept_witness :
  sample_untimed !! "time_remaining_hours"
  = Some (PNum (_parse_time_remaining "Buy It Now"))
  ∧ survivor sample_repr sample_format_1f sample_config sample_untimed = None.
Proof.
  assert (Ha : sample_untimed !! "time_remaining_hours"
               = Some (PNum (_parse_time_remaining "Buy It Now")))
    by reflexivity.
  split; [exact Ha|].
  refine (untimed_listing_never_kept sample_repr sample_format_1f sample_config
            "Buy It Now" sample_untimed _ Ha).
  intros u Hu.
  repeat (apply elem_of_cons in Hu as [->|Hu]; [reflexivity|]).
  by apply elem_of_nil in Hu.
Defined.



Lemma find_original_price_sound_witness :
  _find_original_price sample_page = Some (Qc_of_Z 1299)
  ∧ (0 < Qc_of_Z 1299)%Qc.
Proof.
  assert (Hp : _find_original_price sample_page = Some (Qc_of_Z 1299))
    by by_decide.
  split; [exact Hp|]. exact (proj1 (find_original_price_sound _ _ Hp)).
Defined.

Lemma top_10_ends_first_witness :
  Forall timed [sample_macbook; sample_no_brand; sample_discounted]
  ∧ ∃ shown rest,
      top_10 [sample_macbook; sample_no_brand; sample_discounted] = Ok shown
      ∧ length shown = 3%nat
      ∧ shown ++ rest ≡ₚ [sample_macbook; sample_no_brand; sample_discounted]
      ∧ StronglySorted (fun a b => hours_left a ≤ hours_left b)%Qc shown
      ∧ (∀ x y, x ∈ shown → y ∈ rest → (hours_left x ≤ hours_left y)%Qc)
      ∧ ∀ k, filter (fun a => hours_left a = k) (shown ++ rest)
             = filter (fun a => hours_left a = k)
                 [sample_macbook; sample_no_brand; sample_discounted].
Proof.
  assert (Ht : Forall timed [sample_macbook; sample_no_brand; sample_discounted]).
  { repeat constructor; by eexists. }
  split; [exact Ht|]. exact (top_10_ends_first _ Ht).
Defined.

Lemma empty_keyword_excludes_all_witness :
  "" ∈ ["broken"; ""]
  ∧ survivor sample_repr sample_format_1f
      (with_policy (Config_default "" "") sample_policy_empty_keyword)
      sample_macbook = None.
Proof.
  assert (Hin : "" ∈ ["broken"; ""]) by by_decide.
  split; [exact Hin|].
  exact (empty_keyword_excludes_all sample_repr sample_format_1f
           (with_policy (Config_default "" "") sample_policy_empty_keyword)
           ["broken"; ""] sample_macbook eq_refl Hin).
Defined.

Lemma kept_brand_is_extracted_brand_witness :
  survivor sample_repr sample_format_1f sample_config sample_extracted
  = Some sample_survivor
  ∧ ∃ b, _extract_brand "Apple MacBook Pro 16" = Some b ∧ b ∈ ["MacBook"]
      ∧ sample_survivor !! "brand" = Some (PStr b).
Proof.
  assert (Hs : survivor sample_repr sample_format_1f sample_config sample_extracted
               = Some sample_survivor) by by_decide.
  split; [exact Hs|].
  refine (kept_brand_is_extracted_brand sample_repr sample_format_1f sample_config
            ["MacBook"] "Apple MacBook Pro 16" sample_extracted sample_survivor
            eq_refl _ eq_refl eq_refl Hs).
  intros x Hx. apply list_elem_of_singleton in Hx as ->. by_decide.
Defined.
